(** * autodeps: a shallow embedding of [autodeps.py]

    The development follows the script top to bottom.

    - [Str], [Re], [OsPath], [Sha224]: the parts of the Python 2 runtime the
      script leans on ([str.strip], [repr], the three regular expressions,
      [os.path.join]/[dirname]/[split], [hashlib.sha224]).
    - [Autodeps]: the object state, the outside world (files, advisory
      locks, external commands) and every method of the class as a
      computation in a state-and-exception monad.
    - The theorems come last. *)

From Stdlib Require Import ZArith QArith Ascii String List Lia Bool.
From stdpp Require Import base option strings list gmap fin_maps pretty.

Import ListNotations.
Local Open Scope string_scope.
Local Open Scope Z_scope.

(* ===================================================================== *)
(** ** Python 2 byte strings                                              *)
(* ===================================================================== *)

Module Str.

Definition code (c : ascii) : Z := Z.of_N (N_of_ascii c).

Definition chr (n : Z) : ascii := ascii_of_N (Z.to_N n).

Definition dquote : ascii := chr 34.
Definition squote : ascii := chr 39.
Definition backslash : ascii := chr 92.
Definition newline : ascii := chr 10.
Definition tab : ascii := chr 9.
Definition cr : ascii := chr 13.

Definition eqc (a b : ascii) : bool := Ascii.eqb a b.

(** [c in s] for a one-character [c]. *)
Fixpoint mem (c : ascii) (s : string) : bool :=
  match s with
  | EmptyString => false
  | String d s' => eqc c d || mem c s'
  end.

(** [s.startswith(p)] *)
Fixpoint startswith (p s : string) : bool :=
  match p, s with
  | EmptyString, _ => true
  | String a p', String b s' => eqc a b && startswith p' s'
  | String _ _, EmptyString => false
  end.

Fixpoint rev_onto (s acc : string) : string :=
  match s with
  | EmptyString => acc
  | String c s' => rev_onto s' (String c acc)
  end.

Definition rev (s : string) : string := rev_onto s EmptyString.

Definition endswith (p s : string) : bool := startswith (rev p) (rev s).

(** [str.isspace] on one character of a byte string (C locale). *)
Definition isspace (c : ascii) : bool :=
  let n := code c in (n =? 32) || ((9 <=? n) && (n <=? 13)).

Fixpoint lstrip (s : string) : string :=
  match s with
  | EmptyString => EmptyString
  | String c s' => if isspace c then lstrip s' else s
  end.

Definition rstrip (s : string) : string := rev (lstrip (rev s)).

(** [s.strip()] *)
Definition strip (s : string) : string := rstrip (lstrip s).

(** [sep.join(l)] *)
Fixpoint join (sep : string) (l : list string) : string :=
  match l with
  | [] => EmptyString
  | [x] => x
  | x :: l' => x +:+ sep +:+ join sep l'
  end.

(** [bool(s)] and [len] used as a predicate by [filter]. *)
Definition nonempty (s : string) : bool :=
  match s with EmptyString => false | String _ _ => true end.

(** Iterating over an open file: the content cut after every line feed,
    the line feed kept. *)
Fixpoint lines_from (cur : string) (s : string) : list string :=
  match s with
  | EmptyString =>
      match cur with EmptyString => [] | _ => [rev cur] end
  | String c s' =>
      if eqc c newline then rev (String c cur) :: lines_from EmptyString s'
      else lines_from (String c cur) s'
  end.

Definition readlines (content : string) : list string :=
  lines_from EmptyString content.

Definition hexdigits : string := "0123456789abcdef".

Definition hexdigit (n : Z) : ascii :=
  match String.get (Z.to_nat n) hexdigits with
  | Some c => c
  | None => "0"%char
  end.

(** One character of [repr(str)] (PyString_Repr), [quote] being the
    delimiter chosen for the whole string. *)
Definition repr_char (quote c : ascii) : string :=
  if eqc c quote || eqc c backslash then String backslash (String c EmptyString)
  else if eqc c tab then String backslash "t"
  else if eqc c newline then String backslash "n"
  else if eqc c cr then String backslash "r"
  else if (code c <? 32) || (127 <=? code c) then
    String backslash
      (String "x" (String (hexdigit (Z.shiftr (code c) 4))
                     (String (hexdigit (Z.land (code c) 15)) EmptyString)))
  else String c EmptyString.

Fixpoint repr_body (quote : ascii) (s : string) : string :=
  match s with
  | EmptyString => EmptyString
  | String c s' => repr_char quote c +:+ repr_body quote s'
  end.

(** The delimiter: a double quote when the string holds a single quote
    and no double quote, a single quote otherwise. *)
Definition repr_quote (s : string) : ascii :=
  if mem squote s && negb (mem dquote s) then dquote else squote.

(** [repr(s)] for a [str]. *)
Definition repr (s : string) : string :=
  String (repr_quote s) (repr_body (repr_quote s) s +:+ String (repr_quote s) EmptyString).

(** [repr(l)] for a list of [str]. *)
Definition repr_list (l : list string) : string :=
  "[" +:+ join ", " (map repr l) +:+ "]".

End Str.

(* ===================================================================== *)
(** ** hashlib.sha224 (FIPS 180-4)                                        *)
(* ===================================================================== *)

Module Sha224.

Definition mask32 : Z := 0xFFFFFFFF.

Definition w32 (x : Z) : Z := Z.land x mask32.

Definition add32 (x y : Z) : Z := w32 (x + y).

Definition rotr (n x : Z) : Z :=
  Z.lor (Z.shiftr x n) (w32 (Z.shiftl x (32 - n))).

Definition Ch (x y z : Z) : Z :=
  Z.lxor (Z.land x y) (Z.land (Z.lxor x mask32) z).

Definition Maj (x y z : Z) : Z :=
  Z.lxor (Z.lxor (Z.land x y) (Z.land x z)) (Z.land y z).

Definition Sigma0 (x : Z) : Z :=
  Z.lxor (Z.lxor (rotr 2 x) (rotr 13 x)) (rotr 22 x).

Definition Sigma1 (x : Z) : Z :=
  Z.lxor (Z.lxor (rotr 6 x) (rotr 11 x)) (rotr 25 x).

Definition sigma0 (x : Z) : Z :=
  Z.lxor (Z.lxor (rotr 7 x) (rotr 18 x)) (Z.shiftr x 3).

Definition sigma1 (x : Z) : Z :=
  Z.lxor (Z.lxor (rotr 17 x) (rotr 19 x)) (Z.shiftr x 10).

(** The sixty-four round constants (section 4.2.2), in decimal. *)
Definition K : list Z :=
  [
    1116352408; 1899447441; 3049323471; 3921009573;
    961987163; 1508970993; 2453635748; 2870763221;
    3624381080; 310598401; 607225278; 1426881987;
    1925078388; 2162078206; 2614888103; 3248222580;
    3835390401; 4022224774; 264347078; 604807628;
    770255983; 1249150122; 1555081692; 1996064986;
    2554220882; 2821834349; 2952996808; 3210313671;
    3336571891; 3584528711; 113926993; 338241895;
    666307205; 773529912; 1294757372; 1396182291;
    1695183700; 1986661051; 2177026350; 2456956037;
    2730485921; 2820302411; 3259730800; 3345764771;
    3516065817; 3600352804; 4094571909; 275423344;
    430227734; 506948616; 659060556; 883997877;
    958139571; 1322822218; 1537002063; 1747873779;
    1955562222; 2024104815; 2227730452; 2361852424;
    2428436474; 2756734187; 3204031479; 3329325298
  ].

(** The eight working words. *)
Record state := State {
  ha : Z; hb : Z; hc : Z; hd : Z; he : Z; hf : Z; hg : Z; hh : Z
}.

(** Initial hash value of SHA-224 (section 5.3.2). *)
Definition H0 : state :=
  State 0xc1059ed8 0x367cd507 0x3070dd17 0xf70e5939
        0xffc00b31 0x68581511 0x64f98fa7 0xbefa4fa4.

Definition round (s : state) (k w : Z) : state :=
  let t1 := add32 (add32 (add32 (add32 (hh s) (Sigma1 (he s)))
                                (Ch (he s) (hf s) (hg s))) k) w in
  let t2 := add32 (Sigma0 (ha s)) (Maj (ha s) (hb s) (hc s)) in
  State (add32 t1 t2) (ha s) (hb s) (hc s) (add32 (hd s) t1) (he s) (hf s) (hg s).

Definition nthz (l : list Z) (i : nat) : Z := nth i l 0.

(** The message schedule is kept as a window of the last sixteen words,
    oldest first: the head is the word of the current round. *)
Definition next_word (win : list Z) : Z :=
  add32 (add32 (add32 (sigma1 (nthz win 14)) (nthz win 9))
               (sigma0 (nthz win 1))) (nthz win 0).

Fixpoint rounds (ks : list Z) (win : list Z) (s : state) : state :=
  match ks with
  | [] => s
  | k :: ks' =>
      rounds ks' (tl win ++ [next_word win]) (round s k (nthz win 0))
  end.

Definition compress (s : state) (block : list Z) : state :=
  let t := rounds K block s in
  State (add32 (ha s) (ha t)) (add32 (hb s) (hb t))
        (add32 (hc s) (hc t)) (add32 (hd s) (hd t))
        (add32 (he s) (he t)) (add32 (hf s) (hf t))
        (add32 (hg s) (hg t)) (add32 (hh s) (hh t)).

(** Big-endian bytes to 32-bit words; a short tail is padded with zero
    bytes (the padded message never has one). *)
Fixpoint words (bytes : list Z) : list Z :=
  match bytes with
  | b0 :: b1 :: b2 :: b3 :: rest =>
      (Z.shiftl b0 24 + Z.shiftl b1 16 + Z.shiftl b2 8 + b3) :: words rest
  | _ => []
  end.

Definition be64 (n : Z) : list Z :=
  map (fun i => Z.land (Z.shiftr n (8 * i)) 255) [7; 6; 5; 4; 3; 2; 1; 0].

(** Section 5.1.1: a one bit, zero bits up to 448 mod 512, the length. *)
Definition pad (msg : list Z) : list Z :=
  let len := Z.of_nat (length msg) in
  let zeros := (55 - len) mod 64 in
  msg ++ [128] ++ repeat 0 (Z.to_nat zeros) ++ be64 (8 * len).

Fixpoint blocks (n : nat) (ws : list Z) (s : state) : state :=
  match n with
  | O => s
  | S n' =>
      match ws with
      | [] => s
      | _ => blocks n' (drop 16 ws) (compress s (take 16 ws))
      end
  end.

Definition digest_state (msg : list Z) : state :=
  let ws := words (pad msg) in
  blocks (length ws) ws H0.

Definition hex8 (w : Z) : string :=
  fold_right (fun i acc => String (Str.hexdigit (Z.land (Z.shiftr w (4 * i)) 15)) acc)
             EmptyString [7; 6; 5; 4; 3; 2; 1; 0].

Fixpoint bytes_of (s : string) : list Z :=
  match s with
  | EmptyString => []
  | String c s' => Str.code c :: bytes_of s'
  end.

(** [hashlib.sha224(s).hexdigest()]: the first seven words, in hex. *)
Definition hexdigest (s : string) : string :=
  let t := digest_state (bytes_of s) in
  hex8 (ha t) +:+ hex8 (hb t) +:+ hex8 (hc t) +:+ hex8 (hd t) +:+
  hex8 (he t) +:+ hex8 (hf t) +:+ hex8 (hg t).

End Sha224.

(* ===================================================================== *)
(** ** The regular expressions of the script                              *)
(* ===================================================================== *)

Module Re.

Definition is_alpha (c : ascii) : bool :=
  let n := Str.code c in
  ((65 <=? n) && (n <=? 90)) || ((97 <=? n) && (n <=? 122)).

(** The class [[a-zA-Z-]]. *)
Definition is_alpha_hyphen (c : ascii) : bool :=
  is_alpha c || Str.eqc c "-".

Fixpoint take_while (p : ascii -> bool) (s : string) : string :=
  match s with
  | EmptyString => EmptyString
  | String c s' => if p c then String c (take_while p s') else EmptyString
  end.

Fixpoint drop_while (p : ascii -> bool) (s : string) : string :=
  match s with
  | EmptyString => EmptyString
  | String c s' => if p c then drop_while p s' else s
  end.

(** [re.sub(r'[#].*', '', s)]: every stretch from a [#] up to, not
    including, the next line feed is deleted ([.] does not match a line
    feed). [skipping] is true inside such a stretch. *)
Fixpoint sub_comment_from (skipping : bool) (s : string) : string :=
  match s with
  | EmptyString => EmptyString
  | String c s' =>
      if skipping then
        if Str.eqc c Str.newline then String c (sub_comment_from false s')
        else sub_comment_from true s'
      else if Str.eqc c "#" then sub_comment_from true s'
      else String c (sub_comment_from false s')
  end.

Definition sub_comment (s : string) : string := sub_comment_from false s.

(** [re.match('.*/([a-zA-Z-]+)', s)], group 1. The greedy [.*] stays on
    the first line and backtracks to the last slash that is followed by a
    character of the class; the group is the longest run from there.
    [best] is the group for the last such slash seen so far. *)
Fixpoint match_path_from (s : string) (best : option string) : option string :=
  match s with
  | EmptyString => best
  | String c s' =>
      if Str.eqc c Str.newline then best
      else if Str.eqc c "/" then
        let run := take_while is_alpha_hyphen s' in
        match_path_from s' (if Str.nonempty run then Some run else best)
      else match_path_from s' best
  end.

Definition match_path (s : string) : option string := match_path_from s None.

(** What [$] accepts: the end of the string, or a line feed that ends it. *)
Definition at_dollar (rest : string) : bool :=
  match rest with
  | EmptyString => true
  | String c EmptyString => Str.eqc c Str.newline
  | _ => false
  end.

(** [re.search(' ([a-zA-Z]+)$', s)], group 1: the leftmost blank that is
    followed by letters only, up to the end. *)
Fixpoint search_word (s : string) : option string :=
  match s with
  | EmptyString => None
  | String c s' =>
      if Str.eqc c " " then
        let run := take_while is_alpha s' in
        if Str.nonempty run && at_dollar (drop_while is_alpha s') then Some run
        else search_word s'
      else search_word s'
  end.

End Re.

(* ===================================================================== *)
(** ** os.path (posixpath)                                                *)
(* ===================================================================== *)

Module OsPath.

(** [os.path.join(a, b)] *)
Definition join (a b : string) : string :=
  if Str.startswith "/" b then b
  else if negb (Str.nonempty a) || Str.endswith "/" a then a +:+ b
  else a +:+ "/" +:+ b.

(** [(p[:i], p[i:])] for [i = p.rfind('/') + 1]. *)
Fixpoint cut_last_slash (p : string) : option (string * string) :=
  match p with
  | EmptyString => None
  | String c p' =>
      match cut_last_slash p' with
      | Some (h, t) => Some (String c h, t)
      | None => if Str.eqc c "/" then Some (String c EmptyString, p') else None
      end
  end.

Fixpoint all_slashes (s : string) : bool :=
  match s with
  | EmptyString => true
  | String c s' => Str.eqc c "/" && all_slashes s'
  end.

Fixpoint lstrip_slashes (s : string) : string :=
  match s with
  | EmptyString => EmptyString
  | String c s' => if Str.eqc c "/" then lstrip_slashes s' else s
  end.

(** [head.rstrip('/')] *)
Definition rstrip_slashes (s : string) : string :=
  Str.rev (lstrip_slashes (Str.rev s)).

(** [os.path.split(p)] *)
Definition split (p : string) : string * string :=
  match cut_last_slash p with
  | None => (EmptyString, p)
  | Some (head, tail) =>
      (if Str.nonempty head && negb (all_slashes head)
       then rstrip_slashes head else head, tail)
  end.

(** [os.path.dirname(p)] *)
Definition dirname (p : string) : string := fst (split p).

End OsPath.

(* ===================================================================== *)
(** ** The script                                                         *)
(* ===================================================================== *)

Module Autodeps.

(** *** The outside world

    Paths are keys of a flat table: a directory is recorded under its own
    path only, and a path is taken as it is written (no working-directory
    or [..] resolution). Links are followed by the calls that test or
    stat a path; a write to a path replaces what is recorded there, and
    the calls that create a path do not ask for its parent. *)

Inductive node :=
| Dir
| File (content : string)
| Symlink (target : string).

Inductive errno :=
| ENOENT | EEXIST | EACCES | ENOTDIR | EISDIR | ENOTEMPTY | EUNSET.

Inductive exn :=
| OSError (e : errno) (path : string)
| IOError (e : errno) (path : string)
| TypeError
| AssertionError
| Exception (msg : string).

(** What a harness that wraps the methods and the system calls would
    record. *)
Inductive event :=
| Call (method : string)
| Lock (path : string) (owner : nat)
| Unlock (path : string) (owner : nat)
| Run (name cmd : string) (log : option string) (status : Z).

Record World := mkWorld {
  files : gmap string node;
  locks : gmap string nat;      (* lock file -> process holding it *)
  cwd : string;
  trace : list event
}.

(** What a missing directory meets when the process tries to create it. *)
Inductive creation := Created | Denied | Raced.

(** Everything the process does not decide itself. [exec] is a shell
    command run to completion: its exit status and what it did to the
    files. *)
Record Env := mkEnv {
  pid : nat;
  python_version : string;
  exec : string -> gmap string node -> Z * gmap string node;
  makedirs_meets : string -> creation;
  writable : string -> bool;
  statvfs : string -> option (Z * Z);    (* f_bsize, f_bavail *)
  randint : Z;
  now : string
}.

(** The fields of the object after [__init__]. *)
Record Self := mkSelf {
  venv_dir_search : list string;          (* config['venv-dir-search'] *)
  requirements : list string;
  deps_hash : string;
  virtualenv_dir : string;
  virtualenv_command : string;
  lockfilename : string;
  archive_dir : string;
  venv_latest_filename : string;
  submodule_update_path : option string;
  pip_extra : string;
  autodeps_dir : string;
  lock_file : option string;
  step_prefix : string;
  current_step : Z;
  total_steps : Z
}.

Record State := mkState { obj : Self; world : World }.

Definition set_virtualenv_dir (d : string) (o : Self) : Self :=
  mkSelf (venv_dir_search o) (requirements o) (deps_hash o) d
         (virtualenv_command o) (lockfilename o) (archive_dir o)
         (venv_latest_filename o) (submodule_update_path o) (pip_extra o)
         (autodeps_dir o) (lock_file o) (step_prefix o) (current_step o)
         (total_steps o).

Definition set_lock_file (f : option string) (o : Self) : Self :=
  mkSelf (venv_dir_search o) (requirements o) (deps_hash o) (virtualenv_dir o)
         (virtualenv_command o) (lockfilename o) (archive_dir o)
         (venv_latest_filename o) (submodule_update_path o) (pip_extra o)
         (autodeps_dir o) f (step_prefix o) (current_step o)
         (total_steps o).

Definition set_step_prefix (p : string) (o : Self) : Self :=
  mkSelf (venv_dir_search o) (requirements o) (deps_hash o) (virtualenv_dir o)
         (virtualenv_command o) (lockfilename o) (archive_dir o)
         (venv_latest_filename o) (submodule_update_path o) (pip_extra o)
         (autodeps_dir o) (lock_file o) p (current_step o)
         (total_steps o).

Definition set_current_step (n : Z) (o : Self) : Self :=
  mkSelf (venv_dir_search o) (requirements o) (deps_hash o) (virtualenv_dir o)
         (virtualenv_command o) (lockfilename o) (archive_dir o)
         (venv_latest_filename o) (submodule_update_path o) (pip_extra o)
         (autodeps_dir o) (lock_file o) (step_prefix o) n
         (total_steps o).

Definition set_total_steps (n : Z) (o : Self) : Self :=
  mkSelf (venv_dir_search o) (requirements o) (deps_hash o) (virtualenv_dir o)
         (virtualenv_command o) (lockfilename o) (archive_dir o)
         (venv_latest_filename o) (submodule_update_path o) (pip_extra o)
         (autodeps_dir o) (lock_file o) (step_prefix o) (current_step o) n.

Definition set_files (fs : gmap string node) (w : World) : World :=
  mkWorld fs (locks w) (cwd w) (trace w).

Definition set_locks (l : gmap string nat) (w : World) : World :=
  mkWorld (files w) l (cwd w) (trace w).

Definition set_cwd (d : string) (w : World) : World :=
  mkWorld (files w) (locks w) d (trace w).

Definition record (e : event) (w : World) : World :=
  mkWorld (files w) (locks w) (cwd w) (trace w ++ [e]).

(** *** Computations: state, exceptions, and calls that never return *)

Inductive outcome (A : Type) :=
| Ok (a : A)
| Raise (e : exn)
| Hangs.
Arguments Ok {A} a.
Arguments Raise {A} e.
Arguments Hangs {A}.

Definition M (A : Type) : Type := State -> outcome A * State.

#[global] Instance M_ret : MRet M := fun A a s => (Ok a, s).

#[global] Instance M_bind : MBind M := fun A B f m s =>
  match m s with
  | (Ok a, s') => f a s'
  | (Raise e, s') => (Raise e, s')
  | (Hangs, s') => (Hangs, s')
  end.

Definition raise {A} (e : exn) : M A := fun s => (Raise e, s).

Definition hang {A} : M A := fun s => (Hangs, s).

(** [try: body / except <handles>: handler] *)
Definition try_except {A} (body : M A) (handles : exn -> bool)
           (handler : M A) : M A := fun s =>
  match body s with
  | (Raise e, s') => if handles e then handler s' else (Raise e, s')
  | r => r
  end.

Definition is_OSError (e : exn) : bool :=
  match e with OSError _ _ => true | _ => false end.

Definition any_exception (e : exn) : bool := true.

Definition get_obj : M Self := fun s => (Ok (obj s), s).

Definition get_files : M (gmap string node) := fun s => (Ok (files (world s)), s).

Definition get_world : M World := fun s => (Ok (world s), s).

Definition with_obj (f : Self -> Self) : M unit :=
  fun s => (Ok tt, mkState (f (obj s)) (world s)).

Definition with_world (f : World -> World) : M unit :=
  fun s => (Ok tt, mkState (obj s) (f (world s))).

Definition put_files (fs : gmap string node) : M unit := with_world (set_files fs).

Definition emit (e : event) : M unit := with_world (record e).

(** *** File system calls *)

(** [p] is the directory [d] itself or lies below it. *)
Definition under (d p : string) : bool := Str.startswith (d +:+ "/") p.

Definition within (d p : string) : bool := String.eqb d p || under d p.

(** Following symbolic links, at most [n] of them. *)
Fixpoint resolve (fs : gmap string node) (n : nat) (p : string) : option string :=
  match fs !! p with
  | None => None
  | Some (Symlink t) =>
      match n with
      | O => None
      | S n' => resolve fs n' t
      end
  | Some _ => Some p
  end.

Definition max_links : nat := 40.

(** [os.path.exists(p)]: false for a dangling link. *)
Definition path_exists (fs : gmap string node) (p : string) : bool :=
  match resolve fs max_links p with Some _ => true | None => false end.

Definition os_path_exists (p : string) : M bool :=
  fs ← get_files; mret (path_exists fs p).

Section Methods.

Variable env : Env.

(** [os.makedirs(p)] *)
Definition makedirs (p : string) : M unit :=
  fs ← get_files;
  match fs !! p with
  | Some _ => raise (OSError EEXIST p)
  | None =>
      match makedirs_meets env p with
      | Created => put_files (<[p := Dir]> fs)
      | Denied => raise (OSError EACCES p)
      | Raced => put_files (<[p := Dir]> fs) ;; raise (OSError EEXIST p)
      end
  end.

(** [open(p, 'w')], the write of [content], and the close. *)
Definition open_write (p content : string) : M unit :=
  fs ← get_files;
  match fs !! p with
  | Some Dir => raise (IOError EISDIR p)
  | _ => put_files (<[p := File content]> fs)
  end.

(** [open(p, 'a')]: the file is created when missing, kept otherwise. *)
Definition open_append (p : string) : M unit :=
  fs ← get_files;
  match fs !! p with
  | Some Dir => raise (IOError EISDIR p)
  | Some _ => mret tt
  | None => put_files (<[p := File EmptyString]> fs)
  end.

(** [open(p)] read to the end. *)
Definition open_read (p : string) : M string :=
  fs ← get_files;
  match resolve fs max_links p with
  | None => raise (IOError ENOENT p)
  | Some q =>
      match fs !! q with
      | Some (File c) => mret c
      | Some Dir => raise (IOError EISDIR p)
      | _ => raise (IOError ENOENT p)
      end
  end.

(** [os.unlink(p)] *)
Definition unlink (p : string) : M unit :=
  fs ← get_files;
  match fs !! p with
  | None => raise (OSError ENOENT p)
  | Some Dir => raise (OSError EISDIR p)
  | Some _ => put_files (delete p fs)
  end.

(** [os.symlink(target, link)] *)
Definition symlink (target link : string) : M unit :=
  fs ← get_files;
  match fs !! link with
  | Some _ => raise (OSError EEXIST link)
  | None => put_files (<[link := Symlink target]> fs)
  end.

(** [os.path.samefile(a, b)]: both are stat-ed, links followed. *)
Definition samefile (a b : string) : M bool :=
  fs ← get_files;
  match resolve fs max_links a, resolve fs max_links b with
  | Some a', Some b' => mret (String.eqb a' b')
  | None, _ => raise (OSError ENOENT a)
  | _, None => raise (OSError ENOENT b)
  end.

Definition remove_tree (d : string) (fs : gmap string node) : gmap string node :=
  filter (fun kv => within d (fst kv) = false) fs.

(** [shutil.rmtree(p)]: a link is refused (with no errno), a missing path
    and a plain file fail in [os.listdir]. *)
Definition rmtree (p : string) : M unit :=
  fs ← get_files;
  match fs !! p with
  | None => raise (OSError ENOENT p)
  | Some (Symlink _) => raise (OSError EUNSET p)
  | Some (File _) => raise (OSError ENOTDIR p)
  | Some Dir => put_files (remove_tree p fs)
  end.

Definition has_children (d : string) (fs : gmap string node) : bool :=
  negb (bool_decide (map_Forall (fun p _ => under d p = false) fs)).

(** The entry at [src] and everything below it, re-rooted at [dst]. *)
Definition retarget (src dst p : string) : string :=
  dst +:+ String.substring (String.length src) (String.length p - String.length src) p.

Definition move_tree (src dst : string) (fs : gmap string node) : gmap string node :=
  map_fold (fun p n acc => if within src p then <[retarget src dst p := n]> acc else acc)
           (remove_tree src fs) fs.

(** [os.rename(src, dst)] *)
Definition rename (src dst : string) : M unit :=
  fs ← get_files;
  match fs !! src, fs !! dst with
  | None, _ => raise (OSError ENOENT src)
  | Some Dir, Some Dir =>
      if has_children dst fs then raise (OSError ENOTEMPTY dst)
      else put_files (move_tree src dst fs)
  | Some Dir, Some _ => raise (OSError ENOTDIR dst)
  | Some _, Some Dir => raise (OSError EISDIR dst)
  | Some _, _ => put_files (move_tree src dst fs)
  end.

(** [os.chmod(p, mode)]; permission bits are not part of [node]. *)
Definition chmod (p : string) : M unit :=
  fs ← get_files;
  if path_exists fs p then mret tt else raise (OSError ENOENT p).

(** [os.access(p, os.W_OK)] *)
Definition os_access_w (p : string) : M bool :=
  fs ← get_files; mret (path_exists fs p && writable env p).

Definition getcwd : M string := w ← get_world; mret (cwd w).

(** [os.chdir(d)] *)
Definition chdir (d : string) : M unit :=
  fs ← get_files;
  if path_exists fs d then with_world (set_cwd d) else raise (OSError ENOENT d).

(** [fcntl.lockf(f, LOCK_EX)]: locks belong to processes; the call waits
    for as long as another process holds the lock. *)
Definition lockf_ex (p : string) : M unit :=
  w ← get_world;
  match locks w !! p with
  | Some owner =>
      if Nat.eqb owner (pid env) then mret tt else hang
  | None =>
      with_world (set_locks (<[p := pid env]> (locks w))) ;;
      emit (Lock p (pid env))
  end.

(** [fcntl.lockf(f, LOCK_UN)] *)
Definition lockf_un (p : string) : M unit :=
  w ← get_world;
  match locks w !! p with
  | Some owner =>
      if Nat.eqb owner (pid env)
      then with_world (set_locks (delete p (locks w))) ;; emit (Unlock p (pid env))
      else mret tt
  | None => mret tt
  end.

(** [subprocess.Popen(cmd, shell=True, ...)] and the wait for its end. *)
Definition popen_wait (cmd : string) : M Z :=
  fs ← get_files;
  let r := exec env cmd fs in
  put_files (snd r) ;; mret (fst r).

(** *** Lines 377-381: [freespace_gb] *)

(** The [while] loop: up through [dirname] to a path that exists or is
    empty. [None] when [fuel] runs out. *)
Fixpoint nearest_existing (fs : gmap string node) (fuel : nat) (path : string)
  : option string :=
  if negb (path_exists fs path) && Str.nonempty path then
    match fuel with
    | O => None
    | S fuel' => nearest_existing fs fuel' (OsPath.dirname path)
    end
  else Some path.

(** The quotient is kept exact: [f_bsize * f_bavail / 2^30]. *)
Definition freespace_gb (path : string) : M Q :=
  fs ← get_files;
  match nearest_existing fs (S (String.length path)) path with
  | None => hang
  | Some p =>
      match (if Str.nonempty p then statvfs env p else None) with
      | None => raise (OSError ENOENT p)
      | Some (f_bsize, f_bavail) => mret (Qmake (f_bsize * f_bavail) (2 ^ 30))
      end
  end.

(** *** Lines 40-49: requirements and identity *)

(** One requirements file: comments cut, lines stripped. *)
Definition requirement_lines (content : string) : list string :=
  map (fun line => Str.strip (Re.sub_comment line)) (Str.readlines content).

Definition parse_requirements (contents : list string) : list string :=
  filter (fun r => Str.nonempty r = true) (concat (map requirement_lines contents)).

Fixpoint read_all (paths : list string) : M (list string) :=
  match paths with
  | [] => mret []
  | path :: rest =>
      c ← open_read path;
      cs ← read_all rest;
      mret (c :: cs)
  end.

Definition read_requirements (requirements_filenames : list string)
  : M (list string) :=
  contents ← read_all requirements_filenames;
  mret (parse_requirements contents).

(** [hashlib.sha224(version + repr(requirements)).hexdigest()[:40]] *)
Definition hash_input (version : string) (reqs : list string) : string :=
  version +:+ Str.repr_list reqs.

Definition compute_deps_hash (version : string) (reqs : list string) : string :=
  String.substring 0 40 (Sha224.hexdigest (hash_input version reqs)).

(** Lines 40-49 together: [self.requirements] and [self.deps_hash]. *)
Definition init_requirements (requirements_filenames : list string)
  : M (list string * string) :=
  reqs ← read_requirements requirements_filenames;
  mret (reqs, compute_deps_hash (python_version env) reqs).

(** *** Lines 51-74: the search for [virtualenv_dir] *)

Definition exists_or_locked (fs : gmap string node) (path : string) : bool :=
  path_exists fs path || path_exists fs (path +:+ ".lock").

Fixpoint first_existing (fs : gmap string node) (paths : list string)
  : option string :=
  match paths with
  | [] => None
  | path :: rest =>
      if exists_or_locked fs path then Some path else first_existing fs rest
  end.

(** [a > b] *)
Definition Qgtb (a b : Q) : bool := negb (Qle_bool a b).

Fixpoint create_first (required : Q) (paths : list string) : M (option string) :=
  match paths with
  | [] => mret None
  | path :: rest =>
      space ← freespace_gb path;
      if Qgtb space required then
        made ← try_except (makedirs path ;; mret true) is_OSError
                 (fs ← get_files; mret (exists_or_locked fs path));
        if made : bool then mret (Some path) else create_first required rest
      else create_first required rest
  end.

Definition default_required_gigabytes : Q := 1.

(** [paths] are the expanded templates, [required] is
    [config.get('venv-dir-required-gigabytes')]. *)
Definition select_virtualenv_dir (paths : list string) (required : option Q)
  : M string :=
  fs ← get_files;
  found ← match first_existing fs paths with
          | Some p => mret (Some p)
          | None => create_first (default default_required_gigabytes required) paths
          end;
  match found with
  | Some p => mret p
  | None => raise AssertionError
  end.

(** Line 334: [info] writes to stderr, which is not part of [World]. *)
Definition info (msg : string) : M unit := mret tt.

(** *** Lines 337-374: [call_installer]

    The progress text on stderr is left out, and the polling loop is
    reduced to the exit status it waits for. *)

Definition log_label (logfilename : option string) : string :=
  match logfilename with Some f => f | None => "None" end.

Definition call_installer (name cmd : string) (logfilename : option string)
  : M unit :=
  o ← get_obj;
  with_obj (set_current_step (current_step o + 1)) ;;
  match logfilename with
  | Some f => open_write f EmptyString
  | None => mret tt
  end ;;
  returncode ← popen_wait cmd;
  emit (Run name cmd logfilename returncode) ;;
  if returncode =? 0 then mret tt
  else raise (Exception ("Failed to update dependencies (see "
                         +:+ log_label logfilename +:+ ")" +:+ String Str.newline EmptyString)).

Definition quoted (s : string) : string :=
  String Str.dquote (s +:+ String Str.dquote EmptyString).

Definition truthy (p : option string) : bool :=
  match p with Some s => Str.nonempty s | None => false end.

(** *** Lines 227-279: the steps of a build *)

Definition mkdirs : M unit :=
  o ← get_obj;
  e ← os_path_exists (virtualenv_dir o);
  if negb e then
    try_except (makedirs (virtualenv_dir o)) any_exception (mret tt)
  else mret tt.

Definition lock_venv_dir : M unit :=
  emit (Call "lock_venv_dir") ;;
  o ← get_obj;
  open_append (lockfilename o) ;;
  with_obj (set_lock_file (Some (lockfilename o))) ;;
  lockf_ex (lockfilename o).

Definition unlock_venv_dir : M unit :=
  emit (Call "unlock_venv_dir") ;;
  o ← get_obj;
  match lock_file o with
  | None => raise TypeError
  | Some f => lockf_un f ;; with_obj (set_lock_file None)
  end.

Definition submodule_update : M unit :=
  o ← get_obj;
  if truthy (submodule_update_path o) then
    try_except
      (call_installer "Updating submodules"
         ("cd " +:+ default EmptyString (submodule_update_path o)
          +:+ " && git submodule update --init")
         (Some (OsPath.join (virtualenv_dir o) "submodules.log")))
      any_exception (mret tt)
  else mret tt.

Definition create_virtualenv : M unit :=
  o ← get_obj;
  call_installer ("Creating venv " +:+ virtualenv_dir o)
    (virtualenv_command o +:+ " --always-copy " +:+ quoted (virtualenv_dir o))
    (Some (OsPath.join (virtualenv_dir o) "venv.log")).

Definition tag_revision : M unit :=
  o ← get_obj;
  call_installer "Recording git revision" "git show HEAD | head -n 3"
    (Some (OsPath.join (virtualenv_dir o) "revision")).

Definition venv_relocatable : M unit :=
  o ← get_obj;
  call_installer "Making venv relocatable"
    (quoted (virtualenv_command o) +:+ " --relocatable --system-site-packages "
     +:+ quoted (virtualenv_dir o))
    (Some (OsPath.join (virtualenv_dir o) "relocatable.log")).

(** *** Lines 281-299: [make_archive], in its two halves *)

Definition archive_name (o : Self) : string :=
  OsPath.join (archive_dir o) (deps_hash o +:+ ".tar.gz").

Definition archive_tmp_name (o : Self) : string :=
  OsPath.join (archive_dir o)
    (deps_hash o +:+ "_" +:+ pretty (randint env) +:+ ".tar.gz").

(** Lines 285-292: the two tests. [Some (tmpdst, dst)] when the archive
    is to be written. *)
Definition make_archive_check : M (option (string * string)) :=
  emit (Call "make_archive") ;;
  o ← get_obj;
  w ← os_access_w (archive_dir o);
  if negb w then mret None
  else
    let tmpdst := archive_tmp_name o in
    let dst := archive_name o in
    e ← os_path_exists dst;
    if e : bool then mret None else mret (Some (tmpdst, dst)).

(** Lines 293-299: pack, fix the mode, rename into place. *)
Definition make_archive_write (tmpdst dst : string) : M unit :=
  o ← get_obj;
  let sp := OsPath.split (virtualenv_dir o) in
  call_installer "Making tar archive"
    ("tar -C " +:+ quoted (fst sp) +:+ " -czf " +:+ quoted tmpdst +:+ " " +:+ snd sp)
    (Some (OsPath.join (virtualenv_dir o) "archive.log")) ;;
  chmod tmpdst ;;
  rename tmpdst dst.

Definition make_archive : M unit :=
  r ← make_archive_check;
  match r with
  | None => mret tt
  | Some (tmpdst, dst) => make_archive_write tmpdst dst
  end.

(** *** Lines 301-325: [pip_install_packages] *)

Definition package_short (package : string) : string :=
  match Re.match_path package with
  | Some g => g
  | None =>
      match Re.search_word package with
      | Some g => g
      | None => package
      end
  end.

Definition pip_logfilename (venv package : string) : string :=
  OsPath.join venv (package_short package +:+ ".out").

Definition pip_cmd (globally : bool) (venv extra package : string) : string :=
  if globally then
    "python pip install " +:+ extra +:+ " --upgrade " +:+ package
  else
    quoted (OsPath.join venv "bin/python") +:+ " " +:+ quoted (venv +:+ "/bin/pip")
    +:+ " --log=" +:+ quoted (OsPath.join venv (package_short package +:+ ".log"))
    +:+ " install " +:+ extra +:+ " " +:+ package.

Fixpoint pip_install_each (globally : bool) (packages : list string) : M unit :=
  match packages with
  | [] => mret tt
  | package :: rest =>
      o ← get_obj;
      call_installer (package_short package)
        (pip_cmd globally (virtualenv_dir o) (pip_extra o) package)
        (Some (pip_logfilename (virtualenv_dir o) package)) ;;
      pip_install_each globally rest
  end.

Definition pip_install_packages (globally : bool) : M unit :=
  with_obj (set_step_prefix "Installing pip package ") ;;
  o ← get_obj;
  pip_install_each globally (requirements o) ;;
  with_obj (set_step_prefix EmptyString).

(** *** Lines 174-203: [update_unsafe], in its three parts *)

(** Lines 179-194: everything that happens in the staging directory. *)
Definition build_staging : M unit :=
  o ← get_obj;
  with_obj (set_total_steps
              (4 + (if truthy (submodule_update_path o) then 1 else 0)
               + Z.of_nat (length (requirements o)))) ;;
  with_obj (set_virtualenv_dir (virtualenv_dir o +:+ ".build")) ;;
  mkdirs ;;
  submodule_update ;;
  create_virtualenv ;;
  tag_revision ;;
  o' ← get_obj;
  open_write (OsPath.join (virtualenv_dir o') "requirements.txt")
    (Str.join (String Str.newline EmptyString) (requirements o')
     +:+ String Str.newline EmptyString) ;;
  pip_install_packages false ;;
  venv_relocatable.

Definition is_ENOENT (e : exn) : bool :=
  match e with OSError ENOENT _ => true | _ => false end.

(** Lines 195-201: the old directory goes, the staging directory takes
    its name. *)
Definition publish_staging (old_venv_dir : string) : M unit :=
  try_except (rmtree old_venv_dir) is_ENOENT (mret tt) ;;
  o ← get_obj;
  rename (virtualenv_dir o) old_venv_dir ;;
  with_obj (set_virtualenv_dir old_venv_dir).

Definition update_unsafe : M unit :=
  emit (Call "update_unsafe") ;;
  o ← get_obj;
  let old_venv_dir := virtualenv_dir o in
  build_staging ;;
  publish_staging old_venv_dir ;;
  make_archive.

(** *** Lines 205-225: [search_for_precompiled_archive] *)

Fixpoint search_archive_in (search_dirs : list string) : M bool :=
  match search_dirs with
  | [] => mret false
  | search_dir :: rest =>
      o ← get_obj;
      let tarfile := OsPath.join search_dir (deps_hash o +:+ ".tar.gz") in
      e ← os_path_exists tarfile;
      if e : bool then
        try_except (makedirs (OsPath.dirname (virtualenv_dir o)))
          is_OSError (mret tt) ;;
        with_obj (set_total_steps 2) ;;
        call_installer
          ("Extracting " +:+ tarfile +:+ " to " +:+ virtualenv_dir o)
          ("tar -C " +:+ quoted (OsPath.dirname (virtualenv_dir o))
           +:+ " -xzf " +:+ quoted tarfile)
          None ;;
        submodule_update ;;
        mret true
      else search_archive_in rest
  end.

Definition search_for_precompiled_archive : M bool :=
  emit (Call "search_for_precompiled_archive") ;;
  o ← get_obj;
  search_archive_in (archive_dir o :: venv_dir_search o).

(** *** Lines 137-172: the entry point *)

Definition venv_lastest_symlink : M unit :=
  o ← get_obj;
  let link_filename := venv_latest_filename o in
  try_except
    (e ← os_path_exists link_filename;
     stale ← (if negb e then mret true
              else same ← samefile link_filename (virtualenv_dir o);
                   mret (negb same));
     if stale : bool then
       try_except (unlink link_filename) is_OSError (mret tt) ;;
       symlink (virtualenv_dir o) link_filename
     else mret tt)
    is_OSError (mret tt).

Definition completed_marker (o : Self) : string :=
  OsPath.join (virtualenv_dir o) ".completed".

(** Lines 161-166: what is done while the lock is held. *)
Definition locked_phase : M unit :=
  o ← get_obj;
  done ← os_path_exists (completed_marker o);
  if negb done then
    found ← search_for_precompiled_archive;
    (if negb found then
       info "deps changed, rebuilding virtualenv (this may take a while)" ;;
       update_unsafe
     else mret tt) ;;
    o' ← get_obj;
    open_write (completed_marker o') (now env)
  else mret tt.

Definition update_if_needed : M unit :=
  venv_lastest_symlink ;;
  o ← get_obj;
  done ← os_path_exists (completed_marker o);
  if done : bool then mret tt
  else
    old_dir ← getcwd;
    chdir (autodeps_dir o) ;;
    lock_venv_dir ;;
    locked_phase ;;
    unlock_venv_dir ;;
    o' ← get_obj;
    try_except (unlink (lockfilename o')) is_OSError (mret tt) ;;
    chdir old_dir.

End Methods.

End Autodeps.

Import Autodeps.

(* ===================================================================== *)
(** ** Definitions used by the statements and the proofs                  *)
(* ===================================================================== *)

(** Reading one character of a [repr] back. *)
Definition unhex (c : ascii) : Z :=
  let n := Str.code c in
  if (48 <=? n) && (n <=? 57) then n - 48 else n - 87.

Definition decode_char (s : string) : option (ascii * string) :=
  match s with
  | EmptyString => None
  | String b rest =>
      if Str.eqc b Str.backslash then
        match rest with
        | EmptyString => None
        | String e rest' =>
            if Str.eqc e "x" then
              match rest' with
              | String h (String l r) => Some (Str.chr (16 * unhex h + unhex l), r)
              | _ => None
              end
            else if Str.eqc e "t" then Some (Str.tab, rest')
            else if Str.eqc e "n" then Some (Str.newline, rest')
            else if Str.eqc e "r" then Some (Str.cr, rest')
            else Some (e, rest')
        end
      else Some (b, rest)
  end.

Definition head_is (q : ascii) (s : string) : bool :=
  match s with
  | String a _ => Str.eqc a q
  | EmptyString => false
  end.

(** What follows the first item of a joined list. *)
Definition items_tail (l : list string) : string :=
  match l with
  | [] => EmptyString
  | _ => ", " +:+ Str.join ", " l
  end.

Fixpoint all_chars (p : ascii -> bool) (s : string) : bool :=
  match s with
  | EmptyString => true
  | String c s' => p c && all_chars p s'
  end.

Definition is_lower_hex (c : ascii) : bool := Str.mem c Str.hexdigits.

(** Two different messages with the same truncated digest. *)
Definition digest_collision (m1 m2 : string) : Prop :=
  m1 <> m2 /\
  String.substring 0 40 (Sha224.hexdigest m1) = String.substring 0 40 (Sha224.hexdigest m2).

Definition example_requirements_txt : string :=
  "foo==1.0" +:+ String Str.newline ("# comment" +:+ String Str.newline
    (String Str.newline ("bar" +:+ String Str.newline EmptyString))).

(** A relative part that keeps a path inside a tree: nothing, or a slash
    and more. *)
Definition subpath (rel : string) : bool :=
  negb (Str.nonempty rel) || Str.startswith "/" rel.

(** The state in which [update_unsafe] starts its work, the call recorded. *)
Definition entered (method : string) (s : State) : State :=
  mkState (obj s) (record (Call method) (world s)).

(** [call_installer] from the point where the command is started. *)
Definition failure_message (logfilename : option string) : string :=
  "Failed to update dependencies (see " +:+ log_label logfilename +:+ ")"
  +:+ String Str.newline EmptyString.

Definition after_run (env : Env) (name cmd : string) (logfilename : option string)
           (s : State) : outcome unit * State :=
  let r := exec env cmd (files (world s)) in
  (if fst r =? 0 then Ok tt else Raise (Exception (failure_message logfilename)),
   mkState (obj s) (record (Run name cmd logfilename (fst r))
                           (set_files (snd r) (world s)))).

Definition stepped (s : State) : State :=
  mkState (set_current_step (current_step (obj s) + 1) (obj s)) (world s).

Definition with_files (fs : gmap string node) (s : State) : State :=
  mkState (obj s) (set_files fs (world s)).

(** External commands keep out of the tree at [final] and do not remove
    the staging directory next to it. *)
Definition commands_spare (env : Env) (final : string) : Prop :=
  (forall cmd fs p, within final p = true -> snd (exec env cmd fs) !! p = fs !! p)
  /\ (forall cmd fs, is_Some (fs !! (final +:+ ".build")) ->
                     is_Some (snd (exec env cmd fs) !! (final +:+ ".build"))).

(** What holds from the creation of the staging directory to the end of
    the work in it; [made] says that the directory came into being. *)
Definition build_inv (final : string) (fs0 : gmap string node)
           (reqs : list string) (made : Prop) (s : State) : Prop :=
  virtualenv_dir (obj s) = final +:+ ".build"
  /\ requirements (obj s) = reqs
  /\ (forall p, within final p = true -> files (world s) !! p = fs0 !! p)
  /\ (made -> is_Some (files (world s) !! (final +:+ ".build"))).

(** *** A small installation used in the examples

    One requirements file, one candidate directory [/venv/h] with its lock
    file already there, an archive directory [/arch]. *)

Definition demo_env (who : nat) (rand : Z)
           (run : string -> gmap string node -> Z * gmap string node) : Env :=
  mkEnv who "2.7.18" run (fun _ => Created) (fun _ => true)
        (fun _ => Some (4096, 1000000)) rand "datetime.datetime(2015, 6, 1, 12, 0)".

Definition demo_obj : Self :=
  mkSelf ["/venv/{deps_hash}"] ["foo==1.0"; "bar"] "h" "/venv/h" "virtualenv"
         "/venv/h.lock" "/arch" "/src/.venv_latest" None EmptyString "/src"
         None EmptyString 0 1.

Definition demo_files : gmap string node :=
  list_to_map [("/", Dir); ("/src", Dir); ("/venv", Dir); ("/arch", Dir);
               ("/home", Dir); ("/venv/h.lock", File EmptyString);
               ("/src/requirements.txt", File example_requirements_txt)].

Definition demo_world : World := mkWorld demo_files ∅ "/home" [].

Definition demo_state : State := mkState demo_obj demo_world.

(** Every command succeeds and leaves the tracked files alone. *)
Definition run_ok (cmd : string) (fs : gmap string node) : Z * gmap string node :=
  (0, fs).

(** As [run_ok], but [pip] exits with status 1. *)
Definition run_pip_fails (cmd : string) (fs : gmap string node)
  : Z * gmap string node :=
  (if Str.startswith (quoted "/venv/h.build/bin/python") cmd then 1 else 0, fs).

(** A property of states that a computation keeps, however it ends. *)
Definition keeps {A} (I : State -> Prop) (m : M A) : Prop :=
  forall s, I s -> I (snd (m s)).

(** The record of one package installation: its own command, its own log
    file named after the token of the declaration. *)
Definition install_event (venv extra package : string) (status : Z) : event :=
  Run (package_short package) (pip_cmd false venv extra package)
      (Some (pip_logfilename venv package)) status.

(** How a run of installations that did not reach the end stopped at
    [package]: the command exited with a non-zero status, or its log file
    could not be opened. *)
Definition stopped_at (venv extra : string) (before : list event)
           (package : string) (e : exn) (after : list event) : Prop :=
  (exists status,
      status <> 0
      /\ e = Exception (failure_message (Some (pip_logfilename venv package)))
      /\ after = (before ++ [install_event venv extra package status])%list)
  \/ (e = IOError EISDIR (pip_logfilename venv package) /\ after = before).

(** Where the token of a declaration comes from: the run of letters and
    hyphens after a slash, or the word of letters that ends the
    declaration after a blank, or else the declaration as it stands. *)
Definition token_of (package token : string) : Prop :=
  (exists pre post,
      package = pre +:+ "/" +:+ token +:+ post
      /\ Str.nonempty token = true
      /\ all_chars Re.is_alpha_hyphen token = true)
  \/ (exists pre rest,
         package = pre +:+ " " +:+ token +:+ rest
         /\ Re.at_dollar rest = true
         /\ Str.nonempty token = true
         /\ all_chars Re.is_alpha token = true)
  \/ token = package.

(** *** DirectorySelector as the specification words it *)

(** The free space, in GiB, of the file system that holds the nearest
    existing ancestor of [path]; [None] when there is none to ask. *)
Definition free_space (env : Env) (fs : gmap string node) (path : string) : option Q :=
  match nearest_existing fs (S (String.length path)) path with
  | None => None
  | Some p =>
      match (if Str.nonempty p then statvfs env p else None) with
      | None => None
      | Some (f_bsize, f_bavail) => Some (Qmake (f_bsize * f_bavail) (2 ^ 30))
      end
  end.

(** The directory can be made now, or another process makes it first. *)
Definition can_be_created (env : Env) (fs : gmap string node) (path : string) : bool :=
  match fs !! path, makedirs_meets env path with
  | None, Created => true
  | None, Raced => true
  | _, _ => false
  end.

Definition viable (env : Env) (fs : gmap string node) (required : Q) (path : string)
  : bool :=
  match free_space env fs path with
  | Some q => Qgtb q required && can_be_created env fs path
  | None => false
  end.

(** What the selector is to answer: the first candidate that exists or has
    its lock file (nothing to create), else the first with enough room that
    can be created (to be created), else nothing. *)
Definition selector_spec (env : Env) (fs : gmap string node) (required : option Q)
           (paths : list string) : option (string * bool) :=
  match find (exists_or_locked fs) paths with
  | Some p => Some (p, false)
  | None =>
      match find (viable env fs (default default_required_gigabytes required)) paths with
      | Some p => Some (p, true)
      | None => None
      end
  end.

(** Two candidates on two file systems, the first one nearly full. *)
Definition two_disks_env : Env :=
  mkEnv 1 "2.7.18" run_ok (fun _ => Created) (fun _ => true)
        (fun p => if String.eqb p "/small" then Some (4096, 1000)
                  else Some (4096, 1000000))
        7 "datetime.datetime(2015, 6, 1, 12, 0)".

Definition two_disks_state : State :=
  mkState demo_obj
          (mkWorld (list_to_map [("/", Dir); ("/small", Dir); ("/big", Dir)])
                   ∅ "/home" []).

(** The part of a state that says who holds which lock. *)
Definition lock_state (L : gmap string nat) (F : option string) (N : string)
           (s : State) : Prop :=
  locks (world s) = L /\ lock_file (obj s) = F /\ lockfilename (obj s) = N.

(** A computation that comes back, with a value or with an [OSError]. *)
Definition fails_softly {A} (m : M A) : Prop :=
  forall s, match fst (m s) with
            | Ok _ => True
            | Raise e => is_OSError e = true
            | Hangs => False
            end.

(** What the bookkeeping leaves alone: the object, the locks, the record
    of events, and every file but the link. *)
Definition link_only (o0 : Self) (w0 : World) (s : State) : Prop :=
  obj s = o0
  /\ locks (world s) = locks w0
  /\ trace (world s) = trace w0
  /\ cwd (world s) = cwd w0
  /\ (forall p, p <> venv_latest_filename o0 -> files (world s) !! p = files w0 !! p).

(** Lines 167-172: what [update_if_needed] does after the locked phase. *)
Definition release_and_return (env : Env) (old_dir : string) : M unit :=
  unlock_venv_dir env ;;
  o' ← get_obj;
  try_except (unlink (lockfilename o')) is_OSError (mret tt) ;;
  chdir old_dir.

(** The command that unpacks the archive of the identity of [o]. *)
Definition extract_cmd (o : Self) : string :=
  "tar -C " +:+ quoted (OsPath.dirname (virtualenv_dir o))
  +:+ " -xzf " +:+ quoted (archive_name o).

Definition extract_name (o : Self) : string :=
  "Extracting " +:+ archive_name o +:+ " to " +:+ virtualenv_dir o.

(** As [run_ok], but unpacking the archive of [demo_obj] exits with
    status 2. *)
Definition run_extract_fails (cmd : string) (fs : gmap string node)
  : Z * gmap string node :=
  (if String.eqb cmd (extract_cmd demo_obj) then 2 else 0, fs).

Definition demo_state_with_archive : State :=
  mkState demo_obj
          (set_files (<["/arch/h.tar.gz" := File "an archive"]> demo_files) demo_world).

(** Two processes that built the same identity in two directories and
    share the archive directory. [tar] writes the temporary file named in
    its command; each process packs its own bytes. *)
Definition packed_by (who : nat) : string :=
  "environment packed by process " +:+ pretty who.

Definition run_tar_writes (who : nat) (tmp : string) (cmd : string)
           (fs : gmap string node) : Z * gmap string node :=
  if Str.startswith "tar -C" cmd then (0, <[tmp := File (packed_by who)]> fs)
  else (0, fs).

Definition publisher_env (who : nat) : Env :=
  demo_env who (Z.of_nat who)
           (run_tar_writes who ("/arch/h_" +:+ pretty (Z.of_nat who) +:+ ".tar.gz")).

Definition publisher_obj (dir : string) : Self :=
  mkSelf ["/venv/{deps_hash}"] ["foo==1.0"; "bar"] "h" dir "virtualenv"
         (dir +:+ ".lock") "/arch" "/src/.venv_latest" None EmptyString "/src"
         None EmptyString 0 1.

Definition built_world : World :=
  mkWorld (<["/venv/h" := Dir]> (<["/scratch/h" := Dir]> demo_files)) ∅ "/src" [].

(** One step of one process on the shared world. *)
Definition as_process {A} (m : M A) (o : Self) (w : World) : outcome A * World :=
  let r := m (mkState o w) in (fst r, world (snd r)).

(** The installation of the examples once its environment is complete. *)
Definition demo_state_completed : State :=
  mkState demo_obj
          (set_files (<["/venv/h/.completed" := File "datetime.datetime(2015, 5, 1, 9, 30)"]>
                        (<["/venv/h" := Dir]> demo_files))
                     demo_world).

(** Line 192: the text of the manifest [requirements.txt]. *)
Definition manifest_text (reqs : list string) : string :=
  Str.join (String Str.newline EmptyString) reqs +:+ String Str.newline EmptyString.

(** A declaration as [__init__] keeps it: not empty, no comment sign, no
    line feed, nothing to strip. *)
Definition clean_declaration (r : string) : Prop :=
  Str.nonempty r = true
  /\ Str.mem "#" r = false
  /\ Str.mem Str.newline r = false
  /\ Str.strip r = r.

(** Each string followed by a line feed. *)
Fixpoint terminated_lines (l : list string) : string :=
  match l with
  | [] => EmptyString
  | x :: l' => x +:+ String Str.newline (terminated_lines l')
  end.

(** Every occurrence of the delimiter [q] in [t] follows a backslash. *)
Definition quote_guarded (q : ascii) (t : string) : Prop :=
  forall x y, t = x +:+ String q y -> exists x', x = x' +:+ String Str.backslash EmptyString.

(** [s] ends with the character [c]. *)
Definition ends_with (c : ascii) (s : string) : Prop :=
  exists x, s = x +:+ String c EmptyString.

(** The text between the brackets of [repr] of a list. *)
Definition repr_items (l : list string) : string :=
  Str.join ", " (map Str.repr l).

(** The command of [submodule_update] (lines 256-258). *)
Definition submodule_command (o : Self) : string :=
  "cd " +:+ default EmptyString (submodule_update_path o)
  +:+ " && git submodule update --init".

(** The files a command of [call_installer] starts from: those of the
    caller, the log file emptied. *)
Definition files_at_start (logfilename : option string) (fs : gmap string node)
  : gmap string node :=
  match logfilename with
  | Some f => <[f := File EmptyString]> fs
  | None => fs
  end.

(** Lines 211-213: the archive of the identity of [o] as it would be
    named in [search_dir], and whether it is there. *)
Definition tarball_in (search_dir : string) (o : Self) : string :=
  OsPath.join search_dir (deps_hash o +:+ ".tar.gz").

Definition has_tarball (fs : gmap string node) (o : Self) (search_dir : string) : bool :=
  path_exists fs (tarball_in search_dir o).

(** Lines 219-222: the unpacking of the archive found in [search_dir]. *)
Definition extract_name_from (search_dir : string) (o : Self) : string :=
  "Extracting " +:+ tarball_in search_dir o +:+ " to " +:+ virtualenv_dir o.

Definition extract_cmd_from (search_dir : string) (o : Self) : string :=
  "tar -C " +:+ quoted (OsPath.dirname (virtualenv_dir o))
  +:+ " -xzf " +:+ quoted (tarball_in search_dir o).

(** Lines 214-225: what the search does at the directory in which it
    finds the archive. *)
Definition restore_from (env : Env) (search_dir : string) : M bool :=
  o ← get_obj;
  try_except (makedirs env (OsPath.dirname (virtualenv_dir o))) is_OSError (mret tt) ;;
  with_obj (set_total_steps 2) ;;
  call_installer env (extract_name_from search_dir o) (extract_cmd_from search_dir o)
                 None ;;
  submodule_update env ;;
  mret true.

(** The record of a submodule update: nothing, or its one command. *)
Definition submodule_events (o : Self) (sub : list event) : Prop :=
  sub = []
  \/ exists status,
      sub = [Run "Updating submodules" (submodule_command o)
                 (Some (OsPath.join (virtualenv_dir o) "submodules.log")) status].

(** Lines 293-297: the command that packs the environment of [o]. *)
Definition archive_cmd (env : Env) (o : Self) : string :=
  "tar -C " +:+ quoted (fst (OsPath.split (virtualenv_dir o)))
  +:+ " -czf " +:+ quoted (archive_tmp_name env o)
  +:+ " " +:+ snd (OsPath.split (virtualenv_dir o)).

Definition archive_log (o : Self) : string :=
  OsPath.join (virtualenv_dir o) "archive.log".

(** A field of the object, or several, has the value [x]. *)
Definition field_state {T} (f : Self -> T) (x : T) (s : State) : Prop :=
  f (obj s) = x.

(** The fields that are set once, by [__init__]. *)
Definition configuration (o : Self) :=
  (venv_dir_search o, requirements o, deps_hash o, virtualenv_command o,
   lockfilename o, archive_dir o, venv_latest_filename o, submodule_update_path o,
   pip_extra o, autodeps_dir o).

(** ** Lines 112-135 and 327-332: the command line, the activation, the
    system-wide installation

    What these methods ask of the host besides [Env]: the name of the user
    ([getpass.getuser]), the name that [tempfile.mkdtemp] picks for a
    suffix, and what running a script does to [os.environ] (the value [None]
    for a script that ends normally, the exception otherwise; what else a
    script may do is left out). *)
Record Host := mkHost {
  getuser : string;
  mkdtemp_name : string -> string;
  run_script : string -> gmap string string -> option exn * gmap string string
}.

(** [tempfile.mkdtemp(suffix)]: the directory is made under the name the
    host picks; a name that is taken stands for the case in which no
    usable name is found. *)
Definition mkdtemp (host : Host) (suffix : string) : M string :=
  fs ← get_files;
  let d := mkdtemp_name host suffix in
  match fs !! d with
  | Some _ => raise (IOError EEXIST d)
  | None => put_files (<[d := Dir]> fs) ;; mret d
  end.

(** Lines 327-332. *)
Definition pip_install_packages_globally (host : Host) (env : Env) : M unit :=
  if negb (String.eqb (getuser host) "root") then raise AssertionError
  else
    o ← get_obj;
    with_obj (set_total_steps (Z.of_nat (length (requirements o)))) ;;
    d ← mkdtemp host "logs";
    with_obj (set_virtualenv_dir d) ;;
    pip_install_packages env true ;;
    o' ← get_obj;
    rmtree (virtualenv_dir o').

(** The options of the command line that [Autodeps.main] reads. *)
Record Args := mkArgs {
  directory : bool;
  archive : bool;
  install_globally : bool
}.

(** Lines 112-123; the value is what is printed, line by line. *)
Definition main (host : Host) (env : Env) (args : Args) : M (list string) :=
  o ← get_obj;
  if directory args then mret [virtualenv_dir o]
  else if archive args then
    mret [OsPath.join (archive_dir o) (deps_hash o +:+ ".tar.gz")]
  else if install_globally args then
    pip_install_packages_globally host env ;; mret []
  else
    update_if_needed env ;; mret [].

(** How an activation ends: [KeyError] is the one exception of these
    lines that [exn] does not have. *)
Inductive failure : Type :=
  | Failed (e : exn)
  | KeyError (key : string).

Inductive activation : Type :=
  | Activated
  | Stopped (f : failure)
  | NeverReturns.

(** Lines 125-135; [activate_this] is the path of the activation script
    and [environ] is [os.environ]. *)
Definition activate (host : Host) (env : Env) (activate_this : string)
           (environ : gmap string string) (s : State)
  : activation * gmap string string * State :=
  match update_if_needed env s with
  | (Raise e, s1) => (Stopped (Failed e), environ, s1)
  | (Hangs, s1) => (NeverReturns, environ, s1)
  | (Ok _, s1) =>
      match environ !! "PATH" with
      | None => (Stopped (KeyError "PATH"), environ, s1)
      | Some saved_path =>
          match open_read activate_this s1 with
          | (Raise e, s2) => (Stopped (Failed e), environ, s2)
          | (Hangs, s2) => (NeverReturns, environ, s2)
          | (Ok code, s2) =>
              match run_script host code environ with
              | (Some e, environ') => (Stopped (Failed e), environ', s2)
              | (None, environ') =>
                  (Activated,
                   <["VENV_DIR" := virtualenv_dir (obj s2)]>
                     (<["PATH" := saved_path]> environ'),
                   s2)
              end
          end
      end
  end.

(** The record of one system-wide installation. *)
Definition global_event (logdir extra package : string) (status : Z) : event :=
  Run (package_short package)
      ("python pip install " +:+ extra +:+ " --upgrade " +:+ package)
      (Some (OsPath.join logdir (package_short package +:+ ".out"))) status.

(** How far a run of system-wide installations got: the declarations
    [pre] were installed, and [tail] records the one that failed, if its
    command was started. *)
Definition installed_up_to (logdir extra : string) (packages : list string)
           (before after : list event) : Prop :=
  exists pre post tail,
    packages = (pre ++ post)%list
    /\ after = (before ++ map (fun p => global_event logdir extra p 0) pre ++ tail)%list
    /\ (tail = []
        \/ exists package rest status,
            post = package :: rest /\ status <> 0
            /\ tail = [global_event logdir extra package status]).

(** A small host for the examples. *)
Definition demo_host (who : string) : Host :=
  mkHost who (fun suffix => "/tmp/tmpAbCdEf" +:+ suffix)
         (fun code environ => (None, <["PATH" := "/venv/h/bin:/usr/bin"]> environ)).

(** How far a build has come: the object has the configuration of [o0],
    points at [d], announces [total] steps and has counted [step] of them,
    and [tr] is the record of calls and commands. *)
Definition progress (o0 : Self) (d : string) (total step : Z) (tr : list event)
           (s : State) : Prop :=
  configuration (obj s) = configuration o0
  /\ virtualenv_dir (obj s) = d
  /\ total_steps (obj s) = total
  /\ current_step (obj s) = step
  /\ trace (world s) = tr.

(** A computation that changes neither the object nor the record. *)
Definition quiet {A} (m : M A) : Prop :=
  forall s, obj (snd (m s)) = obj s /\ trace (world (snd (m s))) = trace (world s).

(** Lines 263-279 and 301-325, in the staging directory [st]: what a
    build records between the submodule update and the publication, every
    command with status 0. *)
Definition staged_events (o : Self) (st : string) : list event :=
  ([Run ("Creating venv " +:+ st)
        (virtualenv_command o +:+ " --always-copy " +:+ quoted st)
        (Some (OsPath.join st "venv.log")) 0;
    Run "Recording git revision" "git show HEAD | head -n 3"
        (Some (OsPath.join st "revision")) 0]
   ++ map (fun p => install_event st (pip_extra o) p 0) (requirements o)
   ++ [Run "Making venv relocatable"
           (quoted (virtualenv_command o) +:+ " --relocatable --system-site-packages "
            +:+ quoted st)
           (Some (OsPath.join st "relocatable.log")) 0])%list.

(** The record of the submodule update of a build in [st]: nothing, or its
    one command with whatever status. *)
Definition staged_submodule_events (o : Self) (st : string) (sub : list event) : Prop :=
  sub = []
  \/ (truthy (submodule_update_path o) = true
      /\ exists status,
          sub = [Run "Updating submodules" (submodule_command o)
                     (Some (OsPath.join st "submodules.log")) status]).

(** The record of [make_archive]: the call, and the packing command when
    the archive was written. *)
Definition archive_events (env : Env) (o : Self) (arch : list event) : Prop :=
  arch = [Call "make_archive"]
  \/ arch = [Call "make_archive";
             Run "Making tar archive" (archive_cmd env o) (Some (archive_log o)) 0].

(** The steps that [update_unsafe] announces (lines 178-179). *)
Definition announced_steps (o : Self) : Z :=
  4 + (if truthy (submodule_update_path o) then 1 else 0)
  + Z.of_nat (length (requirements o)).

(* ===================================================================== *)
(** ** Lemmas and theorems                                                *)
(* ===================================================================== *)

#[local] Arguments String.append !_ _ / : simpl nomatch.
#[local] Arguments Str.eqc : simpl never.

Example sha224_empty :
  Sha224.hexdigest EmptyString
  = "d14a028c2a3a2bc9476102bb288234c415a2b01f828ea62ac5b3e42f".
Proof. vm_compute. reflexivity. Qed.

Example sha224_abc :
  Sha224.hexdigest "abc"
  = "23097d223405d8228642a477bda255b32aadbce4bda0b3f7e36c9da7".
Proof. vm_compute. reflexivity. Qed.

(** ** Strings *)

#[local] Arguments String.append !_ _ / : simpl nomatch.
#[local] Arguments Str.eqc : simpl never.

Lemma append_assoc (a b c : string) : (a +:+ b) +:+ c = a +:+ (b +:+ c).
Proof. induction a as [|x a IH]; simpl; [reflexivity | now rewrite IH]. Qed.

Lemma append_empty_r (a : string) : a +:+ EmptyString = a.
Proof. induction a as [|x a IH]; simpl; [reflexivity | now rewrite IH]. Qed.

Lemma length_append (a b : string) :
  String.length (a +:+ b) = (String.length a + String.length b)%nat.
Proof. induction a as [|x a IH]; simpl; [reflexivity | now rewrite IH]. Qed.

Lemma append_inv_head (a b c : string) : a +:+ b = a +:+ c -> b = c.
Proof. induction a as [|x a IH]; simpl; intros H; [assumption | injection H; auto]. Qed.

Lemma eqc_refl c : Str.eqc c c = true.
Proof. apply Ascii.eqb_refl. Qed.

Lemma eqc_true a b : Str.eqc a b = true <-> a = b.
Proof. apply Ascii.eqb_eq. Qed.

Lemma eqc_false a b : Str.eqc a b = false <-> a <> b.
Proof. apply Ascii.eqb_neq. Qed.

Lemma rev_onto_spec s acc : Str.rev_onto s acc = Str.rev s +:+ acc.
Proof.
  unfold Str.rev. revert acc.
  induction s as [|c s IH]; intros acc; simpl; [reflexivity|].
  rewrite (IH (String c acc)), (IH (String c EmptyString)), append_assoc.
  reflexivity.
Qed.

Lemma rev_cons c s : Str.rev (String c s) = Str.rev s +:+ String c EmptyString.
Proof. unfold Str.rev at 1. simpl. apply rev_onto_spec. Qed.

Lemma rev_app a b : Str.rev (a +:+ b) = Str.rev b +:+ Str.rev a.
Proof.
  induction a as [|c a IH]; simpl.
  - now rewrite append_empty_r.
  - now rewrite !rev_cons, IH, append_assoc.
Qed.

Lemma rev_involutive s : Str.rev (Str.rev s) = s.
Proof.
  induction s as [|c s IH]; [reflexivity|].
  now rewrite rev_cons, rev_app, IH.
Qed.

Lemma mem_app c a b : Str.mem c (a +:+ b) = Str.mem c a || Str.mem c b.
Proof.
  induction a as [|x a IH]; simpl; [reflexivity|].
  now rewrite IH, orb_assoc.
Qed.

Lemma mem_rev c s : Str.mem c (Str.rev s) = Str.mem c s.
Proof.
  induction s as [|x s IH]; [reflexivity|].
  rewrite rev_cons, mem_app, IH. simpl. rewrite orb_false_r. apply orb_comm.
Qed.

Lemma mem_lstrip c s : Str.mem c (Str.lstrip s) = true -> Str.mem c s = true.
Proof.
  induction s as [|x s IH]; simpl; [auto|].
  destruct (Str.isspace x); simpl; [|auto].
  intros H. rewrite (IH H). apply orb_true_r.
Qed.

Lemma mem_strip c s : Str.mem c (Str.strip s) = true -> Str.mem c s = true.
Proof.
  unfold Str.strip, Str.rstrip. rewrite mem_rev. intros H.
  apply mem_lstrip in H. rewrite mem_rev in H. now apply mem_lstrip.
Qed.

Lemma lstrip_head s c t : Str.lstrip s = String c t -> Str.isspace c = false.
Proof.
  induction s as [|x s IH]; simpl; [discriminate|].
  destruct (Str.isspace x) eqn:E; [assumption|].
  intros H. injection H as -> _. exact E.
Qed.

Lemma lstrip_fixed c t : Str.isspace c = false -> Str.lstrip (String c t) = String c t.
Proof. intros H. simpl. now rewrite H. Qed.

Lemma lstrip_snoc s c :
  Str.isspace c = false ->
  Str.lstrip (s +:+ String c EmptyString) = Str.lstrip s +:+ String c EmptyString.
Proof.
  intros H. induction s as [|x s IH]; simpl.
  - now rewrite H.
  - destruct (Str.isspace x); [assumption | reflexivity].
Qed.

Lemma rstrip_head c t :
  Str.isspace c = false ->
  Str.rstrip (String c t) = String c (Str.rstrip t).
Proof.
  intros H. unfold Str.rstrip.
  rewrite rev_cons, (lstrip_snoc _ _ H), rev_app. reflexivity.
Qed.

Lemma lstrip_idem s : Str.lstrip (Str.lstrip s) = Str.lstrip s.
Proof.
  destruct (Str.lstrip s) as [|c t] eqn:E; [reflexivity|].
  apply lstrip_fixed. exact (lstrip_head _ _ _ E).
Qed.

Lemma rstrip_idem s : Str.rstrip (Str.rstrip s) = Str.rstrip s.
Proof. unfold Str.rstrip. now rewrite rev_involutive, lstrip_idem. Qed.

Lemma strip_idem s : Str.strip (Str.strip s) = Str.strip s.
Proof.
  unfold Str.strip.
  destruct (Str.lstrip s) as [|c t] eqn:E; [reflexivity|].
  pose proof (lstrip_head _ _ _ E) as Hc.
  rewrite (rstrip_head _ _ Hc), (lstrip_fixed _ _ Hc), (rstrip_head _ _ Hc).
  now rewrite rstrip_idem.
Qed.

Lemma sub_comment_from_no_hash b s : Str.mem "#" (Re.sub_comment_from b s) = false.
Proof.
  revert b. induction s as [|c s IH]; intros b; simpl; [reflexivity|].
  destruct b.
  - destruct (Str.eqc c Str.newline) eqn:E; [|apply IH].
    cbn [Str.mem]. rewrite IH. apply eqc_true in E. subst c. reflexivity.
  - destruct (Str.eqc c "#") eqn:E; [apply IH|].
    cbn [Str.mem]. rewrite IH, orb_false_r.
    apply eqc_false. intros <-. rewrite eqc_refl in E. discriminate.
Qed.

Lemma requirement_clean (line : string) :
  let r := Str.strip (Re.sub_comment line) in
  Str.mem "#" r = false /\ Str.strip r = r.
Proof.
  split.
  - destruct (Str.mem "#" (Str.strip (Re.sub_comment line))) eqn:E; [|reflexivity].
    apply mem_strip in E. unfold Re.sub_comment in E.
    now rewrite sub_comment_from_no_hash in E.
  - apply strip_idem.
Qed.

Lemma parse_requirements_app (a b : list string) :
  parse_requirements (a ++ b)%list
  = (parse_requirements a ++ parse_requirements b)%list.
Proof.
  unfold parse_requirements. rewrite map_app, concat_app. apply filter_app.
Qed.

Lemma parse_requirements_elem (contents : list string) (r : string) :
  r ∈ parse_requirements contents ->
  r <> EmptyString /\ Str.mem "#" r = false /\ Str.strip r = r.
Proof.
  unfold parse_requirements. rewrite list_elem_of_filter.
  intros [Hne Hin]. split.
  - intros ->. discriminate.
  - apply list_elem_of_In, in_concat in Hin as (l & Hl & Hr).
    apply in_map_iff in Hl as (c & <- & _).
    unfold requirement_lines in Hr.
    apply in_map_iff in Hr as (line & <- & _).
    apply requirement_clean.
Qed.


(** ** The runtime functions on examples *)

Example strip_example : Str.strip ("  a b " +:+ String Str.tab EmptyString) = "a b".
Proof. reflexivity. Qed.

Example readlines_example :
  Str.readlines ("a" +:+ String Str.newline ("b" +:+ String Str.newline "c"))
  = ["a" +:+ String Str.newline EmptyString; "b" +:+ String Str.newline EmptyString; "c"].
Proof. reflexivity. Qed.

Example sub_comment_example :
  map Re.sub_comment ["foo==1.0 # pinned"; "# only a comment"; "bar"]
  = ["foo==1.0 "; EmptyString; "bar"].
Proof. reflexivity. Qed.

Example match_path_example :
  map Re.match_path
      ["git+https://github.com/jansel/opentuner"; "http://x/foo-1.0.tar.gz";
       "a/b/1.0"; "foo==1.0"; "a/-b-c9"]
  = [Some "opentuner"; Some "foo-"; Some "b"; None; Some "-b-c"].
Proof. reflexivity. Qed.

Example search_word_example :
  map Re.search_word ["-e foo bar"; "a b c"; "a b1"; " "; "foo"; "a  b"]
  = [Some "bar"; Some "c"; None; None; None; Some "b"].
Proof. reflexivity. Qed.

Example split_example :
  map OsPath.split ["/a/b"; "/a"; "/"; "a"; "/a/b/"; "//a"; "a//b"]
  = [("/a", "b"); ("/", "a"); ("/", EmptyString); (EmptyString, "a");
     ("/a/b", EmptyString); ("//", "a"); ("a", "b")].
Proof. reflexivity. Qed.

Example join_example :
  (OsPath.join "/a" "b", OsPath.join "/a/" "b", OsPath.join EmptyString "b",
   OsPath.join "/a" "/b")
  = ("/a/b", "/a/b", "b", "/b").
Proof. reflexivity. Qed.

Example repr_list_example :
  Str.repr_list ["foo==1.0"; "bar"] = "['foo==1.0', 'bar']".
Proof. reflexivity. Qed.

(** ** The digest *)

Lemma hexdigit_lower n : is_lower_hex (Str.hexdigit n) = true.
Proof.
  unfold Str.hexdigit. generalize (Z.to_nat n). intros k.
  do 16 (destruct k as [|k]; [reflexivity|]). reflexivity.
Qed.

Lemma hex8_shape w :
  String.length (Sha224.hex8 w) = 8%nat /\ all_chars is_lower_hex (Sha224.hex8 w) = true.
Proof.
  unfold Sha224.hex8. cbn [fold_right String.length all_chars].
  rewrite !hexdigit_lower. split; reflexivity.
Qed.

Lemma all_chars_app p a b :
  all_chars p (a +:+ b) = all_chars p a && all_chars p b.
Proof.
  induction a as [|c a IH]; simpl; [reflexivity|].
  now rewrite IH, andb_assoc.
Qed.

Lemma substring_prefix_length (n : nat) (s : string) :
  (n <= String.length s)%nat -> String.length (String.substring 0 n s) = n.
Proof.
  revert s. induction n as [|n IH]; intros s H.
  - destruct s; reflexivity.
  - destruct s as [|c s]; simpl in *; [lia|]. rewrite IH; [reflexivity | lia].
Qed.

Lemma substring_prefix_chars p (n : nat) (s : string) :
  all_chars p s = true -> all_chars p (String.substring 0 n s) = true.
Proof.
  revert s. induction n as [|n IH]; intros s H.
  - destruct s; reflexivity.
  - destruct s as [|c s]; simpl in *; [reflexivity|].
    apply andb_true_iff in H as [-> H]. now apply IH.
Qed.

Lemma hexdigest_shape s :
  String.length (Sha224.hexdigest s) = 56%nat
  /\ all_chars is_lower_hex (Sha224.hexdigest s) = true.
Proof.
  unfold Sha224.hexdigest. generalize (Sha224.digest_state (Sha224.bytes_of s)).
  intros t. rewrite !length_append, !all_chars_app.
  repeat match goal with
         | |- context [Sha224.hex8 ?w] =>
             let H := fresh in
             destruct (hex8_shape w) as [-> H]; rewrite H; clear H
         end.
  split; reflexivity.
Qed.

(** C10. Whatever the runtime version and the dependency list, the identity
    is forty characters long, each of them one of [0-9a-f]: the first forty
    hex digits of the fifty-six of a SHA-224 digest. The archive name built
    from it, [<identity>.tar.gz], is therefore always forty-seven characters
    long. *)
Theorem deps_hash_forty_lower_hex (version : string) (reqs : list string) :
  String.length (compute_deps_hash version reqs) = 40%nat
  /\ all_chars is_lower_hex (compute_deps_hash version reqs) = true
  /\ compute_deps_hash version reqs
     = String.substring 0 40 (Sha224.hexdigest (version +:+ Str.repr_list reqs))
  /\ String.length (Sha224.hexdigest (version +:+ Str.repr_list reqs)) = 56%nat
  /\ String.length (compute_deps_hash version reqs +:+ ".tar.gz") = 47%nat.
Proof.
  unfold compute_deps_hash, hash_input.
  destruct (hexdigest_shape (version +:+ Str.repr_list reqs)) as [Hlen Hhex].
  assert (Hl : String.length
                 (String.substring 0 40 (Sha224.hexdigest (version +:+ Str.repr_list reqs)))
               = 40%nat)
    by (apply substring_prefix_length; lia).
  split; [exact Hl|].
  split; [now apply substring_prefix_chars|].
  split; [reflexivity|].
  split; [exact Hlen|].
  rewrite length_append, Hl. reflexivity.
Qed.

(** ** [repr] can be read back *)

Lemma decode_repr_char q c rest :
  q = Str.squote \/ q = Str.dquote ->
  decode_char (Str.repr_char q c +:+ rest) = Some (c, rest).
Proof.
  intros [-> | ->];
    destruct c as [[] [] [] [] [] [] [] []]; reflexivity.
Qed.

Lemma repr_char_head q c rest :
  q = Str.squote \/ q = Str.dquote ->
  head_is q (Str.repr_char q c +:+ rest) = false.
Proof.
  intros [-> | ->];
    destruct c as [[] [] [] [] [] [] [] []]; reflexivity.
Qed.

Lemma repr_body_inj q :
  q = Str.squote \/ q = Str.dquote ->
  forall s1 s2 r1 r2,
    Str.repr_body q s1 +:+ String q r1 = Str.repr_body q s2 +:+ String q r2 ->
    s1 = s2 /\ r1 = r2.
Proof.
  intros Hq. induction s1 as [|c1 s1 IH]; intros [|c2 s2] r1 r2 H;
    cbn [Str.repr_body] in H.
  - simpl in H. injection H as ->. auto.
  - rewrite append_assoc in H.
    pose proof (repr_char_head q c2 (Str.repr_body q s2 +:+ String q r2) Hq) as Hh.
    rewrite <- H in Hh. simpl in Hh. rewrite eqc_refl in Hh. discriminate.
  - rewrite append_assoc in H.
    pose proof (repr_char_head q c1 (Str.repr_body q s1 +:+ String q r1) Hq) as Hh.
    rewrite H in Hh. simpl in Hh. rewrite eqc_refl in Hh. discriminate.
  - rewrite !append_assoc in H.
    apply (f_equal decode_char) in H.
    rewrite !decode_repr_char in H by assumption.
    injection H as -> H. apply IH in H as [-> ->]. auto.
Qed.

Lemma repr_quote_cases s :
  Str.repr_quote s = Str.squote \/ Str.repr_quote s = Str.dquote.
Proof. unfold Str.repr_quote. destruct (_ && _); auto. Qed.

Lemma repr_inj_app s1 s2 r1 r2 :
  Str.repr s1 +:+ r1 = Str.repr s2 +:+ r2 -> s1 = s2 /\ r1 = r2.
Proof.
  unfold Str.repr. cbn [String.append]. intros H.
  injection H as Hq H. rewrite <- Hq in H. rewrite !append_assoc in H.
  cbn [String.append] in H.
  apply (repr_body_inj _ (repr_quote_cases s1)) in H. exact H.
Qed.

Lemma join_cons sep x l :
  Str.join sep (x :: l)
  = x +:+ match l with [] => EmptyString | _ => sep +:+ Str.join sep l end.
Proof. destruct l; simpl; [now rewrite append_empty_r | reflexivity]. Qed.

Lemma repr_head_not s rest c :
  c <> Str.squote -> c <> Str.dquote -> Str.repr s +:+ rest <> String c rest.
Proof.
  intros H1 H2 H. unfold Str.repr in H. cbn [String.append] in H.
  injection H as Hq _. destruct (repr_quote_cases s); congruence.
Qed.

Lemma join_repr_inj :
  forall l1 l2 r1 r2,
    Str.join ", " (map Str.repr l1) +:+ String "]" r1
    = Str.join ", " (map Str.repr l2) +:+ String "]" r2 ->
    l1 = l2.
Proof.
  induction l1 as [|x1 l1 IH]; intros [|x2 l2] r1 r2 H.
  - reflexivity.
  - exfalso. cbn [map] in H. rewrite join_cons, append_assoc in H.
    unfold Str.repr in H. cbn [Str.join String.append] in H.
    injection H as Hq _. destruct (repr_quote_cases x2) as [E|E];
      rewrite E in Hq; discriminate.
  - exfalso. cbn [map] in H. rewrite join_cons, append_assoc in H.
    unfold Str.repr in H. cbn [Str.join String.append] in H.
    injection H as Hq _. destruct (repr_quote_cases x1) as [E|E];
      rewrite E in Hq; discriminate.
  - cbn [map] in H. rewrite !join_cons, !append_assoc in H.
    apply repr_inj_app in H as [-> H]. f_equal.
    destruct l1 as [|y1 l1], l2 as [|y2 l2]; cbn [map] in H.
    + reflexivity.
    + discriminate.
    + discriminate.
    + rewrite !append_assoc in H. cbn [String.append] in H.
      injection H as H. exact (IH (y2 :: l2) r1 r2 H).
Qed.

Lemma repr_list_inj l1 l2 : Str.repr_list l1 = Str.repr_list l2 -> l1 = l2.
Proof.
  unfold Str.repr_list. cbn [String.append]. intros H. injection H as H.
  exact (join_repr_inj l1 l2 EmptyString EmptyString H).
Qed.

Lemma hash_input_inj version l1 l2 :
  hash_input version l1 = hash_input version l2 -> l1 = l2.
Proof.
  unfold hash_input. intros H. apply append_inv_head in H.
  now apply repr_list_inj.
Qed.



Example reordering_changes_identity :
  compute_deps_hash "2.7.18" ["foo==1.0"; "bar"]
  <> compute_deps_hash "2.7.18" ["bar"; "foo==1.0"].
Proof. vm_compute. discriminate. Qed.

Example duplicates_are_kept :
  parse_requirements ["a" +:+ String Str.newline ("a" +:+ String Str.newline EmptyString)]
  = ["a"; "a"].
Proof. vm_compute. reflexivity. Qed.

Lemma read_all_one (p c : string) (s : State) :
  files (world s) !! p = Some (File c) ->
  read_all [p] s = (Ok [c], s).
Proof.
  intros H. unfold read_all, open_read, get_files, mbind, M_bind, mret, M_ret.
  unfold max_links. cbn [resolve]. rewrite H. cbn. rewrite H. reflexivity.
Qed.

(** C7. The file with the lines [foo==1.0], [# comment], an empty line
    and [bar] is read as exactly [foo==1.0; bar]. In general every entry of
    the parsed list is non-empty, holds no [#] and has no blank at either
    end; the entries come in the order of the files and of their lines; and
    the identity of the example is a fixed function of the runtime
    version (for 2.7.18 it is 84ab7ca3...). *)
Theorem requirements_parsing :
  parse_requirements [example_requirements_txt] = ["foo==1.0"; "bar"]
  /\ (forall (env : Env) (s : State) (path : string),
         files (world s) !! path = Some (File example_requirements_txt) ->
         init_requirements env [path] s
         = (Ok (["foo==1.0"; "bar"],
                compute_deps_hash (python_version env) ["foo==1.0"; "bar"]), s))
  /\ (forall contents r,
         r ∈ parse_requirements contents ->
         r <> EmptyString /\ Str.mem "#" r = false /\ Str.strip r = r)
  /\ (forall a b,
         parse_requirements (a ++ b)%list
         = (parse_requirements a ++ parse_requirements b)%list)
  /\ (forall version,
         compute_deps_hash version (parse_requirements [example_requirements_txt])
         = compute_deps_hash version ["foo==1.0"; "bar"])
  /\ compute_deps_hash "2.7.18" (parse_requirements [example_requirements_txt])
     = "84ab7ca3ad0e54114b99181164cc25d5b8e13b71".
Proof.
  assert (E : parse_requirements [example_requirements_txt] = ["foo==1.0"; "bar"])
    by (vm_compute; reflexivity).
  split; [exact E|].
  split.
  { intros env s path H. unfold init_requirements, read_requirements.
    unfold mbind, M_bind. rewrite (read_all_one _ _ _ H).
    unfold mret, M_ret. now rewrite E. }
  split; [exact parse_requirements_elem|].
  split; [exact parse_requirements_app|].
  split; [intros version; now rewrite E|].
  rewrite E. vm_compute. reflexivity.
Qed.

(** ** Running computations *)

Lemma bind_unfold {A B} (m : M A) (f : A -> M B) (s : State) :
  (m ≫= f) s
  = match m s with
    | (Ok a, s') => f a s'
    | (Raise e, s') => (Raise e, s')
    | (Hangs, s') => (Hangs, s')
    end.
Proof. reflexivity. Qed.

Lemma bind_get_obj {B} (f : Self -> M B) (s : State) :
  (get_obj ≫= f) s = f (obj s) s.
Proof. reflexivity. Qed.

Lemma bind_get_files {B} (f : gmap string node -> M B) (s : State) :
  (get_files ≫= f) s = f (files (world s)) s.
Proof. reflexivity. Qed.

Lemma bind_get_world {B} (f : World -> M B) (s : State) :
  (get_world ≫= f) s = f (world s) s.
Proof. reflexivity. Qed.

Lemma bind_with_obj {B} (g : Self -> Self) (f : unit -> M B) (s : State) :
  (with_obj g ≫= f) s = f tt (mkState (g (obj s)) (world s)).
Proof. reflexivity. Qed.

Lemma bind_with_world {B} (g : World -> World) (f : unit -> M B) (s : State) :
  (with_world g ≫= f) s = f tt (mkState (obj s) (g (world s))).
Proof. reflexivity. Qed.

Lemma bind_emit {B} (e : event) (f : unit -> M B) (s : State) :
  (emit e ≫= f) s = f tt (mkState (obj s) (record e (world s))).
Proof. reflexivity. Qed.

Lemma bind_os_path_exists {B} (p : string) (f : bool -> M B) (s : State) :
  (os_path_exists p ≫= f) s = f (path_exists (files (world s)) p) s.
Proof. reflexivity. Qed.

Lemma keeps_bind {A B} (I : State -> Prop) (m : M A) (f : A -> M B) :
  keeps I m -> (forall a, keeps I (f a)) -> keeps I (m ≫= f).
Proof.
  intros Hm Hf s Hs. rewrite bind_unfold. specialize (Hm s Hs).
  destruct (m s) as [[a|e|] s1]; cbn [snd] in *; auto. now apply Hf.
Qed.

Lemma keeps_bind_at {A B} (I : State -> Prop) (m : M A) (f : A -> M B) s :
  I (snd (m s)) -> (forall a, keeps I (f a)) -> I (snd ((m ≫= f) s)).
Proof.
  intros Hm Hf. rewrite bind_unfold.
  destruct (m s) as [[a|e|] s1]; cbn [snd] in *; auto. now apply Hf.
Qed.

Lemma keeps_ret {A} (I : State -> Prop) (a : A) : keeps I (mret a).
Proof. intros s Hs. exact Hs. Qed.

Lemma keeps_raise {A} (I : State -> Prop) (e : exn) : keeps I (@raise A e).
Proof. intros s Hs. exact Hs. Qed.

Lemma keeps_try_except {A} (I : State -> Prop) (m h : M A) handles :
  keeps I m -> keeps I h -> keeps I (try_except m handles h).
Proof.
  intros Hm Hh s Hs. unfold try_except. specialize (Hm s Hs).
  destruct (m s) as [[a|e|] s1]; cbn [snd] in *; auto.
  destruct (handles e); cbn [snd]; auto.
Qed.

Lemma keeps_get_obj_bind {B} (I : State -> Prop) (f : Self -> M B) :
  (forall s, I s -> I (snd (f (obj s) s))) -> keeps I (get_obj ≫= f).
Proof. intros H s Hs. rewrite bind_get_obj. now apply H. Qed.

(** ** Paths *)

Lemma startswith_app_same a b c :
  Str.startswith (a +:+ b) (a +:+ c) = Str.startswith b c.
Proof. induction a as [|x a IH]; simpl; [reflexivity|]. now rewrite eqc_refl. Qed.

Lemma startswith_spec p s :
  Str.startswith p s = true <-> exists rest, s = p +:+ rest.
Proof.
  revert s. induction p as [|x p IH]; intros s; simpl.
  - split; eauto.
  - destruct s as [|y s]; simpl.
    + split; [discriminate | intros [r H]; discriminate].
    + rewrite andb_true_iff, eqc_true, IH. split.
      * intros [-> [r ->]]. eauto.
      * intros [r H]. injection H as -> ->. eauto.
Qed.

Lemma string_eqb_app_ne a c b : String.eqb a (a +:+ String c b) = false.
Proof.
  apply String.eqb_neq. intros H.
  apply (f_equal String.length) in H. rewrite length_append in H. simpl in H. lia.
Qed.

Lemma within_spec d p :
  within d p = true <-> exists rel, p = d +:+ rel /\ subpath rel = true.
Proof.
  unfold within, under, subpath. rewrite orb_true_iff, String.eqb_eq, startswith_spec.
  split.
  - intros [<- | [r ->]].
    + exists EmptyString. now rewrite append_empty_r.
    + exists ("/" +:+ r). rewrite append_assoc. auto.
  - intros (rel & -> & H). destruct rel as [|c rel].
    + left. now rewrite append_empty_r.
    + right. simpl in H. apply andb_true_iff in H as [H _].
      apply eqc_true in H. subst c. exists rel. now rewrite append_assoc.
Qed.

Lemma within_app d rel : subpath rel = true -> within d (d +:+ rel) = true.
Proof. intros H. apply within_spec. eauto. Qed.

Lemma within_refl d : within d d = true.
Proof. unfold within. now rewrite String.eqb_refl. Qed.

(** Nothing that starts with [d.build] is inside [d]. *)
Lemma staging_outside d x : within d (d +:+ ".build" +:+ x) = false.
Proof.
  unfold within, under.
  rewrite startswith_app_same. cbn [String.append].
  now rewrite string_eqb_app_ne.
Qed.

Lemma staging_outside' d p :
  within (d +:+ ".build") p = true -> within d p = false.
Proof.
  intros H. apply within_spec in H as (rel & -> & _).
  rewrite append_assoc. apply staging_outside.
Qed.

Lemma endswith_build d : Str.endswith "/" (d +:+ ".build") = false.
Proof. unfold Str.endswith. rewrite rev_app. reflexivity. Qed.

Lemma nonempty_app_r a c b : Str.nonempty (a +:+ String c b) = true.
Proof. destruct a; reflexivity. Qed.

Lemma join_staging d x :
  Str.startswith "/" x = false ->
  OsPath.join (d +:+ ".build") x = d +:+ ".build" +:+ "/" +:+ x.
Proof.
  intros H. unfold OsPath.join. rewrite H, endswith_build.
  rewrite nonempty_app_r. cbn [negb orb]. now rewrite append_assoc.
Qed.

Lemma substring_app_skip a b :
  String.substring (String.length a) (String.length b) (a +:+ b) = b.
Proof.
  induction a as [|x a IH]; simpl; [|exact IH].
  induction b as [|y b IHb]; simpl; [reflexivity | now rewrite IHb].
Qed.

Lemma retarget_app src dst rel : retarget src dst (src +:+ rel) = dst +:+ rel.
Proof.
  unfold retarget. rewrite length_append.
  replace (String.length src + String.length rel - String.length src)%nat
    with (String.length rel) by lia.
  now rewrite substring_app_skip.
Qed.

(** ** Trees of files *)

Lemma remove_tree_lookup d fs p :
  remove_tree d fs !! p = if within d p then None else fs !! p.
Proof.
  unfold remove_tree. destruct (within d p) eqn:E.
  - apply map_lookup_filter_None. right. intros x _. cbn. rewrite E. discriminate.
  - destruct (fs !! p) as [x|] eqn:Ep.
    + apply map_lookup_filter_Some. auto.
    + apply map_lookup_filter_None. auto.
Qed.

Lemma move_tree_lookup src dst fs :
  (forall rel, subpath rel = true ->
     move_tree src dst fs !! (dst +:+ rel)
     = match fs !! (src +:+ rel) with
       | Some n => Some n
       | None => remove_tree src fs !! (dst +:+ rel)
       end)
  /\ (forall q, within dst q = false ->
        move_tree src dst fs !! q = remove_tree src fs !! q).
Proof.
  unfold move_tree. generalize (remove_tree src fs). intros base.
  apply (map_fold_weak_ind
           (fun acc m =>
              (forall rel, subpath rel = true ->
                 acc !! (dst +:+ rel)
                 = match m !! (src +:+ rel) with
                   | Some n => Some n
                   | None => base !! (dst +:+ rel)
                   end)
              /\ (forall q, within dst q = false -> acc !! q = base !! q))).
  - split; [intros rel _; now rewrite lookup_empty | reflexivity].
  - intros i x m r Hi [IH1 IH2]. destruct (within src i) eqn:Ei.
    + apply within_spec in Ei as (ri & -> & Hri). rewrite retarget_app. split.
      * intros rel Hrel. destruct (decide (rel = ri)) as [->|Hne].
        -- now rewrite !lookup_insert_eq.
        -- rewrite !lookup_insert_ne; [now apply IH1 | |];
             intros H; apply append_inv_head in H; congruence.
      * intros q Hq. rewrite lookup_insert_ne; [now apply IH2|].
        intros <-. rewrite within_app in Hq by assumption. discriminate.
    + split; [|exact IH2].
      intros rel Hrel. rewrite lookup_insert_ne; [now apply IH1|].
      intros ->. rewrite within_app in Ei by assumption. discriminate.
Qed.

(** ** [call_installer] in closed form *)

Ltac munfold :=
  unfold os_path_exists, put_files, emit;
  unfold mbind, M_bind, mret, M_ret, get_obj, get_files, get_world, with_obj,
    with_world, raise, hang;
  cbn [fst snd obj world].

Lemma call_installer_eq env name cmd logfilename s :
  call_installer env name cmd logfilename s
  = match logfilename with
    | Some f =>
        match files (world s) !! f with
        | Some Dir => (Raise (IOError EISDIR f), stepped s)
        | _ => after_run env name cmd logfilename
                 (with_files (<[f := File EmptyString]> (files (world s))) (stepped s))
        end
    | None => after_run env name cmd logfilename (stepped s)
    end.
Proof.
  unfold call_installer, open_write, popen_wait, after_run, failure_message,
    stepped, with_files.
  destruct logfilename as [f|]; munfold.
  - destruct (files (world s) !! f) as [[| |]|] eqn:E; try reflexivity;
      cbn [files set_files fst snd obj world];
      destruct (fst (exec env cmd _) =? 0); reflexivity.
  - destruct (fst (exec env cmd _) =? 0); reflexivity.
Qed.

Lemma call_installer_keeps env final fs0 reqs made name cmd f :
  commands_spare env final ->
  within final f = false ->
  f <> final +:+ ".build" ->
  keeps (build_inv final fs0 reqs made) (call_installer env name cmd (Some f)).
Proof.
  intros [Hx1 Hx2] Hf Hne s (Hv & Hr & Hu & Hs).
  rewrite call_installer_eq.
  assert (Hstep : build_inv final fs0 reqs made (stepped s)) by (repeat split; assumption).
  assert (Hrun : build_inv final fs0 reqs made
                   (snd (after_run env name cmd (Some f)
                           (with_files (<[f := File EmptyString]> (files (world s)))
                                       (stepped s))))).
  { unfold after_run, with_files, stepped, build_inv.
    cbn [fst snd obj world files set_files record virtualenv_dir requirements
           set_current_step].
    split; [assumption|]. split; [assumption|]. split.
    - intros p Hp. rewrite Hx1 by assumption. rewrite lookup_insert_ne; [auto|].
      intros E. rewrite <- E in Hp. congruence.
    - intros Hm. apply Hx2. rewrite lookup_insert_ne; [exact (Hs Hm) | exact Hne]. }
  destruct (files (world s) !! f) as [[| |]|]; assumption.
Qed.

(** ** The package token *)

Lemma take_while_head p s :
  Str.nonempty (Re.take_while p s) = true ->
  exists c t, Re.take_while p s = String c t /\ p c = true.
Proof.
  destruct s as [|c s]; simpl; [discriminate|].
  destruct (p c) eqn:E; [eauto | discriminate].
Qed.

Lemma match_path_from_head s :
  forall best g,
    Re.match_path_from s best = Some g ->
    best = Some g \/ exists c t, g = String c t /\ Re.is_alpha_hyphen c = true.
Proof.
  induction s as [|x s IH]; intros best g; cbn [Re.match_path_from]; [auto|].
  destruct (Str.eqc x Str.newline); [auto|].
  destruct (Str.eqc x "/"); [|apply IH].
  destruct (Str.nonempty (Re.take_while Re.is_alpha_hyphen s)) eqn:E; [|apply IH].
  intros H. apply IH in H as [H|H]; [|auto].
  injection H as <-. right.
  destruct (take_while_head _ _ E) as (c & t & -> & Hc). eauto.
Qed.

Lemma search_word_head s g :
  Re.search_word s = Some g ->
  exists c t, g = String c t /\ Re.is_alpha c = true.
Proof.
  induction s as [|x s IH]; cbn [Re.search_word]; [discriminate|].
  destruct (Str.eqc x " "); [|exact IH].
  destruct (Str.nonempty (Re.take_while Re.is_alpha s)) eqn:E; cbn [andb]; [|exact IH].
  destruct (Re.at_dollar _); [|exact IH].
  intros H. injection H as <-.
  destruct (take_while_head _ _ E) as (c & t & -> & Hc). eauto.
Qed.

Lemma alpha_hyphen_not_slash c t :
  Re.is_alpha_hyphen c = true -> Str.startswith "/" (String c t) = false.
Proof.
  intros H. cbn [Str.startswith]. destruct (Str.eqc "/" c) eqn:E; [|reflexivity].
  apply eqc_true in E. subst c. discriminate.
Qed.

Lemma package_short_head package :
  Str.startswith "/" package = false ->
  Str.startswith "/" (package_short package) = false.
Proof.
  intros H. unfold package_short, Re.match_path.
  destruct (Re.match_path_from package None) as [g|] eqn:E1.
  - apply match_path_from_head in E1 as [E1 | (c & t & -> & Hc)]; [discriminate|].
    now apply alpha_hyphen_not_slash.
  - destruct (Re.search_word package) as [g|] eqn:E2; [|exact H].
    apply search_word_head in E2 as (c & t & -> & Hc).
    apply alpha_hyphen_not_slash. unfold Re.is_alpha_hyphen. now rewrite Hc.
Qed.

Lemma startswith_slash_app a b :
  Str.startswith "/" a = false -> Str.startswith "/" b = false ->
  Str.startswith "/" (a +:+ b) = false.
Proof. destruct a as [|c a]; simpl; auto. Qed.

Lemma staging_file_outside d x :
  Str.startswith "/" x = false ->
  within d (OsPath.join (d +:+ ".build") x) = false
  /\ OsPath.join (d +:+ ".build") x <> d +:+ ".build".
Proof.
  intros H. rewrite (join_staging _ _ H). split.
  - apply staging_outside.
  - intros E. apply append_inv_head in E. discriminate.
Qed.

(** ** The steps in the staging directory keep the invariant *)

Section Staging.

Variable env : Env.
Variable final : string.
Variable fs0 : gmap string node.
Variable reqs : list string.
Variable made : Prop.
Hypothesis Hspare : commands_spare env final.

Lemma create_virtualenv_keeps : keeps (build_inv final fs0 reqs made) (create_virtualenv env).
Proof.
  intros s Hs. unfold create_virtualenv. rewrite bind_get_obj.
  pose proof Hs as (Hv & _).
  destruct (staging_file_outside final "venv.log" eq_refl) as [H1 H2].
  rewrite Hv. now apply call_installer_keeps.
Qed.

Lemma tag_revision_keeps : keeps (build_inv final fs0 reqs made) (tag_revision env).
Proof.
  intros s Hs. unfold tag_revision. rewrite bind_get_obj.
  pose proof Hs as (Hv & _).
  destruct (staging_file_outside final "revision" eq_refl) as [H1 H2].
  rewrite Hv. now apply call_installer_keeps.
Qed.

Lemma venv_relocatable_keeps : keeps (build_inv final fs0 reqs made) (venv_relocatable env).
Proof.
  intros s Hs. unfold venv_relocatable. rewrite bind_get_obj.
  pose proof Hs as (Hv & _).
  destruct (staging_file_outside final "relocatable.log" eq_refl) as [H1 H2].
  rewrite Hv. now apply call_installer_keeps.
Qed.

Lemma submodule_update_keeps : keeps (build_inv final fs0 reqs made) (submodule_update env).
Proof.
  intros s Hs. unfold submodule_update. rewrite bind_get_obj.
  destruct (truthy _); [|exact Hs].
  apply keeps_try_except; [| apply keeps_ret | exact Hs].
  pose proof Hs as (Hv & _).
  destruct (staging_file_outside final "submodules.log" eq_refl) as [H1 H2].
  rewrite Hv. now apply call_installer_keeps.
Qed.

Lemma pip_install_each_keeps packages :
  Forall (fun r => Str.startswith "/" (package_short r) = false) packages ->
  keeps (build_inv final fs0 reqs made) (pip_install_each env false packages).
Proof.
  induction 1 as [|package rest Hp _ IH]; cbn [pip_install_each].
  - apply keeps_ret.
  - apply keeps_get_obj_bind. intros s Hs.
    apply keeps_bind_at; [|intros _; exact IH].
    pose proof Hs as (Hv & _). unfold pip_logfilename.
    assert (Hx : Str.startswith "/" (package_short package +:+ ".out") = false)
      by (apply startswith_slash_app; [exact Hp | reflexivity]).
    destruct (staging_file_outside final _ Hx) as [H1 H2].
    rewrite Hv. now apply call_installer_keeps.
Qed.

Lemma with_obj_keeps (g : Self -> Self) :
  (forall o, virtualenv_dir (g o) = virtualenv_dir o) ->
  (forall o, requirements (g o) = requirements o) ->
  keeps (build_inv final fs0 reqs made) (with_obj g).
Proof.
  intros Hg1 Hg2 s (Hv & Hr & Hu & Hs). unfold with_obj. cbn [snd].
  unfold build_inv. cbn [obj world]. rewrite Hg1, Hg2. auto.
Qed.

Lemma pip_install_packages_keeps :
  Forall (fun r => Str.startswith "/" (package_short r) = false) reqs ->
  keeps (build_inv final fs0 reqs made) (pip_install_packages env false).
Proof.
  intros Hreqs. unfold pip_install_packages.
  apply keeps_bind; [now apply with_obj_keeps | intros _].
  apply keeps_get_obj_bind. intros s Hs. pose proof Hs as (_ & Hr & _).
  apply keeps_bind_at; [|intros _; now apply with_obj_keeps].
  rewrite Hr. now apply pip_install_each_keeps.
Qed.

Lemma requirements_txt_keeps content :
  forall s, (build_inv final fs0 reqs made) s ->
    (build_inv final fs0 reqs made) (snd (open_write (OsPath.join (virtualenv_dir (obj s)) "requirements.txt")
              content s)).
Proof.
  intros s Hs. pose proof Hs as (Hv & Hr & Hu & Hp).
  destruct (staging_file_outside final "requirements.txt" eq_refl) as [H1 H2].
  rewrite Hv. unfold open_write. rewrite bind_get_files.
  destruct (files (world s) !! OsPath.join _ _) as [[| |]|]; try exact Hs;
    (unfold put_files, with_world; cbn [snd];
     split; [exact Hv|]; split; [exact Hr|]; cbn [world files set_files]; split;
     [ intros p Hp'; rewrite lookup_insert_ne;
       [auto | intros E; rewrite <- E in Hp'; congruence]
     | intros Hm; rewrite lookup_insert_ne; [exact (Hp Hm) | exact H2] ]).
Qed.

(** [mkdirs] brings the staging directory into being, unless the
    creation is denied. *)
Lemma mkdirs_establishes s :
  virtualenv_dir (obj s) = final +:+ ".build" ->
  requirements (obj s) = reqs ->
  (forall p, within final p = true -> files (world s) !! p = fs0 !! p) ->
  build_inv final fs0 reqs (makedirs_meets env (final +:+ ".build") <> Denied)
            (snd (mkdirs env s)).
Proof.
  intros Hv Hr Hu. unfold mkdirs. rewrite bind_get_obj, bind_os_path_exists.
  rewrite Hv. unfold build_inv.
  assert (Hout : within final (final +:+ ".build") = false).
  { rewrite <- (append_empty_r (final +:+ ".build")), append_assoc.
    apply staging_outside. }
  destruct (path_exists (files (world s)) (final +:+ ".build")) eqn:E; cbn [negb].
  - cbn [snd mret M_ret]. repeat (split; [assumption|]). intros _.
    unfold path_exists, max_links in E. cbn [resolve] in E.
    destruct (files (world s) !! (final +:+ ".build")); [eauto | discriminate].
  - unfold try_except, makedirs. rewrite bind_get_files.
    destruct (files (world s) !! (final +:+ ".build")) as [n|] eqn:En.
    + cbn. repeat (split; [assumption|]). intros _. rewrite En. eauto.
    + assert (Hins : forall p, within final p = true ->
                <[final +:+ ".build" := Dir]> (files (world s)) !! p = fs0 !! p).
      { intros p Hp. rewrite lookup_insert_ne; [auto|].
        intros Ep. rewrite <- Ep in Hp. congruence. }
      destruct (makedirs_meets env (final +:+ ".build"));
        munfold; cbn [snd files set_files world obj any_exception];
        (split; [exact Hv|]; split; [exact Hr|]).
      * split; [exact Hins|]. intros _. rewrite lookup_insert_eq. eauto.
      * split; [exact Hu|]. intros Hm. congruence.
      * split; [exact Hins|]. intros _. rewrite lookup_insert_eq. eauto.
Qed.

End Staging.

Lemma staging_not_within d : within d (d +:+ ".build") = false.
Proof.
  rewrite <- (append_empty_r (d +:+ ".build")), append_assoc.
  apply staging_outside.
Qed.

Lemma staging_rel_not_within d rel : within d ((d +:+ ".build") +:+ rel) = false.
Proof. rewrite append_assoc. apply staging_outside. Qed.

(** Lines 179-194 as a whole. *)
Lemma build_staging_inv (env : Env) (s : State) :
  commands_spare env (virtualenv_dir (obj s)) ->
  Forall (fun r => Str.startswith "/" (package_short r) = false) (requirements (obj s)) ->
  build_inv (virtualenv_dir (obj s)) (files (world s)) (requirements (obj s))
            (makedirs_meets env (virtualenv_dir (obj s) +:+ ".build") <> Denied)
            (snd (build_staging env s)).
Proof.
  intros Hspare Hreqs. unfold build_staging.
  rewrite bind_get_obj, !bind_with_obj.
  set (final := virtualenv_dir (obj s)) in *.
  set (reqs := requirements (obj s)) in *.
  set (fs0 := files (world s)).
  apply keeps_bind_at.
  { apply mkdirs_establishes; reflexivity. }
  intros _.
  apply keeps_bind; [now apply submodule_update_keeps | intros _].
  apply keeps_bind; [now apply create_virtualenv_keeps | intros _].
  apply keeps_bind; [now apply tag_revision_keeps | intros _].
  apply keeps_get_obj_bind. intros s1 Hs1.
  apply keeps_bind_at; [now apply requirements_txt_keeps | intros _].
  apply keeps_bind; [now apply pip_install_packages_keeps | intros _].
  now apply venv_relocatable_keeps.
Qed.

(** Lines 195-201, when they go through. *)
Lemma publish_staging_ok (final : string) (s1 : State) :
  virtualenv_dir (obj s1) = final +:+ ".build" ->
  fst (publish_staging final s1) = Ok tt ->
  let f1 := files (world s1) in
  let f2 := files (world (snd (publish_staging final s1))) in
  is_Some (f1 !! (final +:+ ".build"))
  /\ f2 !! final = f1 !! (final +:+ ".build")
  /\ (forall rel n, Str.startswith "/" rel = true ->
        f1 !! ((final +:+ ".build") +:+ rel) = Some n ->
        f2 !! (final +:+ rel) = Some n)
  /\ (f1 !! final = Some Dir ->
      forall rel, Str.startswith "/" rel = true ->
        f2 !! (final +:+ rel) = f1 !! ((final +:+ ".build") +:+ rel))
  /\ (forall p, within (final +:+ ".build") p = true -> f2 !! p = None)
  /\ virtualenv_dir (obj (snd (publish_staging final s1))) = final.
Proof.
  intros Hv. unfold publish_staging.
  rewrite bind_unfold. unfold try_except, rmtree. rewrite bind_get_files.
  (* the files once the old directory is out of the way *)
  assert (Hmove : forall fsX,
    fsX !! final = None ->
    (forall q, within final q = false -> fsX !! q = files (world s1) !! q) ->
    (files (world s1) !! final = Some Dir ->
       forall q, within final q = true -> fsX !! q = None) ->
    let r := (get_obj ≫= fun o => rename (virtualenv_dir o) final ;;
                                  with_obj (set_virtualenv_dir final))
               (with_files fsX s1) in
    fst r = Ok tt ->
    is_Some (files (world s1) !! (final +:+ ".build"))
    /\ files (world (snd r)) !! final = files (world s1) !! (final +:+ ".build")
    /\ (forall rel n, Str.startswith "/" rel = true ->
          files (world s1) !! ((final +:+ ".build") +:+ rel) = Some n ->
          files (world (snd r)) !! (final +:+ rel) = Some n)
    /\ (files (world s1) !! final = Some Dir ->
        forall rel, Str.startswith "/" rel = true ->
          files (world (snd r)) !! (final +:+ rel)
          = files (world s1) !! ((final +:+ ".build") +:+ rel))
    /\ (forall p, within (final +:+ ".build") p = true ->
          files (world (snd r)) !! p = None)
    /\ virtualenv_dir (obj (snd r)) = final).
  { intros fsX Hfin Hout Hclean r. subst r.
    rewrite bind_get_obj. cbn [with_files obj]. rewrite Hv.
    rewrite bind_unfold. unfold rename. rewrite bind_get_files.
    cbn [with_files world files set_files].
    rewrite Hfin, (Hout _ (staging_not_within final)).
    destruct (files (world s1) !! (final +:+ ".build")) as [n|] eqn:En;
      [|cbn; discriminate].
    assert (Hgo : forall k : M unit,
              (match n with Dir => k | _ => k end) = k) by (destruct n; reflexivity).
    replace (match n with
             | Dir => put_files (move_tree (final +:+ ".build") final fsX)
             | _ => put_files (move_tree (final +:+ ".build") final fsX)
             end) with (put_files (move_tree (final +:+ ".build") final fsX))
      by (destruct n; reflexivity).
    clear Hgo. munfold. cbn [fst snd obj world files set_files virtualenv_dir
                               set_virtualenv_dir].
    intros _.
    destruct (move_tree_lookup (final +:+ ".build") final fsX) as [M1 M2].
    split; [eauto|]. split.
    { specialize (M1 EmptyString eq_refl). rewrite !append_empty_r in M1.
      rewrite M1, (Hout _ (staging_not_within final)), En. reflexivity. }
    split.
    { intros rel m Hrel Hm. rewrite M1 by (unfold subpath; now rewrite Hrel, orb_true_r).
      now rewrite (Hout _ (staging_rel_not_within final rel)), Hm. }
    split.
    { intros Hdir rel Hrel.
      rewrite M1 by (unfold subpath; now rewrite Hrel, orb_true_r).
      rewrite (Hout _ (staging_rel_not_within final rel)).
      destruct (files (world s1) !! ((final +:+ ".build") +:+ rel)); [reflexivity|].
      rewrite remove_tree_lookup.
      destruct (within (final +:+ ".build") (final +:+ rel)); [reflexivity|].
      apply Hclean; [exact Hdir|]. apply within_app.
      unfold subpath. now rewrite Hrel, orb_true_r. }
    split; [|reflexivity].
    intros p Hp. rewrite M2 by (now apply staging_outside').
    rewrite remove_tree_lookup, Hp. reflexivity. }
  destruct (files (world s1) !! final) as [[| |]|] eqn:Ef.
  - (* a directory: removed with all it holds *)
    munfold. intros Hok.
    apply (Hmove (remove_tree final (files (world s1)))); [| | |exact Hok].
    + rewrite remove_tree_lookup, within_refl. reflexivity.
    + intros q Hq. rewrite remove_tree_lookup, Hq. reflexivity.
    + intros _ q Hq. rewrite remove_tree_lookup, Hq. reflexivity.
  - cbn. discriminate.
  - cbn. discriminate.
  - (* nothing there: ENOENT is swallowed *)
    munfold. cbn [is_ENOENT]. intros Hok.
    assert (Hsame : with_files (files (world s1)) s1 = s1)
      by (destruct s1 as [o [? ? ? ?]]; reflexivity).
    pose proof (Hmove (files (world s1)) Ef (fun _ _ => eq_refl)) as H.
    rewrite Hsame in H. apply H; [|exact Hok].
    intros Hdir. rewrite Hdir in Ef. discriminate.
Qed.

Lemma update_unsafe_unfold env s :
  update_unsafe env s
  = (build_staging env ;; publish_staging (virtualenv_dir (obj s)) ;; make_archive env)
      (entered "update_unsafe" s).
Proof. reflexivity. Qed.



(** ** The token of a declaration *)

Lemma take_drop_while p s : s = Re.take_while p s +:+ Re.drop_while p s.
Proof.
  induction s as [|c s IH]; cbn [Re.take_while Re.drop_while]; [reflexivity|].
  destruct (p c); [|reflexivity]. cbn [String.append]. now rewrite <- IH.
Qed.

Lemma take_while_all p s : all_chars p (Re.take_while p s) = true.
Proof.
  induction s as [|c s IH]; cbn [Re.take_while all_chars]; [reflexivity|].
  destruct (p c) eqn:E; [|reflexivity]. cbn [all_chars]. now rewrite E, IH.
Qed.

Lemma match_path_from_shape s :
  forall best g,
    Re.match_path_from s best = Some g ->
    best = Some g
    \/ exists pre post,
        s = pre +:+ "/" +:+ g +:+ post
        /\ Str.nonempty g = true
        /\ all_chars Re.is_alpha_hyphen g = true.
Proof.
  induction s as [|c s IH]; intros best g; cbn [Re.match_path_from]; [auto|].
  destruct (Str.eqc c Str.newline); [auto|].
  assert (Hlift : (exists pre post,
                      s = pre +:+ "/" +:+ g +:+ post
                      /\ Str.nonempty g = true
                      /\ all_chars Re.is_alpha_hyphen g = true) ->
                  exists pre post,
                    String c s = pre +:+ "/" +:+ g +:+ post
                    /\ Str.nonempty g = true
                    /\ all_chars Re.is_alpha_hyphen g = true).
  { intros (pre & post & -> & H1 & H2). exists (String c pre), post. auto. }
  destruct (Str.eqc c "/") eqn:Ec.
  - destruct (Str.nonempty (Re.take_while Re.is_alpha_hyphen s)) eqn:En.
    + intros H. apply IH in H as [H|H]; [|right; auto].
      injection H as <-. right. apply eqc_true in Ec. subst c.
      exists EmptyString, (Re.drop_while Re.is_alpha_hyphen s).
      split; [|split; [exact En | apply take_while_all]].
      cbn [String.append]. f_equal. apply take_drop_while.
    + intros H. apply IH in H as [H|H]; [left; exact H | right; auto].
  - intros H. apply IH in H as [H|H]; [left; exact H | right; auto].
Qed.

Lemma search_word_shape s g :
  Re.search_word s = Some g ->
  exists pre rest,
    s = pre +:+ " " +:+ g +:+ rest
    /\ Re.at_dollar rest = true
    /\ Str.nonempty g = true
    /\ all_chars Re.is_alpha g = true.
Proof.
  induction s as [|c s IH]; cbn [Re.search_word]; [discriminate|].
  assert (Hlift : Re.search_word s = Some g ->
                  exists pre rest,
                    String c s = pre +:+ " " +:+ g +:+ rest
                    /\ Re.at_dollar rest = true
                    /\ Str.nonempty g = true
                    /\ all_chars Re.is_alpha g = true).
  { intros H. destruct (IH H) as (pre & rest & -> & H1 & H2 & H3).
    exists (String c pre), rest. auto. }
  destruct (Str.eqc c " ") eqn:Ec; [|exact Hlift].
  destruct (Str.nonempty (Re.take_while Re.is_alpha s)) eqn:En; cbn [andb];
    [|exact Hlift].
  destruct (Re.at_dollar (Re.drop_while Re.is_alpha s)) eqn:Ed; [|exact Hlift].
  intros H. injection H as <-. apply eqc_true in Ec. subst c.
  exists EmptyString, (Re.drop_while Re.is_alpha s).
  split; [|split; [exact Ed | split; [exact En | apply take_while_all]]].
  cbn [String.append]. f_equal. apply take_drop_while.
Qed.

Lemma package_short_token package : token_of package (package_short package).
Proof.
  unfold package_short, Re.match_path, token_of.
  destruct (Re.match_path_from package None) as [g|] eqn:E1.
  - apply match_path_from_shape in E1 as [E1|E1]; [discriminate | left; exact E1].
  - destruct (Re.search_word package) as [g|] eqn:E2; [|right; right; reflexivity].
    right. left. now apply search_word_shape.
Qed.

(** ** Package installation *)

Lemma pip_install_each_trace env packages :
  forall s,
    let venv := virtualenv_dir (obj s) in
    let extra := pip_extra (obj s) in
    let r := pip_install_each env false packages s in
    virtualenv_dir (obj (snd r)) = venv
    /\ pip_extra (obj (snd r)) = extra
    /\ requirements (obj (snd r)) = requirements (obj s)
    /\ match fst r with
       | Ok _ =>
           trace (world (snd r))
           = (trace (world s) ++ map (fun p => install_event venv extra p 0) packages)%list
       | Raise e =>
           exists pre package post,
             packages = (pre ++ package :: post)%list
             /\ stopped_at venv extra
                  (trace (world s) ++ map (fun p => install_event venv extra p 0) pre)%list
                  package e (trace (world (snd r)))
       | Hangs => False
       end.
Proof.
  induction packages as [|package rest IH]; intros s venv extra r.
  - subst r. cbn. rewrite app_nil_r. auto.
  - subst r. cbn [pip_install_each]. rewrite bind_get_obj, bind_unfold.
    rewrite call_installer_eq. fold venv. fold extra.
    set (run := after_run env (package_short package)
                  (pip_cmd false venv extra package)
                  (Some (pip_logfilename venv package))
                  (with_files (<[pip_logfilename venv package := File EmptyString]>
                                 (files (world s))) (stepped s))).
    assert (Hrun :
      let r := match fst run with
               | Ok a => (fun _ : unit => pip_install_each env false rest) a (snd run)
               | Raise e => (Raise e, snd run)
               | Hangs => (Hangs, snd run)
               end in
      virtualenv_dir (obj (snd r)) = venv
      /\ pip_extra (obj (snd r)) = extra
      /\ requirements (obj (snd r)) = requirements (obj s)
      /\ match fst r with
         | Ok _ =>
             trace (world (snd r))
             = (trace (world s)
                ++ map (fun p => install_event venv extra p 0) (package :: rest))%list
         | Raise e =>
             exists pre package' post,
               (package :: rest) = (pre ++ package' :: post)%list
               /\ stopped_at venv extra
                    (trace (world s) ++ map (fun p => install_event venv extra p 0) pre)%list
                    package' e (trace (world (snd r)))
         | Hangs => False
         end).
    { subst run. unfold after_run.
      set (x := exec env _ _). cbn [fst snd].
      destruct (fst x =? 0) eqn:Ez.
      - apply Z.eqb_eq in Ez.
        match goal with |- context [pip_install_each env false rest ?s1] =>
          specialize (IH s1); set (s1' := s1) in * end.
        cbv zeta in IH. destruct IH as (Hv & Hx & Hq & IH).
        change (virtualenv_dir (obj s1')) with venv in *.
        change (pip_extra (obj s1')) with extra in *.
        change (requirements (obj s1')) with (requirements (obj s)) in *.
        change (trace (world s1'))
          with (trace (world s)
                ++ [Run (package_short package) (pip_cmd false venv extra package)
                        (Some (pip_logfilename venv package)) (fst x)])%list in IH.
        rewrite Ez in IH.
        split; [exact Hv|]. split; [exact Hx|]. split; [exact Hq|].
        destruct (fst (pip_install_each env false rest s1')) as [[]|e|].
        + rewrite IH. rewrite <- app_assoc. reflexivity.
        + destruct IH as (pre & p' & post & -> & Hstop).
          exists (package :: pre), p', post. split; [reflexivity|].
          cbn [map]. rewrite <- app_assoc in Hstop. exact Hstop.
        + exact IH.
      - apply Z.eqb_neq in Ez. cbn [fst snd obj world with_files stepped].
        split; [reflexivity|]. split; [reflexivity|]. split; [reflexivity|].
        exists [], package, rest. split; [reflexivity|].
        left. exists (fst x). split; [exact Ez|]. split; [reflexivity|].
        cbn [map]. rewrite app_nil_r. reflexivity. }
    destruct (files (world s) !! pip_logfilename venv package) as [[| |]|];
      try (destruct run as [[[]|e|] s1]; exact Hrun).
    cbn [fst snd]. split; [reflexivity|]. split; [reflexivity|]. split; [reflexivity|].
    exists [], package, rest. split; [reflexivity|].
    right. split; [reflexivity|]. cbn [map]. now rewrite app_nil_r.
Qed.


Example package_tokens :
  map package_short
      ["git+https://github.com/jansel/opentuner"; "http://x/foo-1.0.tar.gz";
       "-e foo bar"; "foo==1.0"]
  = ["opentuner"; "foo-"; "bar"; "foo==1.0"].
Proof. vm_compute. reflexivity. Qed.

(** ** The search for the environment directory *)

Lemma freespace_gb_defined env path s q :
  free_space env (files (world s)) path = Some q ->
  freespace_gb env path s = (Ok q, s).
Proof.
  unfold free_space, freespace_gb. rewrite bind_get_files.
  destruct (nearest_existing _ _ _) as [p|]; [|discriminate].
  destruct (if Str.nonempty p then statvfs env p else None) as [[b a]|]; [|discriminate].
  intros H. injection H as <-. reflexivity.
Qed.

Lemma first_existing_find fs paths :
  first_existing fs paths = find (exists_or_locked fs) paths.
Proof.
  induction paths as [|p rest IH]; cbn [first_existing find]; [reflexivity|].
  destruct (exists_or_locked fs p); [reflexivity | exact IH].
Qed.

Lemma find_none_all {A} (f : A -> bool) (l : list A) :
  find f l = None -> forall x, In x l -> f x = false.
Proof. intros H x Hx. exact (find_none f l H x Hx). Qed.

Lemma path_exists_insert_dir fs p : path_exists (<[p := Dir]> fs) p = true.
Proof.
  unfold path_exists, max_links. cbn [resolve]. now rewrite lookup_insert_eq.
Qed.

Lemma create_first_spec env required paths s :
  (forall p, In p paths -> is_Some (free_space env (files (world s)) p)) ->
  (forall p, In p paths -> exists_or_locked (files (world s)) p = false) ->
  create_first env required paths s
  = match find (viable env (files (world s)) required) paths with
    | Some p => (Ok (Some p), with_files (<[p := Dir]> (files (world s))) s)
    | None => (Ok None, s)
    end.
Proof.
  induction paths as [|p rest IH]; intros Hfree Hnone; cbn [create_first find].
  - reflexivity.
  - destruct (Hfree p (or_introl eq_refl)) as [q Hq].
    specialize (IH (fun x Hx => Hfree x (or_intror Hx))
                   (fun x Hx => Hnone x (or_intror Hx))).
    pose proof (Hnone p (or_introl eq_refl)) as Hp.
    rewrite bind_unfold, (freespace_gb_defined _ _ _ _ Hq).
    unfold viable, can_be_created. rewrite Hq.
    destruct (Qgtb q required); cbn [andb]; [|exact IH].
    rewrite bind_unfold. unfold try_except, makedirs.
    rewrite bind_unfold, bind_get_files.
    destruct (files (world s) !! p) as [n|] eqn:En.
    + cbn [raise is_OSError]. rewrite bind_get_files.
      cbn [mret M_ret]. rewrite Hp. exact IH.
    + destruct (makedirs_meets env p).
      * reflexivity.
      * cbn [raise is_OSError]. rewrite bind_get_files.
        cbn [mret M_ret]. rewrite Hp. exact IH.
      * munfold. cbn [is_OSError files set_files].
        unfold exists_or_locked. rewrite path_exists_insert_dir. reflexivity.
Qed.

(** *** The walk up to an existing ancestor needs no more fuel *)

Lemma length_rev s : String.length (Str.rev s) = String.length s.
Proof.
  induction s as [|c s IH]; [reflexivity|].
  rewrite rev_cons, length_append, IH. simpl. lia.
Qed.

Lemma lstrip_slashes_length s :
  (String.length (OsPath.lstrip_slashes s) <= String.length s)%nat.
Proof.
  induction s as [|c s IH]; simpl; [lia|].
  destruct (Str.eqc c "/"); simpl; lia.
Qed.

Lemma cut_last_slash_shape p h t :
  OsPath.cut_last_slash p = Some (h, t) ->
  exists h', h = h' +:+ "/" /\ p = h +:+ t.
Proof.
  revert h t. induction p as [|c p IH]; intros h t; cbn [OsPath.cut_last_slash];
    [discriminate|].
  destruct (OsPath.cut_last_slash p) as [[h0 t0]|].
  - intros H. injection H as <- <-.
    destruct (IH h0 t0 eq_refl) as (h' & -> & ->).
    exists (String c h'). split; reflexivity.
  - destruct (Str.eqc c "/") eqn:E; [|discriminate].
    intros H. injection H as <- <-. apply eqc_true in E. subst c.
    exists EmptyString. split; reflexivity.
Qed.

Lemma rstrip_slashes_snoc h :
  (String.length (OsPath.rstrip_slashes (h +:+ "/")) <= String.length h)%nat.
Proof.
  unfold OsPath.rstrip_slashes. rewrite rev_app.
  change (Str.rev "/") with "/". cbn [String.append OsPath.lstrip_slashes].
  rewrite eqc_refl, length_rev.
  pose proof (lstrip_slashes_length (Str.rev h)) as H. rewrite length_rev in H.
  exact H.
Qed.

Lemma all_slashes_dirname p :
  OsPath.all_slashes p = true -> OsPath.dirname p = p.
Proof.
  intros H. unfold OsPath.dirname, OsPath.split.
  assert (Hc : forall q, OsPath.all_slashes q = true ->
                 OsPath.cut_last_slash q
                 = match q with EmptyString => None | _ => Some (q, EmptyString) end).
  { induction q as [|c q IHq]; cbn [OsPath.all_slashes OsPath.cut_last_slash];
      [reflexivity|].
    intros Hq. apply andb_true_iff in Hq as [Hc Hq]. rewrite (IHq Hq), Hc.
    destruct q; reflexivity. }
  rewrite (Hc p H). destruct p as [|c p]; [reflexivity|].
  rewrite H. rewrite andb_false_r. reflexivity.
Qed.

Lemma dirname_shorter p :
  (String.length (OsPath.dirname p) < String.length p)%nat \/ OsPath.dirname p = p.
Proof.
  destruct (OsPath.all_slashes p) eqn:Ea; [right; now apply all_slashes_dirname|].
  left. unfold OsPath.dirname, OsPath.split.
  destruct (OsPath.cut_last_slash p) as [[h t]|] eqn:E.
  - destruct (cut_last_slash_shape _ _ _ E) as (h' & -> & ->).
    cbn [fst]. rewrite !length_append. cbn [String.length].
    destruct (Str.nonempty (h' +:+ "/") && negb (OsPath.all_slashes (h' +:+ "/"))) eqn:Eh.
    + pose proof (rstrip_slashes_snoc h'). lia.
    + (* the head is all slashes, so the tail is not empty *)
      destruct t as [|c t]; [|rewrite length_append; cbn [String.length]; lia].
      rewrite append_empty_r in Ea.
      rewrite Ea in Eh. cbn [negb] in Eh. rewrite andb_true_r in Eh.
      rewrite nonempty_app_r in Eh. discriminate.
  - cbn [fst String.length]. destruct p; [discriminate | simpl; lia].
Qed.

Lemma nearest_existing_stuck fs p :
  OsPath.dirname p = p ->
  nearest_existing fs 1 p = None ->
  forall m, nearest_existing fs m p = None.
Proof.
  intros Hfix H1 m. cbn [nearest_existing] in H1.
  destruct (negb (path_exists fs p) && Str.nonempty p) eqn:E; [|discriminate].
  induction m as [|m IH]; cbn [nearest_existing]; rewrite E; [reflexivity|].
  now rewrite Hfix.
Qed.

Lemma nearest_existing_more_fuel fs :
  forall n p,
    (String.length p < n)%nat ->
    nearest_existing fs n p = None ->
    forall m, nearest_existing fs m p = None.
Proof.
  induction n as [|n IH]; intros p Hlen Hnone m; [lia|].
  cbn [nearest_existing] in Hnone.
  destruct (negb (path_exists fs p) && Str.nonempty p) eqn:E; [|discriminate].
  destruct (dirname_shorter p) as [Hs | Hfix].
  - assert (Hup : forall k, nearest_existing fs k (OsPath.dirname p) = None)
      by (apply IH; [lia | exact Hnone]).
    destruct m as [|m]; cbn [nearest_existing]; rewrite E; [reflexivity | apply Hup].
  - apply nearest_existing_stuck; [exact Hfix|].
    cbn [nearest_existing]. rewrite Hfix, E. reflexivity.
Qed.

(** When [freespace_gb] is modelled as never returning, the loop of the
    source never ends: no number of further rounds finds a path that exists
    or is empty. *)
Lemma freespace_gb_hangs_for_good env path s :
  fst (freespace_gb env path s) = Hangs ->
  forall m, nearest_existing (files (world s)) m path = None.
Proof.
  unfold freespace_gb. rewrite bind_get_files.
  destruct (nearest_existing (files (world s)) (S (String.length path)) path)
    as [p|] eqn:E.
  - destruct (if Str.nonempty p then statvfs env p else None) as [[b a]|];
      cbn; discriminate.
  - intros _. apply (nearest_existing_more_fuel _ (S (String.length path))); [lia | exact E].
Qed.



(** ** Nothing but [lock_venv_dir] and [unlock_venv_dir] touches the locks *)

Create HintDb lockdb.

Section LockNeutral.

Variable env : Env.
Variables (L : gmap string nat) (F : option string) (N : string).

Lemma lock_get_obj : keeps (lock_state L F N) get_obj.
Proof. intros s Hs. exact Hs. Qed.

Lemma lock_get_files : keeps (lock_state L F N) get_files.
Proof. intros s Hs. exact Hs. Qed.

Lemma lock_get_world : keeps (lock_state L F N) get_world.
Proof. intros s Hs. exact Hs. Qed.

Lemma lock_os_path_exists p : keeps (lock_state L F N) (os_path_exists p).
Proof. intros s Hs. exact Hs. Qed.

Lemma lock_put_files fs : keeps (lock_state L F N) (put_files fs).
Proof. intros s Hs. exact Hs. Qed.

Lemma lock_emit e : keeps (lock_state L F N) (emit e).
Proof. intros s Hs. exact Hs. Qed.

Lemma lock_set_cwd d : keeps (lock_state L F N) (with_world (set_cwd d)).
Proof. intros s Hs. exact Hs. Qed.

Lemma lock_set_current_step n : keeps (lock_state L F N) (with_obj (set_current_step n)).
Proof. intros s Hs. exact Hs. Qed.

Lemma lock_set_total_steps n : keeps (lock_state L F N) (with_obj (set_total_steps n)).
Proof. intros s Hs. exact Hs. Qed.

Lemma lock_set_step_prefix p : keeps (lock_state L F N) (with_obj (set_step_prefix p)).
Proof. intros s Hs. exact Hs. Qed.

Lemma lock_set_virtualenv_dir d : keeps (lock_state L F N) (with_obj (set_virtualenv_dir d)).
Proof. intros s Hs. exact Hs. Qed.

Hint Resolve lock_get_obj lock_get_files lock_get_world lock_os_path_exists
  lock_put_files lock_emit lock_set_cwd lock_set_current_step
  lock_set_total_steps lock_set_step_prefix lock_set_virtualenv_dir : lockdb.

(** Splitting a computation at its binds, branches and handlers. *)
Ltac neutral :=
  repeat first
    [ apply keeps_ret
    | apply keeps_raise
    | solve [auto with lockdb]
    | apply keeps_bind; [|intros ?]
    | apply keeps_try_except
    | match goal with
      | |- keeps _ (if ?b then _ else _) => destruct b
      | |- keeps _ (match ?x with _ => _ end) => destruct x
      | |- keeps _ (let _ := _ in _) => cbv zeta
      end ].

Lemma lock_makedirs p : keeps (lock_state L F N) (makedirs env p).
Proof. unfold makedirs. neutral. Qed.

Lemma lock_open_write p c : keeps (lock_state L F N) (open_write p c).
Proof. unfold open_write. neutral. Qed.

Lemma lock_unlink p : keeps (lock_state L F N) (unlink p).
Proof. unfold unlink. neutral. Qed.

Lemma lock_symlink t p : keeps (lock_state L F N) (symlink t p).
Proof. unfold symlink. neutral. Qed.

Lemma lock_samefile a b : keeps (lock_state L F N) (samefile a b).
Proof. unfold samefile. neutral. Qed.

Lemma lock_rmtree p : keeps (lock_state L F N) (rmtree p).
Proof. unfold rmtree. neutral. Qed.

Lemma lock_rename a b : keeps (lock_state L F N) (rename a b).
Proof. unfold rename. neutral. Qed.

Lemma lock_chmod p : keeps (lock_state L F N) (chmod p).
Proof. unfold chmod. neutral. Qed.

Lemma lock_os_access_w p : keeps (lock_state L F N) (os_access_w env p).
Proof. unfold os_access_w. neutral. Qed.

Lemma lock_getcwd : keeps (lock_state L F N) getcwd.
Proof. unfold getcwd. neutral. Qed.

Lemma lock_chdir d : keeps (lock_state L F N) (chdir d).
Proof. unfold chdir. neutral. Qed.

Lemma lock_popen_wait cmd : keeps (lock_state L F N) (popen_wait env cmd).
Proof. unfold popen_wait. neutral. Qed.

Hint Resolve lock_makedirs lock_open_write lock_unlink lock_symlink
  lock_samefile lock_rmtree lock_rename lock_chmod lock_os_access_w
  lock_getcwd lock_chdir lock_popen_wait : lockdb.

Lemma lock_call_installer name cmd log : keeps (lock_state L F N) (call_installer env name cmd log).
Proof. unfold call_installer. neutral. Qed.

Lemma lock_info msg : keeps (lock_state L F N) (info msg).
Proof. apply keeps_ret. Qed.

Hint Resolve lock_call_installer lock_info : lockdb.

Lemma lock_mkdirs : keeps (lock_state L F N) (mkdirs env).
Proof. unfold mkdirs. neutral. Qed.

Lemma lock_submodule_update : keeps (lock_state L F N) (submodule_update env).
Proof. unfold submodule_update. neutral. Qed.

Lemma lock_create_virtualenv : keeps (lock_state L F N) (create_virtualenv env).
Proof. unfold create_virtualenv. neutral. Qed.

Lemma lock_tag_revision : keeps (lock_state L F N) (tag_revision env).
Proof. unfold tag_revision. neutral. Qed.

Lemma lock_venv_relocatable : keeps (lock_state L F N) (venv_relocatable env).
Proof. unfold venv_relocatable. neutral. Qed.

Lemma lock_pip_install_each g packages : keeps (lock_state L F N) (pip_install_each env g packages).
Proof.
  induction packages as [|p rest IH]; cbn [pip_install_each]; neutral.
Qed.

Hint Resolve lock_mkdirs lock_submodule_update lock_create_virtualenv
  lock_tag_revision lock_venv_relocatable lock_pip_install_each : lockdb.

Lemma lock_pip_install_packages g : keeps (lock_state L F N) (pip_install_packages env g).
Proof. unfold pip_install_packages. neutral. Qed.

Lemma lock_make_archive : keeps (lock_state L F N) (make_archive env).
Proof.
  unfold make_archive, make_archive_check, make_archive_write. neutral.
Qed.

Hint Resolve lock_pip_install_packages lock_make_archive : lockdb.

Lemma lock_build_staging : keeps (lock_state L F N) (build_staging env).
Proof. unfold build_staging. neutral. Qed.

Lemma lock_publish_staging d : keeps (lock_state L F N) (publish_staging d).
Proof. unfold publish_staging. neutral. Qed.

Hint Resolve lock_build_staging lock_publish_staging : lockdb.

Lemma lock_update_unsafe : keeps (lock_state L F N) (update_unsafe env).
Proof. unfold update_unsafe. neutral. Qed.

Lemma lock_search_archive_in dirs : keeps (lock_state L F N) (search_archive_in env dirs).
Proof.
  induction dirs as [|d rest IH]; cbn [search_archive_in]; neutral.
Qed.

Hint Resolve lock_update_unsafe lock_search_archive_in : lockdb.

Lemma lock_search_for_precompiled_archive :
  keeps (lock_state L F N) (search_for_precompiled_archive env).
Proof. unfold search_for_precompiled_archive. neutral. Qed.

Hint Resolve lock_search_for_precompiled_archive : lockdb.

Lemma lock_locked_phase : keeps (lock_state L F N) (locked_phase env).
Proof. unfold locked_phase. neutral. Qed.

Lemma lock_venv_lastest_symlink : keeps (lock_state L F N) venv_lastest_symlink.
Proof. unfold venv_lastest_symlink. neutral. Qed.

End LockNeutral.

(** ** The bookkeeping of the [latest] link *)

Lemma soft_bind {A B} (m : M A) (f : A -> M B) :
  fails_softly m -> (forall a, fails_softly (f a)) -> fails_softly (m ≫= f).
Proof.
  intros Hm Hf s. rewrite bind_unfold. specialize (Hm s).
  destruct (m s) as [[a|e|] s1]; cbn [fst] in *; auto. apply Hf.
Qed.

Lemma soft_ret {A} (a : A) : fails_softly (mret a).
Proof. intros s. exact Logic.I. Qed.

Lemma soft_caught {A} (m h : M A) :
  fails_softly m -> fails_softly h -> fails_softly (try_except m is_OSError h).
Proof.
  intros Hm Hh s. unfold try_except. specialize (Hm s).
  destruct (m s) as [[a|e|] s1]; cbn [fst] in *; auto.
  rewrite Hm. apply Hh.
Qed.

Lemma soft_os_path_exists p : fails_softly (os_path_exists p).
Proof. intros s. exact Logic.I. Qed.

Lemma soft_get_obj : fails_softly get_obj.
Proof. intros s. exact Logic.I. Qed.

Lemma soft_samefile a b : fails_softly (samefile a b).
Proof.
  intros s. unfold samefile. rewrite bind_get_files.
  destruct (resolve _ _ a); [destruct (resolve _ _ b)|]; reflexivity.
Qed.

Lemma soft_unlink p : fails_softly (unlink p).
Proof.
  intros s. unfold unlink. rewrite bind_get_files.
  destruct (files (world s) !! p) as [[| |]|]; reflexivity.
Qed.

Lemma soft_symlink t p : fails_softly (symlink t p).
Proof.
  intros s. unfold symlink. rewrite bind_get_files.
  destruct (files (world s) !! p); reflexivity.
Qed.

Lemma caught_returns (m : M unit) :
  fails_softly m ->
  forall s, fst (try_except m is_OSError (mret tt) s) = Ok tt.
Proof.
  intros H s. unfold try_except. specialize (H s).
  destruct (m s) as [[[]|e|] s1]; cbn [fst] in *;
    [reflexivity | rewrite H; reflexivity | contradiction].
Qed.

Lemma venv_lastest_symlink_returns (s : State) :
  fst (venv_lastest_symlink s) = Ok tt.
Proof.
  unfold venv_lastest_symlink. rewrite bind_get_obj.
  apply caught_returns.
  apply soft_bind; [apply soft_os_path_exists | intros e].
  apply soft_bind.
  - destruct (negb e); [apply soft_ret|].
    apply soft_bind; [apply soft_samefile | intros; apply soft_ret].
  - intros [|]; [|apply soft_ret].
    apply soft_bind; [|intros; apply soft_symlink].
    apply soft_caught; [apply soft_unlink | apply soft_ret].
Qed.

Lemma link_only_unlink o0 w0 :
  keeps (link_only o0 w0) (unlink (venv_latest_filename o0)).
Proof.
  intros s (Ho & Hl & Ht & Hc & Hf). unfold unlink. rewrite bind_get_files.
  destruct (files (world s) !! _) as [[| |]|]; cbn [snd raise];
    try (repeat split; assumption);
    (repeat (split; [assumption|]); intros p Hp; cbn [put_files with_world snd world files set_files];
     rewrite lookup_delete_ne by congruence; auto).
Qed.

Lemma link_only_symlink o0 w0 t :
  keeps (link_only o0 w0) (symlink t (venv_latest_filename o0)).
Proof.
  intros s (Ho & Hl & Ht & Hc & Hf). unfold symlink. rewrite bind_get_files.
  destruct (files (world s) !! _); cbn [snd raise];
    try (repeat split; assumption).
  repeat (split; [assumption|]). intros p Hp.
  cbn [put_files with_world snd world files set_files].
  rewrite lookup_insert_ne by congruence. auto.
Qed.

Lemma link_only_samefile o0 w0 a b : keeps (link_only o0 w0) (samefile a b).
Proof.
  intros s Hs. unfold samefile. rewrite bind_get_files.
  destruct (resolve _ _ a); [destruct (resolve _ _ b)|]; exact Hs.
Qed.

Lemma venv_lastest_symlink_effect (s : State) :
  let r := venv_lastest_symlink s in
  fst r = Ok tt
  /\ obj (snd r) = obj s
  /\ locks (world (snd r)) = locks (world s)
  /\ trace (world (snd r)) = trace (world s)
  /\ cwd (world (snd r)) = cwd (world s)
  /\ (forall p, p <> venv_latest_filename (obj s) ->
        files (world (snd r)) !! p = files (world s) !! p).
Proof.
  split; [apply venv_lastest_symlink_returns|].
  assert (H : keeps (link_only (obj s) (world s)) venv_lastest_symlink).
  { unfold venv_lastest_symlink. apply keeps_get_obj_bind. intros s1 Hs1.
    pose proof Hs1 as (-> & _).
    revert s1 Hs1. change (keeps (link_only (obj s) (world s))
      (try_except
         (e ← os_path_exists (venv_latest_filename (obj s));
          stale ← (if negb e then mret true
                   else same ← samefile (venv_latest_filename (obj s))
                                        (virtualenv_dir (obj s));
                        mret (negb same));
          if stale : bool then
            try_except (unlink (venv_latest_filename (obj s))) is_OSError (mret tt) ;;
            symlink (virtualenv_dir (obj s)) (venv_latest_filename (obj s))
          else mret tt)
         is_OSError (mret tt))).
    apply keeps_try_except; [|apply keeps_ret].
    apply keeps_bind; [intros ? Hx; exact Hx | intros e].
    apply keeps_bind.
    - destruct (negb e); [apply keeps_ret|].
      apply keeps_bind; [apply link_only_samefile | intros; apply keeps_ret].
    - intros [|]; [|apply keeps_ret].
      apply keeps_bind; [|intros; apply link_only_symlink].
      apply keeps_try_except; [apply link_only_unlink | apply keeps_ret]. }
  apply H. repeat split; reflexivity.
Qed.

Lemma path_exists_file fs p c : fs !! p = Some (File c) -> path_exists fs p = true.
Proof. intros H. unfold path_exists, max_links. cbn [resolve]. now rewrite H. Qed.

(** C5. The completion marker being a file in the environment directory
    (and not the [latest] link itself): the request returns at once. It
    does what the bookkeeping of the [latest] link does and nothing else:
    the lock table, the lock handle and the record of calls and commands
    are as before (no [lock_venv_dir], no [update_unsafe], no
    [search_for_precompiled_archive], no [make_archive], no command), and
    no file but the link has changed. *)
Theorem marker_present_is_fast_path (env : Env) (s : State) (stamp : string) :
  files (world s) !! completed_marker (obj s) = Some (File stamp) ->
  venv_latest_filename (obj s) <> completed_marker (obj s) ->
  let r := update_if_needed env s in
  r = (Ok tt, snd (venv_lastest_symlink s))
  /\ locks (world (snd r)) = locks (world s)
  /\ lock_file (obj (snd r)) = lock_file (obj s)
  /\ trace (world (snd r)) = trace (world s)
  /\ (forall p, p <> venv_latest_filename (obj s) ->
        files (world (snd r)) !! p = files (world s) !! p).
Proof.
  intros Hmarker Hne r.
  destruct (venv_lastest_symlink_effect s) as (Hok & Hobj & Hl & Ht & _ & Hf).
  assert (E : r = (Ok tt, snd (venv_lastest_symlink s))).
  { subst r. unfold update_if_needed. rewrite bind_unfold.
    destruct (venv_lastest_symlink s) as [o s1]. cbn [fst snd] in *. subst o.
    rewrite bind_get_obj, bind_os_path_exists, Hobj.
    rewrite (path_exists_file _ _ stamp); [reflexivity|].
    rewrite Hf by congruence. exact Hmarker. }
  rewrite E. cbn [snd]. rewrite Hobj.
  split; [reflexivity|]. split; [exact Hl|]. split; [reflexivity|].
  split; [exact Ht | exact Hf].
Qed.

(** ** Taking and giving back the lock *)

Lemma lock_venv_dir_ok env s :
  fst (lock_venv_dir env s) = Ok tt ->
  lock_state (locks (world (snd (lock_venv_dir env s))))
             (Some (lockfilename (obj s))) (lockfilename (obj s))
             (snd (lock_venv_dir env s))
  /\ locks (world (snd (lock_venv_dir env s))) !! lockfilename (obj s) = Some (pid env).
Proof.
  unfold lock_venv_dir. rewrite bind_emit, bind_get_obj, bind_unfold.
  cbn [obj]. unfold open_append. rewrite bind_get_files.
  cbn [world files record].
  assert (Hlock : forall s1,
    lockfilename (obj s1) = lockfilename (obj s) ->
    let r := (with_obj (set_lock_file (Some (lockfilename (obj s)))) ;;
              lockf_ex env (lockfilename (obj s))) s1 in
    fst r = Ok tt ->
    lock_state (locks (world (snd r))) (Some (lockfilename (obj s)))
               (lockfilename (obj s)) (snd r)
    /\ locks (world (snd r)) !! lockfilename (obj s) = Some (pid env)).
  { intros s1 HN r. subst r. rewrite bind_with_obj. unfold lockf_ex.
    rewrite bind_get_world. cbn [world].
    destruct (locks (world s1) !! lockfilename (obj s)) as [owner|] eqn:El.
    - destruct (Nat.eqb owner (pid env)) eqn:Eo; [|cbn; discriminate].
      apply Nat.eqb_eq in Eo. subst owner. intros _. cbn [snd mret M_ret].
      split; [|exact El]. repeat split; cbn [obj world lock_file lockfilename set_lock_file].
      exact HN.
    - rewrite bind_with_world. intros _. cbn [emit with_world snd world obj locks record set_locks].
      split; [|apply lookup_insert_eq].
      repeat split; cbn [obj world lock_file lockfilename set_lock_file]. exact HN. }
  destruct (files (world s) !! lockfilename (obj s)) as [[| |]|];
    cbn [raise mret M_ret put_files with_world];
    try (cbn; discriminate); apply Hlock; reflexivity.
Qed.

Lemma release_and_return_releases env old_dir s :
  lock_file (obj s) = Some (lockfilename (obj s)) ->
  locks (world s) !! lockfilename (obj s) = Some (pid env) ->
  let r := release_and_return env old_dir s in
  locks (world (snd r)) !! lockfilename (obj s) = None
  /\ lock_file (obj (snd r)) = None
  /\ fst r <> Hangs.
Proof.
  intros HF HL r. subst r. unfold release_and_return, unlock_venv_dir.
  rewrite bind_unfold, bind_emit, bind_get_obj. cbn [obj]. rewrite HF.
  rewrite bind_unfold. unfold lockf_un. rewrite bind_get_world.
  cbn [world locks record]. rewrite HL, Nat.eqb_refl.
  rewrite bind_with_world. cbn [emit with_world with_obj fst snd obj world].
  rewrite bind_get_obj. cbn [obj lockfilename set_lock_file].
  set (s1 := mkState _ _).
  assert (H1 : lock_state (delete (lockfilename (obj s)) (locks (world s)))
                          None (lockfilename (obj s)) s1)
    by (repeat split).
  set (tail := (try_except (unlink (lockfilename (obj s))) is_OSError (mret tt) ;;
                chdir old_dir)).
  assert (Hk : keeps (lock_state (delete (lockfilename (obj s)) (locks (world s)))
                                 None (lockfilename (obj s))) tail).
  { subst tail. apply keeps_bind; [|intros _; apply lock_chdir].
    apply keeps_try_except; [apply lock_unlink | apply keeps_ret]. }
  destruct (Hk s1 H1) as (Hl & Hf & _).
  split; [rewrite Hl; apply lookup_delete_eq|]. split; [exact Hf|].
  subst tail. rewrite bind_unfold.
  pose proof (caught_returns (unlink (lockfilename (obj s)))
                (soft_unlink _) s1) as Hu.
  destruct (try_except _ _ _ s1) as [o s2]. cbn [fst] in Hu. subst o.
  unfold chdir. rewrite bind_get_files.
  destruct (path_exists _ _); cbn; discriminate.
Qed.

Lemma update_if_needed_slow env s :
  let s1 := snd (venv_lastest_symlink s) in
  path_exists (files (world s1)) (completed_marker (obj s1)) = false ->
  update_if_needed env s
  = (chdir (autodeps_dir (obj s1)) ;;
     lock_venv_dir env ;;
     locked_phase env ;;
     release_and_return env (cwd (world s1))) s1.
Proof.
  intros s1 Hm. unfold update_if_needed. rewrite bind_unfold.
  pose proof (venv_lastest_symlink_returns s) as Hok. fold s1.
  destruct (venv_lastest_symlink s) as [o s1'] eqn:E. cbn [fst snd] in *.
  subst o s1. rewrite bind_get_obj, bind_os_path_exists, Hm. reflexivity.
Qed.

(** C1, as the code has it. The marker being absent and the lock taken:
    when the locked phase completes, the lock is released before the request
    returns; when it fails, the request ends with the same error, and the
    lock is still held by the process and its handle still open. *)
Theorem lock_released_when_phase_completes (env : Env) (s : State) :
  let s1 := snd (venv_lastest_symlink s) in
  let moved := chdir (autodeps_dir (obj s1)) s1 in
  let locked := lock_venv_dir env (snd moved) in
  let phase := locked_phase env (snd locked) in
  let r := update_if_needed env s in
  let N := lockfilename (obj s) in
  path_exists (files (world s1)) (completed_marker (obj s1)) = false ->
  fst moved = Ok tt ->
  fst locked = Ok tt ->
  locks (world (snd locked)) !! N = Some (pid env)
  /\ match fst phase with
     | Ok _ =>
         locks (world (snd r)) !! N = None
         /\ lock_file (obj (snd r)) = None
         /\ fst r <> Hangs
     | Raise e =>
         r = (Raise e, snd phase)
         /\ locks (world (snd r)) !! N = Some (pid env)
         /\ lock_file (obj (snd r)) = Some N
     | Hangs => r = (Hangs, snd phase)
     end.
Proof.
  intros s1 moved locked phase r N Hm Hgo Hlk.
  destruct (venv_lastest_symlink_effect s) as (_ & Hobj & _).
  fold s1 in Hobj.
  assert (Hr : r = match fst phase with
                   | Ok _ => release_and_return env (cwd (world s1)) (snd phase)
                   | Raise e => (Raise e, snd phase)
                   | Hangs => (Hangs, snd phase)
                   end).
  { subst r. rewrite (update_if_needed_slow env s Hm). fold s1.
    rewrite bind_unfold. fold moved.
    destruct moved as [o2 s2]. cbn [fst snd] in *. subst o2.
    rewrite bind_unfold. fold locked.
    destruct locked as [o3 s3]. cbn [fst snd] in *. subst o3.
    rewrite bind_unfold. fold phase.
    destruct phase as [[[]|e|] s4]; reflexivity. }
  (* the object is the same up to the lock *)
  assert (HN2 : lockfilename (obj (snd moved)) = N).
  { subst moved. unfold chdir. rewrite bind_get_files.
    destruct (path_exists _ (autodeps_dir _)); unfold with_world, raise;
      cbn [snd obj]; rewrite Hobj; reflexivity. }
  destruct (lock_venv_dir_ok env (snd moved) Hlk) as ((_ & HF & HN3) & HL).
  fold locked in HF, HN3, HL. rewrite HN2 in HF, HN3, HL.
  split; [exact HL|].
  pose proof (lock_locked_phase env (locks (world (snd locked))) (Some N) N
                (snd locked) (conj eq_refl (conj HF HN3))) as (Hl4 & Hf4 & Hn4).
  fold phase in Hl4, Hf4, Hn4.
  rewrite Hr. destruct (fst phase) as [[]|e|].
  - pose proof (release_and_return_releases env (cwd (world s1)) (snd phase)) as H.
    rewrite Hn4, Hf4, Hl4 in H. exact (H eq_refl HL).
  - cbn [snd]. rewrite Hl4. auto.
  - reflexivity.
Qed.

Lemma lock_released_witness :
  let env := demo_env 1 7 run_pip_fails in
  let r := update_if_needed env demo_state in
  fst r = Raise (Exception (failure_message (Some "/venv/h.build/foo==1.0.out")))
  /\ locks (world (snd r)) !! "/venv/h.lock" = Some 1%nat
  /\ lock_file (obj (snd r)) = Some "/venv/h.lock".
Proof.
  intros env r.
  pose proof (lock_released_when_phase_completes env demo_state) as H.
  cbv zeta in H.
  assert (Hm : path_exists (files (world (snd (venv_lastest_symlink demo_state))))
                 (completed_marker (obj (snd (venv_lastest_symlink demo_state)))) = false)
    by (vm_compute; reflexivity).
  assert (Hgo : fst (chdir (autodeps_dir (obj (snd (venv_lastest_symlink demo_state))))
                       (snd (venv_lastest_symlink demo_state))) = Ok tt)
    by (vm_compute; reflexivity).
  assert (Hlk : fst (lock_venv_dir env
                       (snd (chdir (autodeps_dir (obj (snd (venv_lastest_symlink demo_state))))
                               (snd (venv_lastest_symlink demo_state))))) = Ok tt)
    by (vm_compute; reflexivity).
  specialize (H Hm Hgo Hlk) as [_ H].
  match type of H with
  | match fst ?p with _ => _ end =>
      assert (E : fst p = Raise (Exception
                    (failure_message (Some "/venv/h.build/foo==1.0.out"))))
        by (vm_compute; reflexivity);
      rewrite E in H
  end.
  fold r in H. destruct H as (H1 & H2 & H3).
  split; [rewrite H1; reflexivity|]. split; [exact H2 | exact H3].
Defined.

(** C1 fails as stated: a build that fails under the lock ends the request
    with the lock still held, and a second process asking for the same
    lock waits. *)
Lemma failed_build_keeps_lock :
  let r := update_if_needed (demo_env 1 7 run_pip_fails) demo_state in
  fst r = Raise (Exception (failure_message (Some "/venv/h.build/foo==1.0.out")))
  /\ locks (world (snd r)) !! "/venv/h.lock" = Some 1%nat
  /\ lock_file (obj (snd r)) = Some "/venv/h.lock"
  /\ fst (lock_venv_dir (demo_env 2 8 run_ok) (mkState demo_obj (world (snd r))))
     = Hangs.
Proof. vm_compute. repeat split. Qed.

(** ** Restoring from an archive *)

Lemma with_files_same s : with_files (files (world s)) s = s.
Proof. destruct s as [o [f l c t]]. reflexivity. Qed.

Lemma makedirs_caught env p s :
  exists fs', try_except (makedirs env p) is_OSError (mret tt) s
              = (Ok tt, with_files fs' s).
Proof.
  unfold try_except, makedirs. rewrite bind_get_files.
  destruct (files (world s) !! p).
  - exists (files (world s)). cbn. now rewrite with_files_same.
  - destruct (makedirs_meets env p).
    + eexists. reflexivity.
    + exists (files (world s)). cbn. now rewrite with_files_same.
    + eexists. reflexivity.
Qed.

Lemma restore_failure env s :
  path_exists (files (world s)) (archive_name (obj s)) = true ->
  (forall fs, fst (exec env (extract_cmd (obj s)) fs) <> 0) ->
  let r := search_for_precompiled_archive env s in
  fst r = Raise (Exception (failure_message None))
  /\ exists status,
      status <> 0
      /\ trace (world (snd r))
         = (trace (world s)
            ++ [Call "search_for_precompiled_archive";
                Run (extract_name (obj s)) (extract_cmd (obj s)) None status])%list.
Proof.
  intros Htar Hfail r. subst r. unfold search_for_precompiled_archive.
  rewrite bind_emit, bind_get_obj. cbn [obj search_archive_in].
  rewrite bind_get_obj, bind_os_path_exists. cbn [obj world files record].
  fold (archive_name (obj s)). rewrite Htar.
  rewrite bind_unfold.
  destruct (makedirs_caught env (OsPath.dirname (virtualenv_dir (obj s)))
              (mkState (obj s) (record (Call "search_for_precompiled_archive") (world s))))
    as [fs' ->].
  rewrite bind_with_obj, bind_unfold, call_installer_eq.
  unfold after_run. cbn [with_files stepped obj world files set_files].
  fold (extract_cmd (obj s)). fold (extract_name (obj s)).
  specialize (Hfail fs'). apply Z.eqb_neq in Hfail as Hz. rewrite Hz.
  cbn [fst snd world trace record set_files]. split; [reflexivity|].
  exists (fst (exec env (extract_cmd (obj s)) fs')). split; [exact Hfail|].
  rewrite <- app_assoc. reflexivity.
Qed.

(** C2, as the code has it. The marker being absent, the archive of the
    identity being in the archive directory and its unpacking exiting with
    a non-zero status: the locked phase ends with the error of the
    unpacking, in the state in which the search raised it. The only thing
    recorded after the search began is the unpacking command:
    [update_unsafe] is not called, the marker write is not reached, and
    whatever would follow the locked phase is not run. *)
Theorem restore_failure_propagates (env : Env) (s : State) :
  path_exists (files (world s)) (completed_marker (obj s)) = false ->
  path_exists (files (world s)) (archive_name (obj s)) = true ->
  (forall fs, fst (exec env (extract_cmd (obj s)) fs) <> 0) ->
  let r := locked_phase env s in
  fst r = Raise (Exception (failure_message None))
  /\ (exists status,
         status <> 0
         /\ trace (world (snd r))
            = (trace (world s)
               ++ [Call "search_for_precompiled_archive";
                   Run (extract_name (obj s)) (extract_cmd (obj s)) None status])%list)
  /\ snd r = snd (search_for_precompiled_archive env s)
  /\ (forall (B : Type) (k : unit -> M B),
         (locked_phase env ≫= k) s = (Raise (Exception (failure_message None)), snd r)).
Proof.
  intros Hm Htar Hfail r.
  destruct (restore_failure env s Htar Hfail) as (Hraise & Htrace).
  assert (Hr : r = (Raise (Exception (failure_message None)),
                    snd (search_for_precompiled_archive env s))).
  { subst r. unfold locked_phase. rewrite bind_get_obj, bind_os_path_exists, Hm.
    cbn [negb]. rewrite bind_unfold.
    destruct (search_for_precompiled_archive env s) as [o s1].
    cbn [fst snd] in *. subst o. reflexivity. }
  rewrite Hr. cbn [fst snd]. split; [reflexivity|]. split; [exact Htrace|].
  split; [reflexivity|].
  intros B k. rewrite bind_unfold. fold r. rewrite Hr. reflexivity.
Qed.

Lemma restore_failure_witness :
  let r := locked_phase (demo_env 1 7 run_extract_fails) demo_state_with_archive in
  fst r = Raise (Exception (failure_message None))
  /\ exists status,
      status <> 0
      /\ trace (world (snd r))
         = [Call "search_for_precompiled_archive";
            Run (extract_name demo_obj) (extract_cmd demo_obj) None status].
Proof.
  intros r.
  assert (Hm : path_exists (files (world demo_state_with_archive))
                 (completed_marker (obj demo_state_with_archive)) = false)
    by (vm_compute; reflexivity).
  assert (Htar : path_exists (files (world demo_state_with_archive))
                   (archive_name (obj demo_state_with_archive)) = true)
    by (vm_compute; reflexivity).
  assert (Hfail : forall fs,
             fst (exec (demo_env 1 7 run_extract_fails)
                       (extract_cmd (obj demo_state_with_archive)) fs) <> 0).
  { intros fs. cbn [exec demo_env run_extract_fails fst obj demo_state_with_archive].
    rewrite String.eqb_refl. discriminate. }
  destruct (restore_failure_propagates _ _ Hm Htar Hfail) as (H1 & H2 & _ & _).
  fold r in H1, H2. split; [exact H1 | exact H2].
Defined.

(** C2 fails as stated: with the archive present and its unpacking failing,
    the request ends with the unpacking error; no build is started and no
    marker is written. *)
Lemma failed_restore_is_not_rebuilt :
  let r := update_if_needed (demo_env 1 7 run_extract_fails) demo_state_with_archive in
  fst r = Raise (Exception (failure_message None))
  /\ trace (world (snd r))
     = [Call "lock_venv_dir"; Lock "/venv/h.lock" 1;
        Call "search_for_precompiled_archive";
        Run (extract_name demo_obj) (extract_cmd demo_obj) None 2]
  /\ files (world (snd r)) !! "/venv/h/.completed" = None
  /\ files (world (snd r)) !! "/venv/h.build" = None.
Proof. vm_compute. repeat split. Qed.

(** ** Publishing an archive *)

(** C3, as the code has it. Once the archive of the identity is a file in
    the archive directory, a publish operation that starts afterwards
    returns without running a command and leaves every file, the archive
    among them, exactly as it was. *)
Theorem existing_archive_is_kept (env : Env) (s : State) (bytes : string) :
  files (world s) !! archive_name (obj s) = Some (File bytes) ->
  let r := make_archive env s in
  fst r = Ok tt
  /\ files (world (snd r)) = files (world s)
  /\ files (world (snd r)) !! archive_name (obj s) = Some (File bytes)
  /\ trace (world (snd r)) = (trace (world s) ++ [Call "make_archive"])%list.
Proof.
  intros Hdst r. subst r. unfold make_archive, make_archive_check.
  rewrite bind_unfold, bind_emit, bind_get_obj. unfold os_access_w.
  rewrite bind_unfold, bind_get_files. cbn [mret M_ret obj world files record].
  destruct (path_exists (files (world s)) (archive_dir (obj s)) && _); cbn [negb].
  - rewrite bind_os_path_exists. cbn [world files record].
    fold (archive_name (obj s)).
    rewrite (path_exists_file _ _ _ Hdst). cbn. auto.
  - cbn. auto.
Qed.

Lemma existing_archive_witness :
  let r := make_archive (demo_env 2 8 run_ok) demo_state_with_archive in
  fst r = Ok tt
  /\ files (world (snd r)) !! "/arch/h.tar.gz" = Some (File "an archive").
Proof.
  intros r.
  assert (H : files (world demo_state_with_archive)
                !! archive_name (obj demo_state_with_archive)
              = Some (File "an archive")) by (vm_compute; reflexivity).
  destruct (existing_archive_is_kept (demo_env 2 8 run_ok) _ _ H) as (H1 & _ & H3 & _).
  split; [exact H1 | exact H3].
Defined.

(** C3 fails as stated: two processes that both test for the archive
    before either has written it both pack and rename; the second rename
    replaces the tarball of the first, which readers had already seen. *)
Lemma concurrent_publish_replaces_archive :
  let p1 := publisher_env 1 in
  let p2 := publisher_env 2 in
  let o1 := publisher_obj "/venv/h" in
  let o2 := publisher_obj "/scratch/h" in
  let c1 := as_process (make_archive_check p1) o1 built_world in
  let c2 := as_process (make_archive_check p2) o2 (snd c1) in
  let w1 := as_process (make_archive_write p1 "/arch/h_1.tar.gz" "/arch/h.tar.gz")
                       o1 (snd c2) in
  let w2 := as_process (make_archive_write p2 "/arch/h_2.tar.gz" "/arch/h.tar.gz")
                       o2 (snd w1) in
  fst c1 = Ok (Some ("/arch/h_1.tar.gz", "/arch/h.tar.gz"))
  /\ fst c2 = Ok (Some ("/arch/h_2.tar.gz", "/arch/h.tar.gz"))
  /\ fst w1 = Ok tt
  /\ files (snd w1) !! "/arch/h.tar.gz" = Some (File (packed_by 1))
  /\ fst w2 = Ok tt
  /\ files (snd w2) !! "/arch/h.tar.gz" = Some (File (packed_by 2))
  /\ packed_by 1 <> packed_by 2.
Proof. vm_compute. repeat split. discriminate. Qed.

Lemma marker_present_witness :
  let r := update_if_needed (demo_env 1 7 run_pip_fails) demo_state_completed in
  fst r = Ok tt
  /\ locks (world (snd r)) = locks (world demo_state_completed)
  /\ trace (world (snd r)) = [].
Proof.
  intros r.
  assert (Hmarker : files (world demo_state_completed)
                      !! completed_marker (obj demo_state_completed)
                    = Some (File "datetime.datetime(2015, 5, 1, 9, 30)"))
    by (vm_compute; reflexivity).
  assert (Hne : venv_latest_filename (obj demo_state_completed)
                <> completed_marker (obj demo_state_completed))
    by (vm_compute; discriminate).
  destruct (marker_present_is_fast_path (demo_env 1 7 run_pip_fails)
              demo_state_completed _ Hmarker Hne) as (H1 & H2 & _ & H4 & _).
  fold r in H1, H2, H4.
  split; [rewrite H1; reflexivity|]. split; [exact H2 | exact H4].
Defined.

Lemma requirements_parsing_witness :
  init_requirements (demo_env 1 7 run_ok) ["/src/requirements.txt"] demo_state
  = (Ok (["foo==1.0"; "bar"], compute_deps_hash "2.7.18" ["foo==1.0"; "bar"]),
     demo_state).
Proof.
  assert (H : files (world demo_state) !! "/src/requirements.txt"
              = Some (File example_requirements_txt)) by (vm_compute; reflexivity).
  exact (proj1 (proj2 requirements_parsing) (demo_env 1 7 run_ok) demo_state
               "/src/requirements.txt" H).
Defined.

(** ** The manifest can be read back *)

Lemma isspace_newline : Str.isspace Str.newline = true.
Proof. reflexivity. Qed.

Lemma lstrip_app x y :
  Str.lstrip (x +:+ y)
  = if Str.nonempty (Str.lstrip x) then Str.lstrip x +:+ y else Str.lstrip y.
Proof.
  induction x as [|c x IH]; cbn [String.append Str.lstrip]; [reflexivity|].
  destruct (Str.isspace c); [exact IH | reflexivity].
Qed.

Lemma rstrip_snoc_space y c :
  Str.isspace c = true -> Str.rstrip (y +:+ String c EmptyString) = Str.rstrip y.
Proof.
  intros H. unfold Str.rstrip. rewrite rev_app.
  change (Str.rev (String c EmptyString)) with (String c EmptyString).
  cbn [String.append Str.lstrip]. now rewrite H.
Qed.

Lemma strip_snoc_space x c :
  Str.isspace c = true -> Str.strip (x +:+ String c EmptyString) = Str.strip x.
Proof.
  intros H. unfold Str.strip. rewrite lstrip_app.
  destruct (Str.nonempty (Str.lstrip x)) eqn:E.
  - now apply rstrip_snoc_space.
  - cbn [Str.lstrip]. rewrite H.
    destruct (Str.lstrip x); [reflexivity | discriminate].
Qed.

Lemma sub_comment_from_mem c b s :
  Str.mem c (Re.sub_comment_from b s) = true -> Str.mem c s = true.
Proof.
  revert b. induction s as [|x s IH]; intros b; cbn [Re.sub_comment_from Str.mem];
    [auto|].
  destruct b.
  - destruct (Str.eqc x Str.newline).
    + cbn [Str.mem]. intros H. apply orb_true_iff in H as [H|H];
        [now rewrite H | rewrite (IH _ H); apply orb_true_r].
    + intros H. rewrite (IH _ H). apply orb_true_r.
  - destruct (Str.eqc x "#").
    + intros H. rewrite (IH _ H). apply orb_true_r.
    + cbn [Str.mem]. intros H. apply orb_true_iff in H as [H|H];
        [now rewrite H | rewrite (IH _ H); apply orb_true_r].
Qed.

Lemma sub_comment_from_snoc_newline b s :
  Str.mem Str.newline s = false ->
  Re.sub_comment_from b (s +:+ String Str.newline EmptyString)
  = Re.sub_comment_from b s +:+ String Str.newline EmptyString.
Proof.
  revert b. induction s as [|x s IH]; intros b H.
  - destruct b; reflexivity.
  - cbn [Str.mem] in H. apply orb_false_iff in H as [Hx Hs].
    assert (Hx' : Str.eqc x Str.newline = false).
    { apply eqc_false. intros ->. rewrite eqc_refl in Hx. discriminate. }
    cbn [String.append Re.sub_comment_from]. rewrite Hx'.
    destruct b.
    + now apply IH.
    + destruct (Str.eqc x "#"); [now apply IH|].
      cbn [String.append]. now rewrite IH.
Qed.

Lemma sub_comment_none s :
  Str.mem "#" s = false -> Re.sub_comment s = s.
Proof.
  unfold Re.sub_comment. induction s as [|x s IH]; [reflexivity|].
  cbn [Str.mem Re.sub_comment_from]. intros H.
  apply orb_false_iff in H as [Hx Hs].
  assert (Hx' : Str.eqc x "#" = false).
  { apply eqc_false. intros ->. rewrite eqc_refl in Hx. discriminate. }
  rewrite Hx'. now rewrite IH.
Qed.

(** A line of a file: no line feed but, possibly, at its end. *)
Lemma lines_from_shape s :
  forall cur,
    Str.mem Str.newline cur = false ->
    Forall (fun l => exists b,
                Str.mem Str.newline b = false
                /\ (l = b \/ l = b +:+ String Str.newline EmptyString))
           (Str.lines_from cur s).
Proof.
  induction s as [|c s IH]; intros cur Hcur; cbn [Str.lines_from].
  - destruct cur as [|x cur]; constructor; [|constructor].
    exists (Str.rev (String x cur)). split; [now rewrite mem_rev | now left].
  - destruct (Str.eqc c Str.newline) eqn:E.
    + apply eqc_true in E. subst c. constructor; [|now apply IH].
      exists (Str.rev cur). split; [now rewrite mem_rev|]. right. apply rev_cons.
    + apply IH. cbn [Str.mem]. rewrite Hcur, orb_false_r.
      apply eqc_false. apply eqc_false in E. congruence.
Qed.

Lemma requirement_no_newline line :
  (exists b, Str.mem Str.newline b = false
             /\ (line = b \/ line = b +:+ String Str.newline EmptyString)) ->
  Str.mem Str.newline (Str.strip (Re.sub_comment line)) = false.
Proof.
  intros (b & Hb & Hl).
  assert (H0 : Str.mem Str.newline (Str.strip (Re.sub_comment b)) = false).
  { destruct (Str.mem Str.newline (Str.strip (Re.sub_comment b))) eqn:E; [|reflexivity].
    apply mem_strip, sub_comment_from_mem in E. congruence. }
  destruct Hl as [-> | ->]; [exact H0|].
  unfold Re.sub_comment. rewrite (sub_comment_from_snoc_newline _ _ Hb).
  rewrite (strip_snoc_space _ _ isspace_newline). exact H0.
Qed.

Lemma parse_requirements_clean contents r :
  r ∈ parse_requirements contents -> clean_declaration r.
Proof.
  intros Hin. destruct (parse_requirements_elem _ _ Hin) as (Hne & Hhash & Hstrip).
  split; [destruct r; [congruence | reflexivity]|].
  split; [exact Hhash|]. split; [|exact Hstrip].
  unfold parse_requirements in Hin. apply list_elem_of_filter in Hin as [_ Hin].
  apply list_elem_of_In, in_concat in Hin as (l & Hl & Hr).
  apply in_map_iff in Hl as (c & <- & _). unfold requirement_lines in Hr.
  apply in_map_iff in Hr as (line & <- & Hline).
  apply requirement_no_newline.
  pose proof (lines_from_shape c EmptyString eq_refl) as HF.
  rewrite List.Forall_forall in HF. apply HF. exact Hline.
Qed.

Lemma lines_from_terminated b rest :
  Str.mem Str.newline b = false ->
  forall cur,
    Str.lines_from cur (b +:+ String Str.newline rest)
    = (Str.rev cur +:+ b +:+ String Str.newline EmptyString)
        :: Str.lines_from EmptyString rest.
Proof.
  induction b as [|c b IH]; intros Hb cur.
  - cbn [String.append Str.lines_from]. rewrite eqc_refl. now rewrite rev_cons.
  - cbn [Str.mem] in Hb. apply orb_false_iff in Hb as [Hc Hb].
    assert (Hc' : Str.eqc c Str.newline = false).
    { apply eqc_false. intros ->. rewrite eqc_refl in Hc. discriminate. }
    cbn [String.append Str.lines_from]. rewrite Hc', (IH Hb).
    rewrite rev_cons, append_assoc. reflexivity.
Qed.

Lemma readlines_terminated reqs :
  Forall (fun r => Str.mem Str.newline r = false) reqs ->
  Str.readlines (terminated_lines reqs)
  = map (fun r => r +:+ String Str.newline EmptyString) reqs.
Proof.
  unfold Str.readlines. induction 1 as [|r reqs Hr _ IH]; [reflexivity|].
  cbn [terminated_lines map]. rewrite (lines_from_terminated _ _ Hr), IH.
  reflexivity.
Qed.

Lemma manifest_terminated r reqs :
  manifest_text (r :: reqs) = terminated_lines (r :: reqs).
Proof.
  unfold manifest_text. revert r. induction reqs as [|x reqs IH]; intros r.
  - reflexivity.
  - rewrite join_cons, append_assoc, append_assoc.
    cbn [String.append terminated_lines]. f_equal. f_equal.
    specialize (IH x). cbn [terminated_lines] in IH. exact IH.
Qed.

Lemma clean_line_reads_back r :
  clean_declaration r ->
  Str.strip (Re.sub_comment (r +:+ String Str.newline EmptyString)) = r.
Proof.
  intros (_ & Hhash & Hnl & Hstrip). unfold Re.sub_comment.
  rewrite (sub_comment_from_snoc_newline _ _ Hnl).
  rewrite (strip_snoc_space _ _ isspace_newline).
  fold (Re.sub_comment r). now rewrite (sub_comment_none _ Hhash).
Qed.

Lemma manifest_reads_back reqs :
  Forall clean_declaration reqs ->
  parse_requirements [manifest_text reqs] = reqs.
Proof.
  intros Hclean. destruct reqs as [|r reqs]; [vm_compute; reflexivity|].
  unfold parse_requirements. cbn [map concat]. rewrite app_nil_r.
  unfold requirement_lines. rewrite manifest_terminated, readlines_terminated.
  2:{ eapply Forall_impl; [exact Hclean|]. intros x (_ & _ & H & _). exact H. }
  rewrite map_map.
  induction Hclean as [|x l Hx _ IH]; [reflexivity|].
  cbn [map]. rewrite (clean_line_reads_back _ Hx).
  rewrite filter_cons. destruct Hx as (Hne & _).
  destruct (decide (Str.nonempty x = true)) as [_|Hc]; [|contradiction].
  f_equal. exact IH.
Qed.

(** X1. The manifest that a build writes into the environment reads back,
    through the parser of [__init__], as the dependency list it was written
    from: the identity recomputed from the manifest of an environment is
    the identity of that environment. *)
Theorem manifest_round_trip (version : string) (contents : list string) :
  let reqs := parse_requirements contents in
  parse_requirements
    [Str.join (String Str.newline EmptyString) reqs +:+ String Str.newline EmptyString]
  = reqs
  /\ compute_deps_hash version
       (parse_requirements
          [Str.join (String Str.newline EmptyString) reqs
           +:+ String Str.newline EmptyString])
     = compute_deps_hash version reqs.
Proof.
  intros reqs.
  assert (H : parse_requirements [manifest_text reqs] = reqs).
  { apply manifest_reads_back. apply List.Forall_forall. intros r Hr.
    apply (parse_requirements_clean contents). now apply list_elem_of_In. }
  unfold manifest_text in H. rewrite H. split; reflexivity.
Qed.

(** ** The version and the list can both be read off the hashed message *)

Lemma app_eq_app_str (a b c d : string) :
  a +:+ b = c +:+ d ->
  (exists e, a = c +:+ e /\ d = e +:+ b) \/ (exists e, c = a +:+ e /\ b = e +:+ d).
Proof.
  revert c. induction a as [|x a IH]; intros c H.
  - right. exists c. split; [reflexivity | exact H].
  - destruct c as [|y c].
    + left. exists (String x a). split; [reflexivity | symmetry; exact H].
    + cbn [String.append] in H. injection H as -> H.
      destruct (IH _ H) as [(e & -> & ->) | (e & -> & ->)];
        [left | right]; exists e; split; reflexivity.
Qed.

Lemma rev_inj a b : Str.rev a = Str.rev b -> a = b.
Proof. intros H. rewrite <- (rev_involutive a), H. apply rev_involutive. Qed.

Lemma snoc_inj x y c d :
  x +:+ String c EmptyString = y +:+ String d EmptyString -> x = y /\ c = d.
Proof.
  intros H. apply (f_equal Str.rev) in H. rewrite !rev_app in H.
  change (Str.rev (String c EmptyString)) with (String c EmptyString) in H.
  change (Str.rev (String d EmptyString)) with (String d EmptyString) in H.
  cbn [String.append] in H. injection H as -> H. split; [now apply rev_inj | reflexivity].
Qed.

Lemma snoc_not_empty x c : x +:+ String c EmptyString <> EmptyString.
Proof. destruct x; discriminate. Qed.

Lemma guarded_app q a b :
  quote_guarded q a -> quote_guarded q b -> quote_guarded q (a +:+ b).
Proof.
  intros Ha Hb x y H. symmetry in H.
  destruct (app_eq_app_str _ _ _ _ H) as [(e & -> & Hb') | (e & Ha' & Hy)].
  - destruct e as [|c e].
    + cbn [String.append] in Hb'. destruct (Hb EmptyString y Hb') as (x' & Hx).
      symmetry in Hx. now apply snoc_not_empty in Hx.
    + destruct (Hb _ _ Hb') as (x' & ->). exists (a +:+ x').
      now rewrite append_assoc.
  - destruct e as [|c e].
    + rewrite append_empty_r in Ha'. subst a. cbn [String.append] in Hy.
      subst b. destruct (Hb EmptyString y eq_refl) as (x' & Hx).
      symmetry in Hx. now apply snoc_not_empty in Hx.
    + cbn [String.append] in Hy. injection Hy as <- _.
      exact (Ha _ _ Ha').
Qed.

Lemma guarded_empty q : quote_guarded q EmptyString.
Proof. intros [|] y H; discriminate. Qed.

Lemma guarded_plain q c t :
  c <> q -> quote_guarded q t ->
  (forall y, t <> String q y) ->
  quote_guarded q (String c t).
Proof.
  intros Hc Ht Hhd [|x0 x] y H.
  - cbn [String.append] in H. injection H as H _. contradiction.
  - cbn [String.append] in H. injection H as <- H.
    destruct x as [|x1 x].
    + now apply Hhd in H.
    + destruct (Ht _ _ H) as (x' & ->). exists (String c x'). reflexivity.
Qed.

Lemma guarded_escape q c :
  q <> Str.backslash -> quote_guarded q (String Str.backslash (String c EmptyString)).
Proof.
  intros Hq [|x0 [|x1 [|x2 x]]] y H; cbn [String.append] in H.
  - injection H as H _. congruence.
  - injection H as <- _ _. exists EmptyString. reflexivity.
  - discriminate.
  - discriminate.
Qed.

Lemma hexdigit_not_quote q n :
  q = Str.squote \/ q = Str.dquote -> Str.hexdigit n <> q.
Proof.
  intros Hq E. pose proof (hexdigit_lower n) as H. rewrite E in H.
  destruct Hq as [-> | ->]; discriminate.
Qed.

Lemma guarded_repr_char q c :
  q = Str.squote \/ q = Str.dquote -> quote_guarded q (Str.repr_char q c).
Proof.
  intros Hq.
  assert (Hbs : q <> Str.backslash) by (destruct Hq as [-> | ->]; discriminate).
  unfold Str.repr_char.
  destruct (Str.eqc c q || Str.eqc c Str.backslash) eqn:E1;
    [now apply guarded_escape|].
  apply orb_false_iff in E1 as [E1 _]. apply eqc_false in E1.
  destruct (Str.eqc c Str.tab); [now apply guarded_escape|].
  destruct (Str.eqc c Str.newline); [now apply guarded_escape|].
  destruct (Str.eqc c Str.cr); [now apply guarded_escape|].
  destruct ((Str.code c <? 32) || (127 <=? Str.code c)).
  - apply guarded_plain; [congruence| |intros y H; injection H as H _;
                                       destruct Hq as [-> | ->]; discriminate].
    apply guarded_plain; [destruct Hq as [-> | ->]; discriminate| |].
    + apply guarded_plain; [now apply hexdigit_not_quote| |].
      * apply guarded_plain; [now apply hexdigit_not_quote
                             | apply guarded_empty | discriminate].
      * intros y H. injection H as H _. now apply hexdigit_not_quote in H.
    + intros y H. injection H as H _. now apply hexdigit_not_quote in H.
  - apply guarded_plain; [exact E1 | apply guarded_empty | discriminate].
Qed.

Lemma guarded_repr_body q s :
  q = Str.squote \/ q = Str.dquote -> quote_guarded q (Str.repr_body q s).
Proof.
  intros Hq. induction s as [|c s IH]; cbn [Str.repr_body].
  - apply guarded_empty.
  - apply guarded_app; [now apply guarded_repr_char | exact IH].
Qed.

Lemma join_snoc sep l x :
  Str.join sep (l ++ [x])%list
  = match l with [] => x | _ => Str.join sep l +:+ sep +:+ x end.
Proof.
  induction l as [|y l IH]; [reflexivity|].
  change ((y :: l) ++ [x])%list with (y :: (l ++ [x]))%list.
  rewrite join_cons, IH. destruct l as [|z l].
  - reflexivity.
  - change (Str.join sep (y :: z :: l)) with (y +:+ sep +:+ Str.join sep (z :: l)).
    cbn [app]. rewrite !append_assoc. reflexivity.
Qed.

(** What stands before the last item of a list: it ends with the bracket
    or with the blank of a separator. *)
Lemma items_snoc l x :
  exists pre,
    "[" +:+ repr_items (l ++ [x])%list = pre +:+ Str.repr x
    /\ (pre = "[" /\ l = []
        \/ pre = ("[" +:+ repr_items l +:+ ",") +:+ " " /\ l <> []).
Proof.
  unfold repr_items. rewrite map_app. cbn [map]. rewrite join_snoc.
  destruct l as [|y l].
  - exists "[". split; [reflexivity | left; split; reflexivity].
  - eexists. split; [|right; split; [reflexivity | discriminate]].
    cbn [map]. rewrite !append_assoc. reflexivity.
Qed.

Lemma ends_with_app c a b : ends_with c b -> ends_with c (a +:+ b).
Proof. intros (x & ->). exists (a +:+ x). now rewrite append_assoc. Qed.

Lemma ends_with_unique c d s : ends_with c s -> ends_with d s -> c = d.
Proof. intros (x & ->) (y & H). now apply snoc_inj in H. Qed.

Lemma pre_not_backslash (pre : string) l :
  (pre = "[" /\ l = []
   \/ pre = ("[" +:+ repr_items l +:+ ",") +:+ " " /\ l <> []) ->
  ~ ends_with Str.backslash pre.
Proof.
  intros H Hb.
  assert (Hc : ends_with "[" pre \/ ends_with " " pre).
  { destruct H as [[-> _] | [-> _]].
    - left. exists EmptyString. reflexivity.
    - right. eexists. reflexivity. }
  destruct Hc as [Hc | Hc]; pose proof (ends_with_unique _ _ _ Hb Hc); discriminate.
Qed.

Lemma repr_split x :
  exists q, (q = Str.squote \/ q = Str.dquote)
            /\ Str.repr x
               = (String q (Str.repr_body q x)) +:+ String q EmptyString.
Proof.
  exists (Str.repr_quote x). split; [apply repr_quote_cases | reflexivity].
Qed.

(** No [repr] of a list is a proper end of another one. *)
Lemma repr_items_suffix (A : list string) :
  forall (B : list string) (w : string),
    w +:+ "[" +:+ repr_items B = "[" +:+ repr_items A -> w = EmptyString.
Proof.
  induction A as [|a A IH] using rev_ind; intros B w H.
  - apply (f_equal String.length) in H. rewrite length_append in H.
    destruct w; [reflexivity | simpl in H; lia].
  - revert H. destruct B as [|b B _] using rev_ind; intros H.
    + destruct (items_snoc A a) as (pre & E & _). rewrite E in H.
      destruct (repr_split a) as (q & Hq & Er). rewrite Er in H.
      change (repr_items []) with EmptyString in H.
      rewrite append_empty_r in H. rewrite <- (append_assoc pre) in H.
      apply snoc_inj in H as [_ H]. destruct Hq as [-> | ->]; discriminate.
    + destruct (items_snoc A a) as (preA & EA & HA).
      destruct (items_snoc B b) as (preB & EB & HB).
      rewrite EA, EB in H.
      destruct (repr_split a) as (qa & Hqa & Era).
      destruct (repr_split b) as (qb & Hqb & Erb). rewrite Era, Erb in H.
      rewrite <- (append_assoc preA), <- (append_assoc preB) in H.
      rewrite <- (append_assoc w) in H.
      apply snoc_inj in H as [H Hq]. subst qb.
      pose proof (guarded_repr_body qa a Hqa) as Ga.
      pose proof (guarded_repr_body qa b Hqa) as Gb.
      assert (Hpre : w +:+ preB = preA).
      { rewrite <- (append_assoc w) in H.
        destruct (app_eq_app_str _ _ _ _ H) as [(e & He & Hb) | (e & He & Hb)].
        - destruct e as [|c e]; [now rewrite append_empty_r in He|].
          cbn [String.append] in Hb. injection Hb as <- Hb.
          destruct (Ga _ _ Hb) as (x' & ->). exfalso.
          apply (pre_not_backslash _ _ HB).
          assert (Hw : ends_with Str.backslash (w +:+ preB)).
          { rewrite He. apply ends_with_app. exists (String qa x'). reflexivity. }
          destruct Hw as (z & Hz).
          destruct (app_eq_app_str _ _ _ _ Hz) as [(u & _ & Hu) | (u & _ & Hu)].
          + destruct u as [|c u].
            * cbn [String.append] in Hu. exists EmptyString. now rewrite <- Hu.
            * cbn [String.append] in Hu. injection Hu as _ Hu.
              apply (f_equal String.length) in Hu.
              destruct HB as [[-> _] | [-> _]];
                rewrite !length_append in Hu; simpl in Hu; lia.
          + eexists. exact Hu.
        - destruct e as [|c e]; [rewrite append_empty_r in He; now symmetry|].
          cbn [String.append] in Hb. injection Hb as <- Hb.
          destruct (Gb _ _ Hb) as (x' & ->). exfalso.
          apply (pre_not_backslash _ _ HA). rewrite He.
          apply ends_with_app. exists (String qa x'). reflexivity. }
      destruct HA as [[-> ->] | [-> HA]], HB as [[-> ->] | [-> HB]].
      * apply (f_equal String.length) in Hpre. rewrite length_append in Hpre.
        destruct w; [reflexivity | simpl in Hpre; lia].
      * apply (f_equal String.length) in Hpre. rewrite !length_append in Hpre.
        simpl in Hpre. lia.
      * change (w +:+ "[") with (w +:+ String "[" EmptyString) in Hpre.
        apply snoc_inj in Hpre as [_ Hpre]. discriminate.
      * rewrite <- append_assoc in Hpre. apply snoc_inj in Hpre as [Hpre _].
        change ("[" +:+ repr_items B +:+ ",")
          with (("[" +:+ repr_items B) +:+ String "," EmptyString) in Hpre.
        change ("[" +:+ repr_items A +:+ ",")
          with (("[" +:+ repr_items A) +:+ String "," EmptyString) in Hpre.
        rewrite <- append_assoc in Hpre. apply snoc_inj in Hpre as [Hpre _].
        exact (IH B w Hpre).
Qed.

Lemma repr_list_suffix (w : string) (X Y : list string) :
  Str.repr_list X = w +:+ Str.repr_list Y -> w = EmptyString.
Proof.
  intros E. unfold Str.repr_list in E.
  fold (repr_items X) in E. fold (repr_items Y) in E.
  change ("[" +:+ repr_items X +:+ "]")
    with (String "[" (repr_items X +:+ String "]" EmptyString)) in E.
  change ("[" +:+ repr_items Y +:+ "]")
    with (String "[" (repr_items Y +:+ String "]" EmptyString)) in E.
  change (String "[" (repr_items X +:+ String "]" EmptyString))
    with (("[" +:+ repr_items X) +:+ String "]" EmptyString) in E.
  change (String "[" (repr_items Y +:+ String "]" EmptyString))
    with (("[" +:+ repr_items Y) +:+ String "]" EmptyString) in E.
  rewrite <- append_assoc in E. apply snoc_inj in E as [E _].
  symmetry in E. exact (repr_items_suffix X Y w E).
Qed.

Lemma hash_input_reads_back v1 v2 A B :
  hash_input v1 A = hash_input v2 B -> v1 = v2 /\ A = B.
Proof.
  unfold hash_input. intros H.
  assert (Hv : v1 = v2).
  { destruct (app_eq_app_str _ _ _ _ H) as [(e & -> & E) | (e & -> & E)].
    - apply repr_list_suffix in E. subst e. now rewrite append_empty_r.
    - apply repr_list_suffix in E. subst e. now rewrite append_empty_r. }
  subst v2. split; [reflexivity|]. exact (hash_input_inj _ _ _ H).
Qed.

(** X2. The runtime version and the dependency list can both be read off
    the hashed message, whatever the version string holds (brackets and
    quotes as well): environments for two runtimes, or for two lists, have
    different identities unless SHA-224, cut to forty digits, collides on
    the two messages. *)
Theorem identity_separates_versions (v1 v2 : string) (A B : list string) :
  (v1, A) <> (v2, B) ->
  hash_input v1 A <> hash_input v2 B
  /\ (compute_deps_hash v1 A <> compute_deps_hash v2 B
      \/ digest_collision (hash_input v1 A) (hash_input v2 B)).
Proof.
  intros Hne.
  assert (Hmsg : hash_input v1 A <> hash_input v2 B).
  { intros H. apply hash_input_reads_back in H as [-> ->]. now apply Hne. }
  split; [exact Hmsg|].
  destruct (decide (compute_deps_hash v1 A = compute_deps_hash v2 B))
    as [Heq|Hdiff]; [right | left; exact Hdiff].
  split; [exact Hmsg | exact Heq].
Qed.

Lemma version_separation_witness :
  ("2.7.18 [GCC 8.3.0]", ["x['y']"; "z"]) <> ("2.7.18 [GCC 8.3.0]['x", ["y"; "z"])
  /\ hash_input "2.7.18 [GCC 8.3.0]" ["x['y']"; "z"]
     <> hash_input "2.7.18 [GCC 8.3.0]['x" ["y"; "z"]
  /\ (compute_deps_hash "2.7.18 [GCC 8.3.0]" ["x['y']"; "z"]
      <> compute_deps_hash "2.7.18 [GCC 8.3.0]['x" ["y"; "z"]
      \/ digest_collision (hash_input "2.7.18 [GCC 8.3.0]" ["x['y']"; "z"])
                          (hash_input "2.7.18 [GCC 8.3.0]['x" ["y"; "z"])).
Proof.
  assert (H : ("2.7.18 [GCC 8.3.0]", ["x['y']"; "z"])
              <> ("2.7.18 [GCC 8.3.0]['x", ["y"; "z"])) by discriminate.
  split; [exact H|].
  exact (identity_separates_versions _ _ _ _ H).
Defined.

(** ** Where the log of a package goes *)

Lemma alpha_hyphen_not c d :
  Re.is_alpha_hyphen d = false -> all_chars Re.is_alpha_hyphen c = true ->
  Str.mem d c = false.
Proof.
  intros Hd. induction c as [|x c IH]; cbn [all_chars Str.mem]; [reflexivity|].
  intros H. apply andb_true_iff in H as [Hx Hc]. rewrite (IH Hc), orb_false_r.
  apply eqc_false. intros ->. congruence.
Qed.

Lemma alpha_is_alpha_hyphen t :
  all_chars Re.is_alpha t = true -> all_chars Re.is_alpha_hyphen t = true.
Proof.
  induction t as [|x t IH]; cbn [all_chars]; [reflexivity|].
  intros H. apply andb_true_iff in H as [Hx Ht].
  rewrite (IH Ht), andb_true_r. unfold Re.is_alpha_hyphen. now rewrite Hx.
Qed.

Lemma mem_false_head c x s : Str.mem c (String x s) = false -> Str.eqc x c = false.
Proof.
  cbn [Str.mem]. intros H. apply orb_false_iff in H as [H _].
  apply eqc_false. apply eqc_false in H. congruence.
Qed.

Lemma match_path_from_no_slash t best :
  Str.mem "/" t = false -> Str.mem Str.newline t = false ->
  Re.match_path_from t best = best.
Proof.
  induction t as [|x t IH]; [reflexivity|]. intros H1 H2.
  cbn [Re.match_path_from].
  rewrite (mem_false_head _ _ _ H1), (mem_false_head _ _ _ H2).
  cbn [Str.mem] in H1, H2.
  apply orb_false_iff in H1 as [_ H1]. apply orb_false_iff in H2 as [_ H2].
  now apply IH.
Qed.

Lemma search_word_no_blank t : Str.mem " " t = false -> Re.search_word t = None.
Proof.
  induction t as [|x t IH]; [reflexivity|]. intros H.
  cbn [Re.search_word]. rewrite (mem_false_head _ _ _ H).
  cbn [Str.mem] in H. apply orb_false_iff in H as [_ H]. now apply IH.
Qed.

Lemma package_short_of_token t :
  all_chars Re.is_alpha_hyphen t = true -> package_short t = t.
Proof.
  intros H. unfold package_short, Re.match_path.
  rewrite match_path_from_no_slash, search_word_no_blank;
    [reflexivity | | |]; now apply alpha_hyphen_not.
Qed.

Lemma package_short_cases package :
  package_short package = package
  \/ all_chars Re.is_alpha_hyphen (package_short package) = true.
Proof.
  destruct (package_short_token package) as [(pre & post & _ & _ & H)
                                            | [(pre & rest & _ & _ & _ & H) | H]].
  - now right.
  - right. now apply alpha_is_alpha_hyphen.
  - now left.
Qed.

Lemma cut_last_slash_none b :
  Str.mem "/" b = false -> OsPath.cut_last_slash b = None.
Proof.
  induction b as [|x b IH]; [reflexivity|]. intros H.
  cbn [OsPath.cut_last_slash]. rewrite (mem_false_head _ _ _ H).
  cbn [Str.mem] in H. apply orb_false_iff in H as [_ H]. now rewrite IH.
Qed.

Lemma cut_last_slash_join a b :
  Str.mem "/" b = false ->
  OsPath.cut_last_slash (a +:+ String "/" b) = Some (a +:+ String "/" EmptyString, b).
Proof.
  intros H. induction a as [|x a IH]; cbn [String.append OsPath.cut_last_slash].
  - rewrite (cut_last_slash_none _ H). now rewrite eqc_refl.
  - now rewrite IH.
Qed.

Lemma no_trailing_slash venv :
  Str.nonempty venv = true -> Str.endswith "/" venv = false ->
  exists c r, Str.rev venv = String c r /\ Str.eqc c "/" = false.
Proof.
  intros Hne He. unfold Str.endswith in He.
  change (Str.rev "/") with (String "/"%char EmptyString) in He.
  destruct (Str.rev venv) as [|c r] eqn:E.
  - apply (f_equal Str.rev) in E. rewrite rev_involutive in E.
    subst venv. discriminate.
  - exists c, r. split; [reflexivity|]. cbn [Str.startswith] in He.
    rewrite andb_true_r in He. apply eqc_false. apply eqc_false in He. congruence.
Qed.

Lemma all_slashes_app a b :
  OsPath.all_slashes (a +:+ b) = OsPath.all_slashes a && OsPath.all_slashes b.
Proof.
  induction a as [|x a IH]; cbn [String.append OsPath.all_slashes]; [reflexivity|].
  now rewrite IH, andb_assoc.
Qed.

Lemma all_slashes_rev s : OsPath.all_slashes (Str.rev s) = OsPath.all_slashes s.
Proof.
  induction s as [|x s IH]; [reflexivity|].
  rewrite rev_cons, all_slashes_app, IH. cbn [OsPath.all_slashes].
  now rewrite andb_true_r, andb_comm.
Qed.

(** [os.path.split] undoes [os.path.join] for a name without a slash. *)
Lemma split_join venv name :
  Str.nonempty venv = true -> Str.endswith "/" venv = false ->
  Str.mem "/" name = false ->
  OsPath.split (OsPath.join venv name) = (venv, name).
Proof.
  intros Hne He Hn.
  assert (Hs : Str.startswith "/" name = false).
  { destruct name as [|x name]; [reflexivity|]. cbn [Str.startswith].
    apply mem_false_head in Hn. rewrite andb_true_r.
    apply eqc_false. apply eqc_false in Hn. congruence. }
  unfold OsPath.join. rewrite Hs, Hne, He. cbn [negb orb].
  unfold OsPath.split. cbn [String.append].
  rewrite (cut_last_slash_join _ _ Hn).
  destruct (no_trailing_slash _ Hne He) as (c & r & Er & Hc).
  assert (Hv : OsPath.all_slashes venv = false).
  { rewrite <- all_slashes_rev, Er. cbn [OsPath.all_slashes]. now rewrite Hc. }
  rewrite all_slashes_app, Hv. cbn [andb negb].
  assert (Hn' : Str.nonempty (venv +:+ String "/" EmptyString) = true)
    by (destruct venv; reflexivity).
  rewrite Hn'. cbn [andb]. f_equal.
  unfold OsPath.rstrip_slashes. rewrite rev_app, Er.
  change (Str.rev (String "/" EmptyString)) with (String "/"%char EmptyString).
  cbn [String.append OsPath.lstrip_slashes]. rewrite eqc_refl, Hc.
  rewrite <- Er. apply rev_involutive.
Qed.

(** X3. The log of a package installation is a file of the environment
    directory itself, named after the token of the declaration, whenever
    that token holds no slash; a token taken by one of the two patterns
    never holds one. The token of a token is that token. *)
Theorem package_log_sits_in_environment (venv package : string) :
  Str.nonempty venv = true ->
  Str.endswith "/" venv = false ->
  Str.mem "/" package = false \/ package_short package <> package ->
  Str.mem "/" (package_short package) = false
  /\ OsPath.split (pip_logfilename venv package)
     = (venv, package_short package +:+ ".out")
  /\ OsPath.dirname (pip_logfilename venv package) = venv
  /\ package_short (package_short package) = package_short package.
Proof.
  intros Hne He Hp.
  assert (Hm : Str.mem "/" (package_short package) = false).
  { destruct (package_short_cases package) as [E | E].
    - destruct Hp as [Hp | Hp]; [now rewrite E | contradiction].
    - now apply alpha_hyphen_not. }
  assert (Hs : OsPath.split (pip_logfilename venv package)
               = (venv, package_short package +:+ ".out")).
  { unfold pip_logfilename. apply split_join; [exact Hne | exact He |].
    rewrite mem_app, Hm. reflexivity. }
  split; [exact Hm|]. split; [exact Hs|].
  split; [unfold OsPath.dirname; now rewrite Hs|].
  destruct (package_short_cases package) as [E | E].
  - now rewrite E.
  - now apply package_short_of_token.
Qed.

Lemma package_log_witness :
  Str.nonempty "/srv/venv/abc" = true
  /\ Str.endswith "/" "/srv/venv/abc" = false
  /\ package_short "git+https://github.com/jansel/opentuner"
     <> "git+https://github.com/jansel/opentuner"
  /\ Str.mem "/" (package_short "git+https://github.com/jansel/opentuner") = false
  /\ OsPath.split (pip_logfilename "/srv/venv/abc" "git+https://github.com/jansel/opentuner")
     = ("/srv/venv/abc", package_short "git+https://github.com/jansel/opentuner" +:+ ".out")
  /\ OsPath.dirname (pip_logfilename "/srv/venv/abc" "git+https://github.com/jansel/opentuner")
     = "/srv/venv/abc"
  /\ package_short (package_short "git+https://github.com/jansel/opentuner")
     = package_short "git+https://github.com/jansel/opentuner".
Proof.
  assert (H1 : Str.nonempty "/srv/venv/abc" = true) by reflexivity.
  assert (H2 : Str.endswith "/" "/srv/venv/abc" = false) by reflexivity.
  assert (H3 : package_short "git+https://github.com/jansel/opentuner"
               <> "git+https://github.com/jansel/opentuner")
    by (vm_compute; discriminate).
  split; [exact H1|]. split; [exact H2|]. split; [exact H3|].
  exact (package_log_sits_in_environment _ _ H1 H2 (or_intror H3)).
Defined.

(** ** The steps that swallow their failures *)

Lemma call_installer_never_hangs env name cmd logfilename s :
  fst (call_installer env name cmd logfilename s) <> Hangs.
Proof.
  rewrite call_installer_eq. unfold after_run.
  destruct logfilename as [f|].
  - destruct (files (world s) !! f) as [[| |]|]; cbn [fst];
      try discriminate; destruct (_ =? 0); discriminate.
  - cbn [fst]. destruct (_ =? 0); discriminate.
Qed.

Lemma makedirs_never_hangs env p s : fst (makedirs env p s) <> Hangs.
Proof.
  unfold makedirs. rewrite bind_get_files.
  destruct (files (world s) !! p); [discriminate|].
  destruct (makedirs_meets env p); discriminate.
Qed.

Lemma makedirs_keeps_obj env p s : obj (snd (makedirs env p s)) = obj s.
Proof.
  unfold makedirs. rewrite bind_get_files.
  destruct (files (world s) !! p); [reflexivity|].
  destruct (makedirs_meets env p); reflexivity.
Qed.

Lemma swallowed (m : M unit) s :
  fst (m s) <> Hangs ->
  fst (try_except m any_exception (mret tt) s) = Ok tt
  /\ snd (try_except m any_exception (mret tt) s) = snd (m s).
Proof.
  unfold try_except. destruct (m s) as [[[]|e|] s1]; cbn [fst snd]; intros H.
  - split; reflexivity.
  - split; reflexivity.
  - contradiction.
Qed.

(** X4. [mkdirs] and [submodule_update] never fail and never wait: a
    directory that cannot be created and a submodule command that exits
    with an error are passed over in silence. [mkdirs] leaves the object
    alone and does nothing when the directory is there; [submodule_update]
    does nothing without a submodule path, and otherwise leaves the state
    that its one command leaves, counted as a step. *)
Theorem best_effort_steps_never_fail (env : Env) (s : State) :
  let o := obj s in
  fst (mkdirs env s) = Ok tt
  /\ obj (snd (mkdirs env s)) = o
  /\ (if path_exists (files (world s)) (virtualenv_dir o)
      then snd (mkdirs env s) = s
      else snd (mkdirs env s) = snd (makedirs env (virtualenv_dir o) s))
  /\ fst (submodule_update env s) = Ok tt
  /\ (if truthy (submodule_update_path o)
      then snd (submodule_update env s)
           = snd (call_installer env "Updating submodules" (submodule_command o)
                    (Some (OsPath.join (virtualenv_dir o) "submodules.log")) s)
           /\ current_step (obj (snd (submodule_update env s))) = current_step o + 1
      else snd (submodule_update env s) = s).
Proof.
  intros o. subst o.
  assert (Hm : fst (mkdirs env s) = Ok tt
               /\ obj (snd (mkdirs env s)) = obj s
               /\ (if path_exists (files (world s)) (virtualenv_dir (obj s))
                   then snd (mkdirs env s) = s
                   else snd (mkdirs env s)
                        = snd (makedirs env (virtualenv_dir (obj s)) s))).
  { unfold mkdirs. rewrite bind_get_obj, bind_os_path_exists.
    destruct (path_exists (files (world s)) (virtualenv_dir (obj s))); cbn [negb].
    - repeat split.
    - destruct (swallowed (makedirs env (virtualenv_dir (obj s))) s
                  (makedirs_never_hangs _ _ _)) as [H1 H2].
      split; [exact H1|]. split; [|exact H2].
      rewrite H2. apply makedirs_keeps_obj. }
  destruct Hm as (H1 & H2 & H3).
  split; [exact H1|]. split; [exact H2|]. split; [exact H3|].
  unfold submodule_update. rewrite bind_get_obj.
  destruct (truthy (submodule_update_path (obj s))); [|split; reflexivity].
  fold (submodule_command (obj s)).
  destruct (swallowed
              (call_installer env "Updating submodules" (submodule_command (obj s))
                 (Some (OsPath.join (virtualenv_dir (obj s)) "submodules.log"))) s
              (call_installer_never_hangs _ _ _ _ _)) as [E1 E2].
  split; [exact E1|]. split; [exact E2|].
  rewrite E2, call_installer_eq. unfold after_run, stepped, with_files.
  destruct (files (world s) !! _) as [[| |]|]; reflexivity.
Qed.

(** ** What one command leaves behind *)

(** X5. [call_installer] counts one step whatever happens. The log file
    being opened, the command starts from the caller's files with the log
    file emptied, its run is the only addition to the record, and the call
    returns normally when the command exits with status 0 and raises the
    one message that names the log file when it exits with another status
    (an empty log file name stands for no log file in the source and is
    left aside). When the log file cannot be opened the error is the one of
    the log file, no command is run and no file is changed. *)
Theorem call_installer_contract (env : Env) (name cmd : string)
        (logfilename : option string) (s : State) :
  logfilename <> Some EmptyString ->
  let r := call_installer env name cmd logfilename s in
  let started := exec env cmd (files_at_start logfilename (files (world s))) in
  current_step (obj (snd r)) = current_step (obj s) + 1
  /\ match fst r with
     | Ok _ =>
         fst started = 0
         /\ files (world (snd r)) = snd started
         /\ trace (world (snd r))
            = (trace (world s) ++ [Run name cmd logfilename 0])%list
     | Raise (Exception msg) =>
         fst started <> 0
         /\ msg = "Failed to update dependencies (see " +:+ log_label logfilename
                  +:+ ")" +:+ String Str.newline EmptyString
         /\ files (world (snd r)) = snd started
         /\ trace (world (snd r))
            = (trace (world s) ++ [Run name cmd logfilename (fst started)])%list
     | Raise (IOError e p) =>
         logfilename = Some p /\ world (snd r) = world s
     | _ => False
     end.
Proof.
  intros _ r started. subst r started. rewrite call_installer_eq.
  unfold files_at_start.
  assert (Hrun : forall fs s0,
             current_step (obj s0) = current_step (obj s) + 1 ->
             files (world s0) = fs -> trace (world s0) = trace (world s) ->
             let r := after_run env name cmd logfilename s0 in
             current_step (obj (snd r)) = current_step (obj s) + 1
             /\ match fst r with
                | Ok _ =>
                    fst (exec env cmd fs) = 0
                    /\ files (world (snd r)) = snd (exec env cmd fs)
                    /\ trace (world (snd r))
                       = (trace (world s) ++ [Run name cmd logfilename 0])%list
                | Raise (Exception msg) =>
                    fst (exec env cmd fs) <> 0
                    /\ msg = "Failed to update dependencies (see "
                             +:+ log_label logfilename
                             +:+ ")" +:+ String Str.newline EmptyString
                    /\ files (world (snd r)) = snd (exec env cmd fs)
                    /\ trace (world (snd r))
                       = (trace (world s)
                            ++ [Run name cmd logfilename (fst (exec env cmd fs))])%list
                | Raise (IOError e p) =>
                    logfilename = Some p /\ world (snd r) = world s
                | _ => False
                end).
  { intros fs s0 Hstep Hfs Htr. unfold after_run, failure_message.
    cbn [fst snd obj world files trace set_files record]. rewrite Hfs, Htr.
    split; [exact Hstep|].
    destruct (fst (exec env cmd fs) =? 0) eqn:Ez.
    - apply Z.eqb_eq in Ez. rewrite Ez. repeat split; reflexivity.
    - apply Z.eqb_neq in Ez. repeat split; [exact Ez | reflexivity..]. }
  destruct logfilename as [f|].
  - destruct (files (world s) !! f) as [[| |]|] eqn:E;
      try (apply Hrun; reflexivity).
    cbn [fst snd]. split; [reflexivity|]. repeat split.
  - apply Hrun; reflexivity.
Qed.

Lemma installer_contract_witness :
  Some "/venv/h/venv.log" <> Some EmptyString
  /\ current_step
       (obj (snd (call_installer (demo_env 1 7 run_ok) "Creating venv /venv/h"
                    "virtualenv --always-copy /venv/h" (Some "/venv/h/venv.log")
                    demo_state)))
     = current_step (obj demo_state) + 1.
Proof.
  assert (H : Some "/venv/h/venv.log" <> Some EmptyString) by discriminate.
  split; [exact H|].
  exact (proj1 (call_installer_contract (demo_env 1 7 run_ok) "Creating venv /venv/h"
                  "virtualenv --always-copy /venv/h" (Some "/venv/h/venv.log")
                  demo_state H)).
Defined.

(** ** The free space of a directory that may not exist yet *)

Lemma startswith_refl p : Str.startswith p p = true.
Proof. apply startswith_spec. exists EmptyString. now rewrite append_empty_r. Qed.

Lemma startswith_trans a b c :
  Str.startswith a b = true -> Str.startswith b c = true -> Str.startswith a c = true.
Proof.
  rewrite !startswith_spec. intros (r1 & ->) (r2 & ->).
  exists (r1 +:+ r2). now rewrite append_assoc.
Qed.

Lemma lstrip_slashes_suffix x : exists y, x = y +:+ OsPath.lstrip_slashes x.
Proof.
  induction x as [|c x (y & IH)]; [now exists EmptyString|].
  cbn [OsPath.lstrip_slashes]. destruct (Str.eqc c "/").
  - exists (String c y). cbn [String.append]. now rewrite <- IH.
  - now exists EmptyString.
Qed.

Lemma rstrip_slashes_prefix h : Str.startswith (OsPath.rstrip_slashes h) h = true.
Proof.
  apply startswith_spec. unfold OsPath.rstrip_slashes.
  destruct (lstrip_slashes_suffix (Str.rev h)) as (y & Hy).
  exists (Str.rev y). rewrite <- rev_app, <- Hy. now rewrite rev_involutive.
Qed.

Lemma dirname_prefix p : Str.startswith (OsPath.dirname p) p = true.
Proof.
  unfold OsPath.dirname, OsPath.split.
  destruct (OsPath.cut_last_slash p) as [[h t]|] eqn:E; [|reflexivity].
  destruct (cut_last_slash_shape _ _ _ E) as (h' & -> & ->). cbn [fst].
  assert (Hh : Str.startswith (h' +:+ "/") ((h' +:+ "/") +:+ t) = true)
    by (apply startswith_spec; now exists t).
  destruct (Str.nonempty (h' +:+ "/") && negb (OsPath.all_slashes (h' +:+ "/")));
    [|exact Hh].
  exact (startswith_trans _ _ _ (rstrip_slashes_prefix _) Hh).
Qed.

Lemma dirname_strictly_shorter p :
  OsPath.all_slashes p = false ->
  (String.length (OsPath.dirname p) < String.length p)%nat.
Proof.
  intros Ea. unfold OsPath.dirname, OsPath.split.
  destruct (OsPath.cut_last_slash p) as [[h t]|] eqn:E.
  - destruct (cut_last_slash_shape _ _ _ E) as (h' & -> & ->).
    cbn [fst]. rewrite !length_append. cbn [String.length].
    destruct (Str.nonempty (h' +:+ "/") && negb (OsPath.all_slashes (h' +:+ "/"))) eqn:Eh.
    + pose proof (rstrip_slashes_snoc h'). lia.
    + destruct t as [|c t]; [|rewrite length_append; cbn [String.length]; lia].
      rewrite append_empty_r in Ea.
      rewrite Ea in Eh. cbn [negb] in Eh. rewrite andb_true_r in Eh.
      rewrite nonempty_app_r in Eh. discriminate.
  - cbn [fst String.length]. destruct p; [discriminate | simpl; lia].
Qed.

(** Where the loop stops: at a prefix of the path that exists or is empty. *)
Lemma nearest_existing_some fs :
  forall n path p,
    nearest_existing fs n path = Some p ->
    Str.startswith p path = true
    /\ (path_exists fs p = true \/ p = EmptyString).
Proof.
  induction n as [|n IH]; intros path p; cbn [nearest_existing];
    destruct (negb (path_exists fs path) && Str.nonempty path) eqn:E;
    try discriminate.
  - intros H. injection H as <-. split; [apply startswith_refl|].
    apply andb_false_iff in E as [E|E].
    + left. now apply negb_false_iff.
    + right. destruct path; [reflexivity | discriminate].
  - intros H. destruct (IH _ _ H) as [H1 H2]. split; [|exact H2].
    exact (startswith_trans _ _ _ H1 (dirname_prefix path)).
  - intros H. injection H as <-. split; [apply startswith_refl|].
    apply andb_false_iff in E as [E|E].
    + left. now apply negb_false_iff.
    + right. destruct path; [reflexivity | discriminate].
Qed.

(** The loop runs for ever only at a run of slashes that does not exist. *)
Lemma nearest_existing_none fs :
  forall n path,
    (String.length path < n)%nat ->
    nearest_existing fs n path = None ->
    exists p, Str.startswith p path = true
              /\ Str.nonempty p = true
              /\ OsPath.all_slashes p = true
              /\ path_exists fs p = false.
Proof.
  induction n as [|n IH]; intros path Hlen; [lia|].
  cbn [nearest_existing].
  destruct (negb (path_exists fs path) && Str.nonempty path) eqn:E; [|discriminate].
  apply andb_true_iff in E as [E1 E2]. apply negb_true_iff in E1.
  intros H. destruct (OsPath.all_slashes path) eqn:Ea.
  - exists path. split; [apply startswith_refl|]. auto.
  - pose proof (dirname_strictly_shorter _ Ea) as Hs.
    destruct (IH (OsPath.dirname path) ltac:(lia) H) as (p & Hp & Hrest).
    exists p. split; [|exact Hrest].
    exact (startswith_trans _ _ _ Hp (dirname_prefix path)).
Qed.


(** ** The search for an archive *)

Lemma search_archive_in_find env dirs :
  forall s,
    search_archive_in env dirs s
    = match find (has_tarball (files (world s)) (obj s)) dirs with
      | Some d => restore_from env d s
      | None => (Ok false, s)
      end.
Proof.
  induction dirs as [|d dirs IH]; intros s; cbn [search_archive_in find];
    [reflexivity|].
  rewrite bind_get_obj, bind_os_path_exists. unfold has_tarball at 1, tarball_in at 1.
  destruct (path_exists (files (world s)) _); [reflexivity | apply IH].
Qed.

Lemma submodule_update_effect env s :
  let r := submodule_update env s in
  fst r = Ok tt
  /\ virtualenv_dir (obj (snd r)) = virtualenv_dir (obj s)
  /\ total_steps (obj (snd r)) = total_steps (obj s)
  /\ exists sub,
      trace (world (snd r)) = (trace (world s) ++ sub)%list
      /\ submodule_events (obj s) sub.
Proof.
  intros r. subst r. unfold submodule_update. rewrite bind_get_obj.
  destruct (truthy (submodule_update_path (obj s))).
  - fold (submodule_command (obj s)).
    destruct (swallowed
                (call_installer env "Updating submodules" (submodule_command (obj s))
                   (Some (OsPath.join (virtualenv_dir (obj s)) "submodules.log"))) s
                (call_installer_never_hangs _ _ _ _ _)) as [E1 E2].
    split; [exact E1|]. rewrite E2, call_installer_eq.
    unfold after_run, stepped, with_files.
    destruct (files (world s) !! _) as [[| |]|];
      cbn [fst snd obj world trace record set_files virtualenv_dir total_steps
             set_current_step];
      (split; [reflexivity|]); (split; [reflexivity|]);
      first [ exists []; split; [now rewrite app_nil_r | now left]
            | eexists; split; [reflexivity | right; eexists; reflexivity] ].
  - cbn [fst snd mret M_ret]. repeat split. exists []. split; [now rewrite app_nil_r | now left].
Qed.

Lemma restore_from_effect env d s :
  let o := obj s in
  let r := restore_from env d s in
  virtualenv_dir (obj (snd r)) = virtualenv_dir o
  /\ total_steps (obj (snd r)) = 2
  /\ exists fs' sub,
      let status := fst (exec env (extract_cmd_from d o) fs') in
      trace (world (snd r))
      = (trace (world s)
           ++ Run (extract_name_from d o) (extract_cmd_from d o) None status :: sub)%list
      /\ (if status =? 0
          then fst r = Ok true /\ submodule_events o sub
          else fst r = Raise (Exception (failure_message None)) /\ sub = []).
Proof.
  intros o r. subst o r. unfold restore_from. rewrite bind_get_obj, bind_unfold.
  destruct (makedirs_caught env (OsPath.dirname (virtualenv_dir (obj s))) s) as [fs' ->].
  rewrite bind_with_obj, bind_unfold, call_installer_eq.
  unfold after_run. cbn [with_files stepped obj world files set_files].
  destruct (fst (exec env (extract_cmd_from d (obj s)) fs') =? 0) eqn:Ez.
  - rewrite bind_unfold.
    set (s1 := mkState _ _).
    destruct (submodule_update_effect env s1) as (H1 & H2 & H3 & sub & H4 & H5).
    destruct (submodule_update env s1) as [x s2]. cbn [fst snd] in *. subst x.
    cbn [mret M_ret fst snd].
    split; [rewrite H2; reflexivity|]. split; [rewrite H3; reflexivity|].
    exists fs', sub. cbn zeta. rewrite Ez. split.
    + rewrite H4. subst s1. cbn [world trace record set_files].
      now rewrite <- app_assoc.
    + split; [reflexivity | exact H5].
  - cbn [fst snd obj world trace record set_files virtualenv_dir total_steps
           set_current_step set_total_steps].
    split; [reflexivity|]. split; [reflexivity|].
    exists fs', []. cbn zeta. rewrite Ez. split; [reflexivity|]. split; reflexivity.
Qed.

(** X7. The search for an archive looks into the archive directory first
    and then into the search directories in their order, and unpacks the
    first archive of the identity that it finds, from where it found it.
    With no archive anywhere it answers no, runs nothing and changes
    nothing. Otherwise the unpacking is the first command recorded; the
    answer is yes when it exits with status 0 (a submodule update may
    follow it), and its failure is raised, not answered with no. *)
Theorem search_takes_first_archive (env : Env) (s : State) :
  let o := obj s in
  let r := search_for_precompiled_archive env s in
  match find (has_tarball (files (world s)) o) (archive_dir o :: venv_dir_search o) with
  | None => r = (Ok false, entered "search_for_precompiled_archive" s)
  | Some d =>
      virtualenv_dir (obj (snd r)) = virtualenv_dir o
      /\ total_steps (obj (snd r)) = 2
      /\ exists fs' sub,
          let status := fst (exec env (extract_cmd_from d o) fs') in
          trace (world (snd r))
          = (trace (world s)
               ++ Call "search_for_precompiled_archive"
               :: Run (extract_name_from d o) (extract_cmd_from d o) None status
               :: sub)%list
          /\ (if status =? 0
              then fst r = Ok true /\ submodule_events o sub
              else fst r = Raise (Exception (failure_message None)) /\ sub = [])
  end.
Proof.
  intros o r. subst o r. unfold search_for_precompiled_archive.
  rewrite bind_emit, bind_get_obj. cbn [obj]. rewrite search_archive_in_find.
  cbn [obj world files record].
  destruct (find _ _) as [d|]; [|reflexivity].
  destruct (restore_from_effect env d
              (mkState (obj s) (record (Call "search_for_precompiled_archive") (world s))))
    as (H1 & H2 & fs' & sub & H3 & H4).
  cbn [obj world trace record] in *.
  split; [exact H1|]. split; [exact H2|]. exists fs', sub. cbn zeta.
  split; [|exact H4]. rewrite H3. now rewrite <- app_assoc.
Qed.



(** ** Publishing an archive and finding it again *)

Lemma startswith_slash_of_app h x y :
  Str.startswith "/" x = false -> Str.startswith "/" y = false ->
  Str.startswith "/" (h +:+ x) = Str.startswith "/" (h +:+ y).
Proof.
  intros Hx Hy. destruct h as [|c h]; cbn [String.append]; [congruence|].
  reflexivity.
Qed.

(** Two names made from one stem land on one prefix. *)
Lemma join_common_prefix a h x y :
  Str.startswith "/" x = false -> Str.startswith "/" y = false ->
  exists P, OsPath.join a (h +:+ x) = P +:+ x /\ OsPath.join a (h +:+ y) = P +:+ y.
Proof.
  intros Hx Hy. unfold OsPath.join.
  rewrite (startswith_slash_of_app h x y Hx Hy).
  destruct (Str.startswith "/" (h +:+ y)).
  - exists h. split; reflexivity.
  - destruct (negb (Str.nonempty a) || Str.endswith "/" a).
    + exists (a +:+ h). now rewrite !append_assoc.
    + exists (a +:+ "/" +:+ h). now rewrite !append_assoc.
Qed.

Lemma archive_names env o :
  exists P,
    archive_name o = P +:+ ".tar.gz"
    /\ archive_tmp_name env o = P +:+ "_" +:+ pretty (randint env) +:+ ".tar.gz".
Proof.
  unfold archive_name, archive_tmp_name.
  destruct (join_common_prefix (archive_dir o) (deps_hash o) ".tar.gz"
              ("_" +:+ pretty (randint env) +:+ ".tar.gz") eq_refl eq_refl)
    as (P & H1 & H2).
  exists P. split; [exact H1 | exact H2].
Qed.

(** The temporary name is neither the final name nor below it. *)
Lemma tmp_outside_dst env o : within (archive_name o) (archive_tmp_name env o) = false.
Proof.
  destruct (archive_names env o) as (P & -> & ->).
  unfold within, under. apply orb_false_iff. split.
  - apply String.eqb_neq. intros H. apply append_inv_head in H. discriminate.
  - rewrite append_assoc, startswith_app_same. reflexivity.
Qed.

(** X9. Publishing and finding again. The archive directory being
    writable, no archive of the identity being there, the packing command
    exiting with status 0 and leaving its output as a file under the
    temporary name, [make_archive] returns with that file under the final
    name and nothing under the temporary one; what lies outside the two
    names is as the command left it. A search for the same identity that
    starts afterwards finds the archive in the archive directory, before
    any search directory. *)
Theorem published_archive_is_found (env : Env) (s : State) (bytes : string) :
  let o := obj s in
  let fs := files (world s) in
  let packed := exec env (archive_cmd env o) (<[archive_log o := File EmptyString]> fs) in
  path_exists fs (archive_dir o) && writable env (archive_dir o) = true ->
  path_exists fs (archive_name o) = false ->
  fs !! archive_log o <> Some Dir ->
  fst packed = 0 ->
  snd packed !! archive_tmp_name env o = Some (File bytes) ->
  snd packed !! archive_name o = None ->
  let r := make_archive env s in
  let fs' := files (world (snd r)) in
  fst r = Ok tt
  /\ fs' !! archive_name o = Some (File bytes)
  /\ fs' !! archive_tmp_name env o = None
  /\ (forall p, within (archive_name o) p = false ->
                within (archive_tmp_name env o) p = false ->
                fs' !! p = snd packed !! p)
  /\ find (has_tarball fs' o) (archive_dir o :: venv_dir_search o)
     = Some (archive_dir o).
Proof.
  intros o fs packed Hw Hdst Hlog Hzero Htmp Hfree r fs'.
  subst o fs packed r fs'.
  assert (Hr : make_archive env s
               = (Ok tt,
                  mkState
                    (stepped s).(obj)
                    (set_files
                       (move_tree (archive_tmp_name env (obj s)) (archive_name (obj s))
                          (snd (exec env (archive_cmd env (obj s))
                                  (<[archive_log (obj s) := File EmptyString]>
                                     (files (world s))))))
                       (record (Run "Making tar archive" (archive_cmd env (obj s))
                                    (Some (archive_log (obj s))) 0)
                               (record (Call "make_archive") (world s)))))).
  { unfold make_archive, make_archive_check.
    rewrite bind_unfold, bind_emit, bind_get_obj. unfold os_access_w.
    rewrite bind_unfold, bind_get_files.
    cbn [mret M_ret obj world files record]. rewrite Hw. cbn [negb].
    rewrite bind_os_path_exists. cbn [obj world files record]. rewrite Hdst.
    cbn [mret M_ret]. unfold make_archive_write.
    rewrite bind_get_obj, bind_unfold. cbn [obj].
    fold (archive_cmd env (obj s)). fold (archive_log (obj s)).
    rewrite call_installer_eq. cbn [obj world files record stepped].
    assert (Hl : match files (world s) !! archive_log (obj s) with
                 | Some Dir => False | _ => True end)
      by (destruct (files (world s) !! archive_log (obj s)) as [[| |]|]; auto).
    unfold after_run, with_files.
    destruct (files (world s) !! archive_log (obj s)) as [[| |]|]; [contradiction| | |];
      cbn [obj world files set_files record fst snd]; rewrite Hzero;
      cbn [Z.eqb]; rewrite bind_unfold; unfold chmod; rewrite bind_get_files;
      cbn [obj world files set_files record];
      rewrite (path_exists_file _ _ _ Htmp); cbn [mret M_ret];
      unfold rename; rewrite bind_get_files; cbn [obj world files set_files record];
      rewrite Htmp, Hfree; reflexivity. }
  rewrite Hr. cbn [fst snd world files set_files].
  set (run := snd (exec env (archive_cmd env (obj s)) _)) in *.
  destruct (move_tree_lookup (archive_tmp_name env (obj s)) (archive_name (obj s)) run)
    as [Hin Hout].
  assert (Hd : move_tree (archive_tmp_name env (obj s)) (archive_name (obj s)) run
                 !! archive_name (obj s) = Some (File bytes)).
  { specialize (Hin EmptyString eq_refl). rewrite !append_empty_r in Hin.
    rewrite Hin, Htmp. reflexivity. }
  split; [reflexivity|]. split; [exact Hd|]. split.
  - rewrite (Hout _ (tmp_outside_dst env (obj s))), remove_tree_lookup.
    now rewrite within_refl.
  - split.
    + intros p Hp1 Hp2. rewrite (Hout _ Hp1), remove_tree_lookup. now rewrite Hp2.
    + cbn [find]. unfold has_tarball at 1, tarball_in at 1.
      fold (archive_name (obj s)). now rewrite (path_exists_file _ _ _ Hd).
Qed.

Lemma published_archive_witness :
  let env := publisher_env 1 in
  let s := mkState (publisher_obj "/venv/h") built_world in
  let r := make_archive env s in
  fst r = Ok tt
  /\ files (world (snd r)) !! "/arch/h.tar.gz" = Some (File (packed_by 1))
  /\ files (world (snd r)) !! "/arch/h_1.tar.gz" = None
  /\ find (has_tarball (files (world (snd r))) (obj s))
          (archive_dir (obj s) :: venv_dir_search (obj s)) = Some "/arch".
Proof.
  intros env s r.
  assert (H1 : path_exists (files (world s)) (archive_dir (obj s))
               && writable env (archive_dir (obj s)) = true)
    by (vm_compute; reflexivity).
  assert (H2 : path_exists (files (world s)) (archive_name (obj s)) = false)
    by (vm_compute; reflexivity).
  assert (H3 : files (world s) !! archive_log (obj s) <> Some Dir)
    by (vm_compute; discriminate).
  assert (H4 : fst (exec env (archive_cmd env (obj s))
                      (<[archive_log (obj s) := File EmptyString]> (files (world s))))
               = 0)
    by (vm_compute; reflexivity).
  assert (H5 : snd (exec env (archive_cmd env (obj s))
                      (<[archive_log (obj s) := File EmptyString]> (files (world s))))
                 !! archive_tmp_name env (obj s) = Some (File (packed_by 1)))
    by (vm_compute; reflexivity).
  assert (H6 : snd (exec env (archive_cmd env (obj s))
                      (<[archive_log (obj s) := File EmptyString]> (files (world s))))
                 !! archive_name (obj s) = None)
    by (vm_compute; reflexivity).
  destruct (published_archive_is_found env s (packed_by 1) H1 H2 H3 H4 H5 H6)
    as (R1 & R2 & R3 & _ & R5).
  split; [exact R1|]. split; [exact R2|]. split; [exact R3 | exact R5].
Defined.

(** ** One lock, two processes *)

Lemma lock_venv_dir_free env s :
  locks (world s) !! lockfilename (obj s) = None ->
  files (world s) !! lockfilename (obj s) <> Some Dir ->
  let r := lock_venv_dir env s in
  fst r = Ok tt
  /\ locks (world (snd r)) = <[lockfilename (obj s) := pid env]> (locks (world s))
  /\ lock_file (obj (snd r)) = Some (lockfilename (obj s))
  /\ lockfilename (obj (snd r)) = lockfilename (obj s)
  /\ files (world (snd r)) !! lockfilename (obj s) <> Some Dir.
Proof.
  intros Hl Hf r. subst r. unfold lock_venv_dir.
  rewrite bind_emit, bind_get_obj, bind_unfold. cbn [obj].
  unfold open_append. rewrite bind_get_files. cbn [world files record].
  destruct (files (world s) !! lockfilename (obj s)) as [[| |]|] eqn:E;
    [contradiction| | |];
    cbn [mret M_ret put_files with_world]; rewrite bind_with_obj;
    unfold lockf_ex; rewrite bind_get_world; cbn [world locks record set_files];
    rewrite Hl, bind_with_world;
    cbn [emit fst snd obj world locks files record set_locks set_files lock_file
           lockfilename set_lock_file];
    repeat split; try reflexivity;
    unfold emit, with_world; cbn [snd world files set_files set_locks record];
    rewrite ?lookup_insert_eq, ?E; discriminate.
Qed.

Lemma lock_venv_dir_held env s owner :
  locks (world s) !! lockfilename (obj s) = Some owner ->
  owner <> pid env ->
  files (world s) !! lockfilename (obj s) <> Some Dir ->
  let r := lock_venv_dir env s in
  fst r = Hangs
  /\ locks (world (snd r)) = locks (world s)
  /\ files (world (snd r)) !! lockfilename (obj s) <> Some Dir.
Proof.
  intros Hl Ho Hf r. subst r. unfold lock_venv_dir.
  rewrite bind_emit, bind_get_obj, bind_unfold. cbn [obj].
  unfold open_append. rewrite bind_get_files. cbn [world files record].
  apply Nat.eqb_neq in Ho.
  destruct (files (world s) !! lockfilename (obj s)) as [[| |]|] eqn:E;
    [contradiction| | |];
    cbn [mret M_ret put_files with_world]; rewrite bind_with_obj;
    unfold lockf_ex; rewrite bind_get_world; cbn [world locks record set_files];
    rewrite Hl, Ho;
    cbn [hang fst snd obj world locks files record set_files];
    repeat split; try reflexivity;
    rewrite ?lookup_insert_eq, ?E; discriminate.
Qed.

Lemma unlock_venv_dir_holder env s f :
  lock_file (obj s) = Some f ->
  locks (world s) !! f = Some (pid env) ->
  let r := unlock_venv_dir env s in
  fst r = Ok tt
  /\ locks (world (snd r)) = delete f (locks (world s))
  /\ lock_file (obj (snd r)) = None
  /\ files (world (snd r)) = files (world s).
Proof.
  intros Hf Hl r. subst r. unfold unlock_venv_dir.
  rewrite bind_emit, bind_get_obj. cbn [obj]. rewrite Hf.
  rewrite bind_unfold. unfold lockf_un. rewrite bind_get_world.
  cbn [world locks record]. rewrite Hl, Nat.eqb_refl.
  rewrite bind_with_world. cbn [emit with_world with_obj fst snd obj world].
  repeat split.
Qed.

(** X10. The lock keeps a second process out and is handed over. The
    lock being free: a first process takes it; a second process that then
    calls [lock_venv_dir] on the same lock file does not return and leaves
    the lock with the first; once the first has called [unlock_venv_dir],
    the lock table is as it was at the start and the same call of the
    second process returns with the lock. *)
Theorem lock_excludes_and_is_handed_over
        (envA envB : Env) (oA oB : Self) (w : World) :
  let N := lockfilename oA in
  pid envA <> pid envB ->
  lockfilename oB = N ->
  locks w !! N = None ->
  files w !! N <> Some Dir ->
  let taken := lock_venv_dir envA (mkState oA w) in
  let waiting := lock_venv_dir envB (mkState oB (world (snd taken))) in
  let released := unlock_venv_dir envA (mkState (obj (snd taken)) (world (snd waiting))) in
  let handed := lock_venv_dir envB (mkState oB (world (snd released))) in
  (fst taken = Ok tt /\ locks (world (snd taken)) !! N = Some (pid envA))
  /\ (fst waiting = Hangs /\ locks (world (snd waiting)) !! N = Some (pid envA))
  /\ (fst released = Ok tt /\ locks (world (snd released)) = locks w
      /\ lock_file (obj (snd released)) = None)
  /\ (fst handed = Ok tt /\ locks (world (snd handed)) !! N = Some (pid envB)).
Proof.
  intros N Hpid HN Hfree Hfile taken waiting released handed.
  destruct (lock_venv_dir_free envA (mkState oA w) Hfree Hfile)
    as (A1 & A2 & A3 & A4 & A5).
  fold taken in A1, A2, A3, A4, A5. cbn [obj world] in A2, A3, A4, A5. fold N in A2, A3, A4, A5.
  assert (A6 : locks (world (snd taken)) !! N = Some (pid envA))
    by (rewrite A2; apply lookup_insert_eq).
  split; [split; [exact A1 | exact A6]|].
  assert (HB : lockfilename (obj (mkState oB (world (snd taken)))) = N) by exact HN.
  destruct (lock_venv_dir_held envB (mkState oB (world (snd taken))) (pid envA))
    as (B1 & B2 & B3).
  { rewrite HB. exact A6. }
  { exact Hpid. }
  { rewrite HB. exact A5. }
  fold waiting in B1, B2, B3. cbn [obj world] in B2, B3. rewrite HN in B3.
  split; [split; [exact B1 | rewrite B2; exact A6]|].
  destruct (unlock_venv_dir_holder envA
              (mkState (obj (snd taken)) (world (snd waiting))) N)
    as (U1 & U2 & U3 & U4).
  { exact A3. }
  { cbn [world]. rewrite B2. exact A6. }
  fold released in U1, U2, U3, U4. cbn [obj world] in U2, U4.
  assert (U5 : locks (world (snd released)) = locks w).
  { rewrite U2, B2, A2. now apply delete_insert_id. }
  split; [split; [exact U1 | split; [exact U5 | exact U3]]|].
  destruct (lock_venv_dir_free envB (mkState oB (world (snd released))))
    as (C1 & C2 & _).
  { cbn [obj world]. rewrite HN, U5. exact Hfree. }
  { cbn [obj world]. rewrite HN, U4. exact B3. }
  fold handed in C1, C2. cbn [obj world] in C2. rewrite HN in C2.
  split; [exact C1 | rewrite C2; apply lookup_insert_eq].
Qed.

Lemma lock_handed_over_witness :
  let envA := demo_env 1 7 run_ok in
  let envB := demo_env 2 8 run_ok in
  let taken := lock_venv_dir envA demo_state in
  let waiting := lock_venv_dir envB (mkState demo_obj (world (snd taken))) in
  pid envA <> pid envB
  /\ fst taken = Ok tt
  /\ fst waiting = Hangs.
Proof.
  intros envA envB taken waiting.
  assert (H1 : pid envA <> pid envB) by (vm_compute; discriminate).
  assert (H2 : lockfilename demo_obj = lockfilename demo_obj) by reflexivity.
  assert (H3 : locks demo_world !! lockfilename demo_obj = None)
    by (vm_compute; reflexivity).
  assert (H4 : files demo_world !! lockfilename demo_obj <> Some Dir)
    by (vm_compute; discriminate).
  destruct (lock_excludes_and_is_handed_over envA envB demo_obj demo_obj demo_world
              H1 H2 H3 H4) as ((T1 & _) & (W1 & _) & _).
  split; [exact H1|]. split; [exact T1 | exact W1].
Defined.

(** ** What becomes of the [latest] link *)

Lemma resolve_none_entry fs n p :
  resolve fs (S n) p = None ->
  fs !! p = None \/ exists t, fs !! p = Some (Symlink t).
Proof.
  cbn [resolve]. destruct (fs !! p) as [[| |t]|]; try discriminate; eauto.
Qed.

Lemma resolve_some_entry fs n p a :
  resolve fs n p = Some a -> is_Some (fs !! p).
Proof.
  destruct n; cbn [resolve]; destruct (fs !! p) as [x|]; try discriminate; eauto.
Qed.

(** X11. The bookkeeping of the [latest] link never fails and touches no
    other file. A link that is missing or dangling is made to point at the
    environment directory. A link that leads somewhere is left as it is
    when the environment directory does not exist yet (the comparison of
    the two fails and the failure is passed over), and when it already
    leads to the environment directory; otherwise it is replaced by a link
    to the environment directory, unless a directory stands in its place. *)
Theorem latest_link_after_bookkeeping (s : State) :
  let o := obj s in
  let link := venv_latest_filename o in
  let fs := files (world s) in
  let r := venv_lastest_symlink s in
  let fs' := files (world (snd r)) in
  fst r = Ok tt
  /\ (forall p, p <> link -> fs' !! p = fs !! p)
  /\ fs' !! link
     = match resolve fs max_links link, resolve fs max_links (virtualenv_dir o) with
       | None, _ => Some (Symlink (virtualenv_dir o))
       | Some _, None => fs !! link
       | Some a, Some b =>
           if String.eqb a b then fs !! link
           else match fs !! link with
                | Some Dir => Some Dir
                | _ => Some (Symlink (virtualenv_dir o))
                end
       end.
Proof.
  intros o link fs r fs'.
  destruct (venv_lastest_symlink_effect s) as (H1 & _ & _ & _ & _ & H2).
  split; [exact H1|]. split; [exact H2|].
  subst fs' r fs link o.
  unfold venv_lastest_symlink, try_except, samefile, unlink, symlink.
  munfold. unfold path_exists.
  destruct (resolve (files (world s)) max_links (venv_latest_filename (obj s)))
    as [a|] eqn:Ea; cbn [negb fst snd].
  - rewrite Ea.
    destruct (resolve (files (world s)) max_links (virtualenv_dir (obj s)))
      as [b|] eqn:Eb; cbn [fst snd is_OSError world files]; [|reflexivity].
    destruct (String.eqb a b); cbn [negb fst snd world files]; [reflexivity|].
    destruct (resolve_some_entry _ _ _ _ Ea) as [x Ex].
    rewrite Ex. destruct x as [|c|t];
      cbn [fst snd is_OSError world files set_files obj].
    + rewrite Ex. cbn [fst snd is_OSError world files]. exact Ex.
    + rewrite lookup_delete_eq. cbn [fst snd world files set_files].
      apply lookup_insert_eq.
    + rewrite lookup_delete_eq. cbn [fst snd world files set_files].
      apply lookup_insert_eq.
  - unfold max_links in Ea.
    destruct (resolve_none_entry _ _ _ Ea) as [Ex | [t Ex]]; rewrite Ex;
      cbn [fst snd is_OSError world files set_files obj].
    + rewrite Ex. cbn [fst snd world files set_files].
      apply lookup_insert_eq.
    + rewrite lookup_delete_eq. cbn [fst snd world files set_files].
      apply lookup_insert_eq.
Qed.

(** ** The fields of the object that a computation leaves alone *)

Create HintDb fielddb.

Ltac steady :=
  repeat first
    [ apply keeps_ret
    | apply keeps_raise
    | solve [auto with fielddb]
    | apply keeps_bind; [|intros ?]
    | apply keeps_try_except
    | match goal with
      | |- keeps _ (if ?b then _ else _) => destruct b
      | |- keeps _ (match ?x with _ => _ end) => destruct x
      | |- keeps _ (let _ := _ in _) => cbv zeta
      end ].

Section FieldNeutral.

Variable env : Env.
Context {T : Type} (f : Self -> T) (x : T).
Hypothesis f_current_step : forall n o, f (set_current_step n o) = f o.
Hypothesis f_total_steps : forall n o, f (set_total_steps n o) = f o.
Hypothesis f_step_prefix : forall p o, f (set_step_prefix p o) = f o.
Hypothesis f_lock_file : forall l o, f (set_lock_file l o) = f o.

Lemma field_get_obj : keeps (field_state f x) get_obj.
Proof. intros s Hs. exact Hs. Qed.

Lemma field_get_files : keeps (field_state f x) get_files.
Proof. intros s Hs. exact Hs. Qed.

Lemma field_get_world : keeps (field_state f x) get_world.
Proof. intros s Hs. exact Hs. Qed.

Lemma field_os_path_exists p : keeps (field_state f x) (os_path_exists p).
Proof. intros s Hs. exact Hs. Qed.

Lemma field_put_files fs : keeps (field_state f x) (put_files fs).
Proof. intros s Hs. exact Hs. Qed.

Lemma field_emit e : keeps (field_state f x) (emit e).
Proof. intros s Hs. exact Hs. Qed.

Lemma field_with_world g : keeps (field_state f x) (with_world g).
Proof. intros s Hs. exact Hs. Qed.

Lemma field_set_current_step n : keeps (field_state f x) (with_obj (set_current_step n)).
Proof. intros s Hs. unfold field_state in *. cbn. now rewrite f_current_step. Qed.

Lemma field_set_total_steps n : keeps (field_state f x) (with_obj (set_total_steps n)).
Proof. intros s Hs. unfold field_state in *. cbn. now rewrite f_total_steps. Qed.

Lemma field_set_step_prefix p : keeps (field_state f x) (with_obj (set_step_prefix p)).
Proof. intros s Hs. unfold field_state in *. cbn. now rewrite f_step_prefix. Qed.

Lemma field_set_lock_file l : keeps (field_state f x) (with_obj (set_lock_file l)).
Proof. intros s Hs. unfold field_state in *. cbn. now rewrite f_lock_file. Qed.

Lemma field_hang A : keeps (field_state f x) (@hang A).
Proof. intros s Hs. exact Hs. Qed.

Hint Resolve field_get_obj field_get_files field_get_world field_os_path_exists
  field_put_files field_emit field_with_world field_set_current_step
  field_set_total_steps field_set_step_prefix field_set_lock_file field_hang : fielddb.

Lemma field_makedirs p : keeps (field_state f x) (makedirs env p).
Proof. unfold makedirs. steady. Qed.

Lemma field_open_write p c : keeps (field_state f x) (open_write p c).
Proof. unfold open_write. steady. Qed.

Lemma field_open_append p : keeps (field_state f x) (open_append p).
Proof. unfold open_append. steady. Qed.

Lemma field_unlink p : keeps (field_state f x) (unlink p).
Proof. unfold unlink. steady. Qed.

Lemma field_symlink t p : keeps (field_state f x) (symlink t p).
Proof. unfold symlink. steady. Qed.

Lemma field_samefile a b : keeps (field_state f x) (samefile a b).
Proof.
  intros s Hs. unfold samefile. rewrite bind_get_files.
  destruct (resolve _ _ a); [destruct (resolve _ _ b)|]; exact Hs.
Qed.

Lemma field_rmtree p : keeps (field_state f x) (rmtree p).
Proof. unfold rmtree. steady. Qed.

Lemma field_rename a b : keeps (field_state f x) (rename a b).
Proof. unfold rename. steady. Qed.

Lemma field_chmod p : keeps (field_state f x) (chmod p).
Proof. unfold chmod. steady. Qed.

Lemma field_chdir p : keeps (field_state f x) (chdir p).
Proof. unfold chdir. steady. Qed.

Lemma field_getcwd : keeps (field_state f x) getcwd.
Proof. unfold getcwd. steady. Qed.

Lemma field_os_access_w p : keeps (field_state f x) (os_access_w env p).
Proof. unfold os_access_w. steady. Qed.

Lemma field_popen_wait cmd : keeps (field_state f x) (popen_wait env cmd).
Proof. unfold popen_wait. steady. Qed.

Lemma field_lockf_ex p : keeps (field_state f x) (lockf_ex env p).
Proof. unfold lockf_ex. steady. Qed.

Lemma field_lockf_un p : keeps (field_state f x) (lockf_un env p).
Proof. unfold lockf_un. steady. Qed.

Hint Resolve field_makedirs field_open_write field_open_append field_unlink
  field_symlink field_samefile field_rmtree field_rename field_chmod field_chdir
  field_getcwd field_os_access_w field_popen_wait field_lockf_ex field_lockf_un
  : fielddb.

Lemma field_call_installer name cmd log :
  keeps (field_state f x) (call_installer env name cmd log).
Proof. unfold call_installer. steady. Qed.

Hint Resolve field_call_installer : fielddb.

Lemma field_mkdirs : keeps (field_state f x) (mkdirs env).
Proof. unfold mkdirs. steady. Qed.

Lemma field_submodule_update : keeps (field_state f x) (submodule_update env).
Proof. unfold submodule_update. steady. Qed.

Lemma field_create_virtualenv : keeps (field_state f x) (create_virtualenv env).
Proof. unfold create_virtualenv. steady. Qed.

Lemma field_tag_revision : keeps (field_state f x) (tag_revision env).
Proof. unfold tag_revision. steady. Qed.

Lemma field_venv_relocatable : keeps (field_state f x) (venv_relocatable env).
Proof. unfold venv_relocatable. steady. Qed.

Lemma field_pip_install_each g packages :
  keeps (field_state f x) (pip_install_each env g packages).
Proof. induction packages as [|p rest IH]; cbn [pip_install_each]; steady. Qed.

Hint Resolve field_mkdirs field_submodule_update field_create_virtualenv
  field_tag_revision field_venv_relocatable field_pip_install_each : fielddb.

Lemma field_pip_install_packages g :
  keeps (field_state f x) (pip_install_packages env g).
Proof. unfold pip_install_packages. steady. Qed.

Lemma field_make_archive : keeps (field_state f x) (make_archive env).
Proof. unfold make_archive, make_archive_check, make_archive_write. steady. Qed.

Lemma field_lock_venv_dir : keeps (field_state f x) (lock_venv_dir env).
Proof. unfold lock_venv_dir. steady. Qed.

Lemma field_unlock_venv_dir : keeps (field_state f x) (unlock_venv_dir env).
Proof. unfold unlock_venv_dir. steady. Qed.

Lemma field_search : keeps (field_state f x) (search_for_precompiled_archive env).
Proof.
  unfold search_for_precompiled_archive.
  apply keeps_bind; [auto with fielddb|intros _].
  apply keeps_bind; [auto with fielddb|intros o].
  generalize (archive_dir o :: venv_dir_search o). intros dirs.
  induction dirs as [|d rest IH]; cbn [search_archive_in]; steady.
Qed.

Lemma field_venv_lastest_symlink : keeps (field_state f x) venv_lastest_symlink.
Proof. unfold venv_lastest_symlink. steady. Qed.

Lemma field_release_and_return old_dir :
  keeps (field_state f x) (release_and_return env old_dir).
Proof.
  unfold release_and_return.
  apply keeps_bind; [apply field_unlock_venv_dir | intros _]. steady.
Qed.

Hint Resolve field_pip_install_packages field_make_archive field_lock_venv_dir
  field_unlock_venv_dir field_search field_venv_lastest_symlink : fielddb.

(** The steps of a build, after the object was pointed at the staging
    directory. *)
Lemma field_build_steps :
  keeps (field_state f x)
        (mkdirs env ;; submodule_update env ;; create_virtualenv env ;;
         tag_revision env ;;
         o' ← get_obj;
         open_write (OsPath.join (virtualenv_dir o') "requirements.txt")
           (Str.join (String Str.newline EmptyString) (requirements o')
            +:+ String Str.newline EmptyString) ;;
         pip_install_packages env false ;;
         venv_relocatable env).
Proof. steady. Qed.

(** What also holds for a field that does not depend on the directory. *)
Hypothesis f_virtualenv_dir : forall d o, f (set_virtualenv_dir d o) = f o.

Lemma field_set_virtualenv_dir d :
  keeps (field_state f x) (with_obj (set_virtualenv_dir d)).
Proof. intros s Hs. unfold field_state in *. cbn. now rewrite f_virtualenv_dir. Qed.

Hint Resolve field_set_virtualenv_dir : fielddb.

Lemma field_update_unsafe : keeps (field_state f x) (update_unsafe env).
Proof. unfold update_unsafe, build_staging, publish_staging. steady. Qed.

Hint Resolve field_update_unsafe : fielddb.

Lemma field_locked_phase : keeps (field_state f x) (locked_phase env).
Proof. unfold locked_phase, info. steady. Qed.

Hint Resolve field_locked_phase : fielddb.

Lemma field_update_if_needed : keeps (field_state f x) (update_if_needed env).
Proof. unfold update_if_needed. steady. Qed.

End FieldNeutral.

(** The directory the object points at is such a field, up to the two
    places that set it. *)
Lemma build_staging_dir env s :
  field_state virtualenv_dir (virtualenv_dir (obj s) +:+ ".build")
              (snd (build_staging env s)).
Proof.
  unfold build_staging. rewrite bind_get_obj, !bind_with_obj.
  apply field_build_steps; reflexivity.
Qed.

Lemma publish_staging_dir final d s :
  field_state virtualenv_dir d s ->
  field_state virtualenv_dir
              (match fst (publish_staging final s) with Ok _ => final | _ => d end)
              (snd (publish_staging final s)).
Proof.
  intros Hs. unfold publish_staging. rewrite bind_unfold.
  assert (H1 : keeps (field_state virtualenv_dir d)
                     (try_except (rmtree final) is_ENOENT (mret tt))).
  { apply keeps_try_except; [apply field_rmtree | apply keeps_ret]. }
  specialize (H1 s Hs).
  destruct (try_except (rmtree final) is_ENOENT (mret tt) s) as [[[]|e|] s1];
    cbn [fst snd] in *; try exact H1.
  rewrite bind_get_obj, bind_unfold.
  pose proof (field_rename virtualenv_dir d (virtualenv_dir (obj s1)) final s1 H1) as H2.
  destruct (rename (virtualenv_dir (obj s1)) final s1) as [[[]|e|] s2];
    cbn [fst snd] in *; try exact H2.
  reflexivity.
Qed.

Lemma update_unsafe_dir env s :
  let dir := virtualenv_dir (obj s) in
  let built := build_staging env (entered "update_unsafe" s) in
  let published := publish_staging dir (snd built) in
  let r := update_unsafe env s in
  virtualenv_dir (obj (snd r))
  = match fst built, fst published with
    | Ok _, Ok _ => dir
    | _, _ => dir +:+ ".build"
    end
  /\ (fst r = Ok tt -> fst built = Ok tt /\ fst published = Ok tt).
Proof.
  intros dir built published r.
  pose proof (build_staging_dir env (entered "update_unsafe" s)) as Hb.
  change (virtualenv_dir (obj (entered "update_unsafe" s))) with dir in Hb.
  fold built in Hb.
  subst r. rewrite update_unsafe_unfold. fold dir. rewrite bind_unfold. fold built.
  subst published.
  destruct built as [[[]|e|] s1]; cbn [fst snd] in *;
    [|split; [exact Hb | discriminate]..].
  rewrite bind_unfold.
  pose proof (publish_staging_dir dir _ s1 Hb) as Hp.
  destruct (publish_staging dir s1) as [[[]|e|] s2]; cbn [fst snd] in *;
    [|split; [exact Hp | discriminate]..].
  split; [|auto].
  apply (field_make_archive env virtualenv_dir dir); try reflexivity. exact Hp.
Qed.

(** X12. Where the object points after [update_unsafe]. The work is done
    with the object pointing at the staging directory [<dir>.build], and
    the object is pointed back at [<dir>] only once the staging directory
    has been renamed: after a build or a publication that failed, the
    object still names the staging directory; after a failure of
    [make_archive], and after success, it names [<dir>]. *)
Theorem object_directory_after_update (env : Env) (s : State) :
  let dir := virtualenv_dir (obj s) in
  let built := build_staging env (entered "update_unsafe" s) in
  let published := publish_staging dir (snd built) in
  let r := update_unsafe env s in
  virtualenv_dir (obj (snd built)) = dir +:+ ".build"
  /\ virtualenv_dir (obj (snd r))
     = match fst built, fst published with
       | Ok _, Ok _ => dir
       | _, _ => dir +:+ ".build"
       end
  /\ match fst r with
     | Ok _ => virtualenv_dir (obj (snd r)) = dir
     | _ => True
     end.
Proof.
  intros dir built published r.
  split; [exact (build_staging_dir env (entered "update_unsafe" s))|].
  destruct (update_unsafe_dir env s) as [Hr1 Hr2].
  fold dir built published r in Hr1, Hr2.
  split; [exact Hr1|].
  destruct (fst r) as [[]| |] eqn:E; [|exact I..].
  destruct (Hr2 eq_refl) as [E1 E2]. rewrite Hr1, E1, E2. reflexivity.
Qed.

(** ** A request that was served is not served again *)

Lemma bind_ok_inv {A B} (m : M A) (k : A -> M B) s b :
  fst ((m ≫= k) s) = Ok b ->
  exists a, fst (m s) = Ok a
            /\ (m ≫= k) s = k a (snd (m s)).
Proof.
  rewrite bind_unfold. destruct (m s) as [[a|e|] s1]; cbn [fst snd];
    try discriminate.
  intros _. exists a. split; reflexivity.
Qed.

Lemma configuration_kept env s :
  configuration (obj (snd (update_if_needed env s))) = configuration (obj s).
Proof.
  apply (field_update_if_needed env configuration (configuration (obj s)));
    try (intros ? []; reflexivity).
  reflexivity.
Qed.

Lemma lock_venv_dir_files env s p :
  p <> lockfilename (obj s) ->
  files (world (snd (lock_venv_dir env s))) !! p = files (world s) !! p.
Proof.
  intros Hp. unfold lock_venv_dir.
  rewrite bind_emit, bind_get_obj, bind_unfold. cbn [obj].
  unfold open_append. rewrite bind_get_files. cbn [world files record].
  destruct (files (world s) !! lockfilename (obj s)) as [[| |]|];
    cbn [mret M_ret put_files with_world raise snd world files record];
    [reflexivity| | |];
    rewrite bind_with_obj; unfold lockf_ex; rewrite bind_get_world;
    cbn [world locks record set_files];
    (destruct (locks (world s) !! lockfilename (obj s)) as [owner|];
     [destruct (Nat.eqb owner (pid env)) | rewrite bind_with_world]);
    unfold emit, with_world, hang;
    cbn [mret M_ret snd world files set_files set_locks record];
    rewrite ?lookup_insert_ne by congruence; reflexivity.
Qed.

Lemma unlock_venv_dir_frame env s :
  files (world (snd (unlock_venv_dir env s))) = files (world s)
  /\ lockfilename (obj (snd (unlock_venv_dir env s))) = lockfilename (obj s).
Proof.
  unfold unlock_venv_dir. rewrite bind_emit, bind_get_obj. cbn [obj].
  destruct (lock_file (obj s)) as [f|]; [|split; reflexivity].
  rewrite bind_unfold. unfold lockf_un. rewrite bind_get_world.
  cbn [world locks record].
  destruct (locks (world s) !! f) as [owner|];
    [destruct (Nat.eqb owner (pid env)); [rewrite bind_with_world|]|];
    unfold emit, with_world, with_obj;
    cbn [mret M_ret snd obj world files set_locks record lockfilename set_lock_file];
    split; reflexivity.
Qed.

(** Lines 168-172: the lock file goes, the caller's directory comes back. *)
Lemma leave_frame old_dir s p :
  p <> lockfilename (obj s) ->
  let r := (o' ← get_obj;
            try_except (unlink (lockfilename o')) is_OSError (mret tt) ;;
            chdir old_dir) s in
  files (world (snd r)) !! p = files (world s) !! p
  /\ (fst r = Ok tt -> cwd (world (snd r)) = old_dir).
Proof.
  intros Hp r. subst r. rewrite bind_get_obj, bind_unfold.
  unfold try_except, unlink. rewrite bind_get_files.
  destruct (files (world s) !! lockfilename (obj s)) as [[| |]|];
    cbn [raise is_OSError mret M_ret put_files with_world];
    unfold chdir; rewrite bind_get_files; cbn [world files set_files];
    match goal with
    | |- context [path_exists ?a ?b] => destruct (path_exists a b)
    end;
    unfold with_world, raise; cbn [fst snd world files set_files set_cwd cwd];
    rewrite ?lookup_delete_ne by congruence;
    (split; [reflexivity | first [discriminate | reflexivity]]).
Qed.

Lemma release_and_return_frame env old_dir s p :
  p <> lockfilename (obj s) ->
  let r := release_and_return env old_dir s in
  files (world (snd r)) !! p = files (world s) !! p
  /\ (fst r = Ok tt -> cwd (world (snd r)) = old_dir).
Proof.
  intros Hp r. subst r. unfold release_and_return. rewrite bind_unfold.
  destruct (unlock_venv_dir_frame env s) as [Hf Hn].
  destruct (unlock_venv_dir env s) as [[[]|e|] s1]; cbn [fst snd] in *;
    [|split; [now rewrite Hf | discriminate]..].
  rewrite <- Hf. apply leave_frame. now rewrite Hn.
Qed.

Lemma path_exists_absent fs p : fs !! p = None -> path_exists fs p = false.
Proof. intros H. unfold path_exists, max_links. cbn [resolve]. now rewrite H. Qed.

(** The locked phase, when it returns: the marker holds the time of the
    call and the object points where it did. *)
Lemma locked_phase_ok env s :
  path_exists (files (world s)) (completed_marker (obj s)) = false ->
  fst (locked_phase env s) = Ok tt ->
  files (world (snd (locked_phase env s))) !! completed_marker (obj s)
  = Some (File (now env))
  /\ virtualenv_dir (obj (snd (locked_phase env s))) = virtualenv_dir (obj s).
Proof.
  intros Hm. unfold locked_phase.
  rewrite bind_get_obj, bind_os_path_exists, Hm. cbn [negb].
  rewrite bind_unfold.
  assert (Hd : field_state virtualenv_dir (virtualenv_dir (obj s))
                           (snd (search_for_precompiled_archive env s)))
    by (apply field_search; try (intros; reflexivity)).
  unfold field_state in Hd.
  destruct (search_for_precompiled_archive env s) as [[found|e|] s2];
    cbn [fst snd] in *; try discriminate.
  rewrite bind_unfold.
  assert (Hstep : forall s3,
             virtualenv_dir (obj s3) = virtualenv_dir (obj s) ->
             let r := (o' ← get_obj; open_write (completed_marker o') (now env)) s3 in
             fst r = Ok tt ->
             files (world (snd r)) !! completed_marker (obj s) = Some (File (now env))
             /\ virtualenv_dir (obj (snd r)) = virtualenv_dir (obj s)).
  { intros s3 H3 r. subst r. rewrite bind_get_obj. unfold open_write.
    rewrite bind_get_files. unfold completed_marker. rewrite H3.
    destruct (files (world s3) !! OsPath.join (virtualenv_dir (obj s)) ".completed")
      as [[| |]|]; cbn [raise put_files with_world fst snd world files set_files obj];
      try discriminate; intros _; (split; [apply lookup_insert_eq | exact H3]). }
  destruct found; cbn [negb].
  - cbn [mret M_ret]. apply Hstep. exact Hd.
  - unfold info. rewrite (bind_unfold (mret tt)). cbn [mret M_ret].
    destruct (update_unsafe_dir env s2) as [Hu1 Hu2].
    destruct (update_unsafe env s2) as [[[]|e|] s3]; cbn [fst snd] in *;
      try discriminate.
    destruct (Hu2 eq_refl) as [E1 E2]. rewrite E1, E2 in Hu1.
    apply Hstep. now rewrite Hu1.
Qed.

(** What a request that returns has done, the marker being absent at its
    start. *)
Lemma served_core (env : Env) (s : State) :
  let o := obj s in
  let marker := completed_marker o in
  files (world s) !! marker = None ->
  venv_latest_filename o <> marker ->
  lockfilename o <> marker ->
  let r := update_if_needed env s in
  fst r = Ok tt ->
  files (world (snd r)) !! marker = Some (File (now env))
  /\ virtualenv_dir (obj (snd r)) = virtualenv_dir o
  /\ configuration (obj (snd r)) = configuration o
  /\ lock_file (obj (snd r)) = None
  /\ locks (world (snd r)) !! lockfilename o = None
  /\ cwd (world (snd r)) = cwd (world s).
Proof.
  intros o marker Hm HL HN r Hok.
  (* the bookkeeping of the link *)
  destruct (venv_lastest_symlink_effect s) as (_ & Ho1 & _ & _ & Hc1 & Hf1).
  set (s1 := snd (venv_lastest_symlink s)) in *.
  assert (Hm1 : files (world s1) !! marker = None).
  { rewrite Hf1; [exact Hm|]. fold o. congruence. }
  assert (Hp1 : path_exists (files (world s1)) (completed_marker (obj s1)) = false).
  { rewrite Ho1. now apply path_exists_absent. }
  pose proof (update_if_needed_slow env s Hp1) as Hslow. fold s1 in Hslow. fold r in Hslow.
  rewrite Ho1 in Hslow. fold o in Hslow.
  (* the change of directory *)
  rewrite Hslow in Hok.
  destruct (bind_ok_inv _ _ _ _ Hok) as ([] & Hgo & E2).
  rewrite E2 in Hok, Hslow. clear E2.
  set (s2 := snd (chdir (autodeps_dir o) s1)) in *.
  assert (Ho2 : obj s2 = o /\ files (world s2) = files (world s1)).
  { subst s2. unfold chdir. rewrite bind_get_files.
    destruct (path_exists _ (autodeps_dir o)); cbn; rewrite Ho1; split; reflexivity. }
  destruct Ho2 as [Ho2 Hf2].
  (* the lock *)
  destruct (bind_ok_inv _ _ _ _ Hok) as ([] & Hlk & E3).
  rewrite E3 in Hok, Hslow. clear E3.
  destruct (lock_venv_dir_ok env s2 Hlk) as ((_ & HF3 & HN3) & HL3).
  set (s3 := snd (lock_venv_dir env s2)) in *.
  rewrite Ho2 in HF3, HN3, HL3.
  assert (Hd3 : virtualenv_dir (obj s3) = virtualenv_dir o).
  { apply (field_lock_venv_dir env virtualenv_dir (virtualenv_dir o));
      try (intros; reflexivity).
    unfold field_state. now rewrite Ho2. }
  assert (Hm3 : files (world s3) !! marker = None).
  { subst s3. rewrite lock_venv_dir_files; [now rewrite Hf2|].
    rewrite Ho2. congruence. }
  assert (Hmk3 : completed_marker (obj s3) = marker)
    by (unfold completed_marker, marker; now rewrite Hd3).
  (* the locked phase *)
  destruct (bind_ok_inv _ _ _ _ Hok) as ([] & Hph & E4).
  rewrite E4 in Hok, Hslow. clear E4.
  destruct (locked_phase_ok env s3) as (Hm4 & Hd4).
  { rewrite Hmk3. now apply path_exists_absent. }
  { exact Hph. }
  rewrite Hmk3 in Hm4. rewrite Hd3 in Hd4.
  pose proof (lock_locked_phase env (locks (world s3)) (Some (lockfilename o))
                (lockfilename o) s3 (conj eq_refl (conj HF3 HN3)))
    as (HL4 & HF4 & HN4).
  set (s4 := snd (locked_phase env s3)) in *.
  (* the release *)
  destruct (release_and_return_releases env (cwd (world s1)) s4) as (R1 & R2 & _).
  { now rewrite HN4. }
  { rewrite HN4, HL4. exact HL3. }
  rewrite HN4 in R1.
  assert (Hm5 : files (world (snd (release_and_return env (cwd (world s1)) s4)))
                  !! marker = Some (File (now env))).
  { rewrite (proj1 (release_and_return_frame env (cwd (world s1)) s4 marker
                       ltac:(rewrite HN4; congruence))).
    exact Hm4. }
  assert (Hd5 : virtualenv_dir (obj (snd (release_and_return env (cwd (world s1)) s4)))
                = virtualenv_dir o).
  { apply (field_release_and_return env virtualenv_dir (virtualenv_dir o));
      try (intros; reflexivity).
    exact Hd4. }
  pose proof (proj2 (release_and_return_frame env (cwd (world s1)) s4 marker
                       ltac:(rewrite HN4; congruence)) Hok) as Hc5.
  assert (Hr : snd r = snd (release_and_return env (cwd (world s1)) s4))
    by (now rewrite Hslow).
  pose proof (configuration_kept env s) as Hcfg. fold r in Hcfg. fold o in Hcfg.
  rewrite Hr. split; [exact Hm5|]. split; [exact Hd5|].
  split; [rewrite <- Hr; exact Hcfg|]. split; [exact R2|].
  split; [exact R1|]. rewrite Hc5. exact Hc1.
Qed.



(** ** The system-wide installation *)

Lemma pip_install_each_global env packages :
  forall s,
    let venv := virtualenv_dir (obj s) in
    let extra := pip_extra (obj s) in
    let r := pip_install_each env true packages s in
    virtualenv_dir (obj (snd r)) = venv
    /\ total_steps (obj (snd r)) = total_steps (obj s)
    /\ match fst r with
       | Ok _ =>
           trace (world (snd r))
           = (trace (world s) ++ map (fun p => global_event venv extra p 0) packages)%list
       | Raise e =>
           installed_up_to venv extra packages (trace (world s)) (trace (world (snd r)))
       | Hangs => False
       end.
Proof.
  induction packages as [|package rest IH]; intros s venv extra r.
  - subst r. cbn. rewrite app_nil_r. auto.
  - subst r. cbn [pip_install_each]. rewrite bind_get_obj, bind_unfold.
    rewrite call_installer_eq. fold venv. fold extra.
    change (pip_cmd true venv extra package)
      with ("python pip install " +:+ extra +:+ " --upgrade " +:+ package).
    unfold pip_logfilename.
    set (log := OsPath.join venv (package_short package +:+ ".out")).
    set (run := after_run env (package_short package)
                  ("python pip install " +:+ extra +:+ " --upgrade " +:+ package)
                  (Some log)
                  (with_files (<[log := File EmptyString]> (files (world s)))
                              (stepped s))).
    assert (Hrun :
      let r := match fst run with
               | Ok a => (fun _ : unit => pip_install_each env true rest) a (snd run)
               | Raise e => (Raise e, snd run)
               | Hangs => (Hangs, snd run)
               end in
      virtualenv_dir (obj (snd r)) = venv
      /\ total_steps (obj (snd r)) = total_steps (obj s)
      /\ match fst r with
         | Ok _ =>
             trace (world (snd r))
             = (trace (world s)
                ++ map (fun p => global_event venv extra p 0) (package :: rest))%list
         | Raise e =>
             installed_up_to venv extra (package :: rest) (trace (world s))
                             (trace (world (snd r)))
         | Hangs => False
         end).
    { subst run. unfold after_run.
      set (x := exec env _ _). cbn [fst snd].
      destruct (fst x =? 0) eqn:Ez.
      - apply Z.eqb_eq in Ez.
        match goal with |- context [pip_install_each env true rest ?s1] =>
          specialize (IH s1); set (s1' := s1) in * end.
        cbv zeta in IH. destruct IH as (Hv & Ht & IH).
        change (virtualenv_dir (obj s1')) with venv in *.
        change (pip_extra (obj s1')) with extra in *.
        change (total_steps (obj s1')) with (total_steps (obj s)) in *.
        change (trace (world s1'))
          with (trace (world s) ++ [global_event venv extra package (fst x)])%list in IH.
        rewrite Ez in IH.
        split; [exact Hv|]. split; [exact Ht|].
        destruct (fst (pip_install_each env true rest s1')) as [[]|e|].
        + rewrite IH. rewrite <- app_assoc. reflexivity.
        + destruct IH as (pre & post & tail & -> & Htr & Htail).
          exists (package :: pre), post, tail. split; [reflexivity|].
          split; [|exact Htail]. rewrite Htr. cbn [map].
          rewrite <- !app_assoc. reflexivity.
        + exact IH.
      - apply Z.eqb_neq in Ez. cbn [fst snd obj world with_files stepped].
        split; [reflexivity|]. split; [reflexivity|].
        exists [], (package :: rest), [global_event venv extra package (fst x)].
        split; [reflexivity|]. split; [reflexivity|].
        right. exists package, rest, (fst x). auto. }
    destruct (files (world s) !! log) as [[| |]|];
      try (destruct run as [[[]|e|] s1]; exact Hrun).
    cbn [fst snd]. split; [reflexivity|]. split; [reflexivity|].
    exists [], (package :: rest), []. split; [reflexivity|].
    split; [now rewrite app_nil_r | now left].
Qed.

Lemma pip_install_packages_global env s :
  let venv := virtualenv_dir (obj s) in
  let extra := pip_extra (obj s) in
  let r := pip_install_packages env true s in
  virtualenv_dir (obj (snd r)) = venv
  /\ total_steps (obj (snd r)) = total_steps (obj s)
  /\ match fst r with
     | Ok _ =>
         trace (world (snd r))
         = (trace (world s)
              ++ map (fun p => global_event venv extra p 0) (requirements (obj s)))%list
     | Raise e =>
         installed_up_to venv extra (requirements (obj s))
                         (trace (world s)) (trace (world (snd r)))
     | Hangs => False
     end.
Proof.
  intros venv extra r. subst r. unfold pip_install_packages.
  rewrite bind_with_obj, bind_get_obj, bind_unfold.
  cbn [obj requirements set_step_prefix].
  pose proof (pip_install_each_global env (requirements (obj s))
                (mkState (set_step_prefix "Installing pip package " (obj s)) (world s)))
    as H.
  cbv zeta in H. cbn [obj world virtualenv_dir pip_extra total_steps set_step_prefix] in H.
  fold venv in H. fold extra in H.
  destruct (pip_install_each env true (requirements (obj s)) _) as [[[]|e|] s2];
    cbn [fst snd with_obj obj world virtualenv_dir total_steps set_step_prefix] in *;
    exact H.
Qed.

(** X14. The system-wide installation. Under any user but root it stops
    at the assertion with nothing touched. Under root, the temporary log
    directory being made: the packages are installed one by one in the
    order of the list, each with the command [python pip install <extra>
    --upgrade <declaration>] and a log of its own in the temporary
    directory; an installation that fails ends the run and the ones after
    it are not started. When the run returns, the temporary directory and
    all below it are gone, and the object is left pointing at it. *)
Theorem global_installation (host : Host) (env : Env) (s : State) :
  let o := obj s in
  let logdir := mkdtemp_name host "logs" in
  let r := pip_install_packages_globally host env s in
  if negb (String.eqb (getuser host) "root") then r = (Raise AssertionError, s)
  else
    match files (world s) !! logdir with
    | Some _ => fst r = Raise (IOError EEXIST logdir) /\ world (snd r) = world s
    | None =>
        virtualenv_dir (obj (snd r)) = logdir
        /\ total_steps (obj (snd r)) = Z.of_nat (length (requirements o))
        /\ match fst r with
           | Ok _ =>
               trace (world (snd r))
               = (trace (world s)
                    ++ map (fun p => global_event logdir (pip_extra o) p 0)
                           (requirements o))%list
               /\ (forall p, within logdir p = true ->
                             files (world (snd r)) !! p = None)
           | Raise e =>
               installed_up_to logdir (pip_extra o) (requirements o)
                               (trace (world s)) (trace (world (snd r)))
           | Hangs => False
           end
    end.
Proof.
  intros o logdir r. subst r. unfold pip_install_packages_globally.
  destruct (negb (String.eqb (getuser host) "root")); [reflexivity|].
  rewrite bind_get_obj, bind_with_obj, bind_unfold.
  unfold mkdtemp. rewrite bind_get_files. cbn [world files obj].
  fold logdir. fold o.
  destruct (files (world s) !! logdir) as [n|] eqn:El;
    [cbn; split; reflexivity|].
  cbn [put_files with_world mret M_ret]. rewrite bind_unfold.
  cbn [put_files with_world mret M_ret]. rewrite bind_with_obj, bind_unfold.
  set (s1 := mkState _ _).
  pose proof (pip_install_packages_global env s1) as H. cbv zeta in H.
  change (virtualenv_dir (obj s1)) with logdir in H.
  change (pip_extra (obj s1)) with (pip_extra o) in H.
  change (requirements (obj s1)) with (requirements o) in H.
  change (total_steps (obj s1)) with (Z.of_nat (length (requirements o))) in H.
  change (trace (world s1)) with (trace (world s)) in H.
  destruct (pip_install_packages env true s1) as [[[]|e|] s2];
    cbn [fst snd] in *; destruct H as (Hv & Ht & H);
    [|split; [exact Hv|]; split; [exact Ht|]; exact H..].
  rewrite bind_get_obj, Hv. unfold rmtree. rewrite bind_get_files.
  destruct (files (world s2) !! logdir) as [[| |]|] eqn:E2;
    cbn [raise put_files with_world fst snd obj world files trace set_files];
    (split; [exact Hv|]); (split; [exact Ht|]);
    try (exists (requirements o), [], []; rewrite !app_nil_r;
         split; [reflexivity|]; split; [exact H | now left]).
  split; [exact H|]. intros p Hp. rewrite remove_tree_lookup. now rewrite Hp.
Qed.

(** ** The command line and the activation *)

Lemma path_exists_entry fs p n :
  fs !! p = Some n -> (forall t, n <> Symlink t) -> path_exists fs p = true.
Proof.
  intros H Hn. unfold path_exists, max_links. cbn [resolve]. rewrite H.
  destruct n as [| |t]; [reflexivity | reflexivity | now destruct (Hn t)].
Qed.

(** A request that returns leaves the marker in place, whether it found
    it or made it. *)
Lemma served_marked (env : Env) (s : State) :
  let o := obj s in
  let marker := completed_marker o in
  (forall t, files (world s) !! marker <> Some (Symlink t)) ->
  venv_latest_filename o <> marker ->
  lockfilename o <> marker ->
  let r := update_if_needed env s in
  fst r = Ok tt ->
  virtualenv_dir (obj (snd r)) = virtualenv_dir o
  /\ path_exists (files (world (snd r))) marker = true.
Proof.
  intros o marker Hns HL HN r Hok.
  destruct (files (world s) !! marker) as [n|] eqn:Em.
  - destruct (venv_lastest_symlink_effect s) as (Q1 & Q2 & _ & _ & _ & Q6).
    assert (Hm1 : files (world (snd (venv_lastest_symlink s))) !! marker = Some n).
    { rewrite Q6; [exact Em|]. fold o. congruence. }
    assert (Hp : path_exists (files (world (snd (venv_lastest_symlink s)))) marker = true).
    { apply (path_exists_entry _ _ n Hm1). intros t ->. now apply (Hns t). }
    assert (Hr : r = (Ok tt, snd (venv_lastest_symlink s))).
    { subst r. unfold update_if_needed. rewrite bind_unfold.
      destruct (venv_lastest_symlink s) as [x s1] eqn:E1. cbn [fst snd] in *.
      subst x. rewrite bind_get_obj, bind_os_path_exists, Q2.
      fold o. fold marker. now rewrite Hp. }
    rewrite Hr. cbn [snd]. split; [now rewrite Q2 | exact Hp].
  - destruct (served_core env s Em HL HN Hok) as (H1 & H2 & _).
    split; [exact H2|]. exact (path_exists_file _ _ _ H1).
Qed.





(** ** The steps of a build that succeeds *)

Lemma configuration_fields o o0 :
  configuration o = configuration o0 ->
  venv_dir_search o = venv_dir_search o0
  /\ requirements o = requirements o0
  /\ deps_hash o = deps_hash o0
  /\ virtualenv_command o = virtualenv_command o0
  /\ lockfilename o = lockfilename o0
  /\ archive_dir o = archive_dir o0
  /\ venv_latest_filename o = venv_latest_filename o0
  /\ submodule_update_path o = submodule_update_path o0
  /\ pip_extra o = pip_extra o0
  /\ autodeps_dir o = autodeps_dir o0.
Proof. unfold configuration. intros H. injection H. intros. repeat split; assumption. Qed.

Lemma progress_quiet {A} (m : M A) o0 d t k tr s :
  quiet m -> progress o0 d t k tr s -> progress o0 d t k tr (snd (m s)).
Proof.
  intros Hq (H1 & H2 & H3 & H4 & H5). destruct (Hq s) as [Ho Ht].
  unfold progress. rewrite Ho, Ht. auto.
Qed.

Lemma quiet_ret {A} (a : A) : quiet (mret a).
Proof. intros s. split; reflexivity. Qed.

Lemma quiet_raise {A} e : quiet (@raise A e).
Proof. intros s. split; reflexivity. Qed.

Lemma quiet_bind {A B} (m : M A) (f : A -> M B) :
  quiet m -> (forall a, quiet (f a)) -> quiet (m ≫= f).
Proof.
  intros Hm Hf s. rewrite bind_unfold. destruct (Hm s) as [H1 H2].
  destruct (m s) as [[a|e|] s1]; cbn [snd] in *; auto.
  destruct (Hf a s1) as [H3 H4]. rewrite H3, H4. auto.
Qed.

Lemma quiet_try {A} (m h : M A) handles :
  quiet m -> quiet h -> quiet (try_except m handles h).
Proof.
  intros Hm Hh s. unfold try_except. destruct (Hm s) as [H1 H2].
  destruct (m s) as [[a|e|] s1]; cbn [snd] in *; auto.
  destruct (handles e); cbn [snd]; auto.
  destruct (Hh s1) as [H3 H4]. rewrite H3, H4. auto.
Qed.

Lemma quiet_get_files : quiet get_files.
Proof. intros s. split; reflexivity. Qed.

Lemma quiet_get_obj : quiet get_obj.
Proof. intros s. split; reflexivity. Qed.

Lemma quiet_put_files fs : quiet (put_files fs).
Proof. intros s. split; reflexivity. Qed.

Lemma quiet_os_path_exists p : quiet (os_path_exists p).
Proof. intros s. split; reflexivity. Qed.

Ltac hush :=
  repeat first
    [ apply quiet_ret
    | apply quiet_raise
    | apply quiet_get_files
    | apply quiet_get_obj
    | apply quiet_put_files
    | apply quiet_os_path_exists
    | apply quiet_bind; [|intros ?]
    | apply quiet_try
    | match goal with
      | |- quiet (if ?b then _ else _) => destruct b
      | |- quiet (match ?x with _ => _ end) => destruct x
      | |- quiet (let _ := _ in _) => cbv zeta
      end ].

Lemma quiet_makedirs env p : quiet (makedirs env p).
Proof. unfold makedirs. hush. Qed.

Lemma quiet_open_write p c : quiet (open_write p c).
Proof. unfold open_write. hush. Qed.

Lemma quiet_rmtree p : quiet (rmtree p).
Proof. unfold rmtree. hush. Qed.

Lemma quiet_rename a b : quiet (rename a b).
Proof. unfold rename. hush. Qed.

Lemma quiet_chmod p : quiet (chmod p).
Proof. unfold chmod. hush. Qed.

Lemma quiet_os_access_w env p : quiet (os_access_w env p).
Proof. unfold os_access_w. hush. Qed.

Lemma quiet_mkdirs env : quiet (mkdirs env).
Proof. unfold mkdirs. hush; apply quiet_makedirs. Qed.

(** One command: a step is counted whatever happens, and the record
    grows by the command when it was started. *)
Lemma call_installer_progress env name cmd log o0 d t k tr s :
  progress o0 d t k tr s ->
  let r := call_installer env name cmd log s in
  (exists sub,
      progress o0 d t (k + 1) (tr ++ sub)%list (snd r)
      /\ (sub = [] \/ exists status, sub = [Run name cmd log status]))
  /\ (fst r = Ok tt -> progress o0 d t (k + 1) (tr ++ [Run name cmd log 0])%list (snd r)).
Proof.
  intros (H1 & H2 & H3 & H4 & H5) r. subst r. rewrite call_installer_eq.
  assert (Hrun : forall s0,
             obj s0 = obj (stepped s) -> trace (world s0) = tr ->
             let r := after_run env name cmd log s0 in
             (exists sub,
                 progress o0 d t (k + 1) (tr ++ sub)%list (snd r)
                 /\ (sub = [] \/ exists status, sub = [Run name cmd log status]))
             /\ (fst r = Ok tt ->
                 progress o0 d t (k + 1) (tr ++ [Run name cmd log 0])%list (snd r))).
  { intros s0 Ho Htr r. subst r. unfold after_run. cbn [fst snd].
    assert (Hp : forall st,
               progress o0 d t (k + 1) (tr ++ [Run name cmd log st])%list
                 (mkState (obj s0)
                    (record (Run name cmd log st)
                       (set_files (snd (exec env cmd (files (world s0)))) (world s0))))).
    { intros st. unfold progress. cbn [obj world trace record set_files].
      rewrite Ho, Htr. unfold stepped. cbn [obj current_step set_current_step].
      rewrite H4. auto. }
    split.
    - eexists. split; [apply Hp | right; eexists; reflexivity].
    - destruct (fst (exec env cmd (files (world s0))) =? 0) eqn:Ez; [|discriminate].
      intros _. apply Z.eqb_eq in Ez. rewrite Ez. apply Hp. }
  destruct log as [f|]; [|apply Hrun; [reflexivity | exact H5]].
  destruct (files (world s) !! f) as [[| |]|];
    try (apply Hrun; [reflexivity | exact H5]).
  cbn [fst snd]. split; [|discriminate].
  exists []. split; [|now left]. rewrite app_nil_r.
  unfold progress, stepped. cbn [obj world current_step set_current_step].
  rewrite H4. auto.
Qed.

Lemma pip_install_each_progress env o0 d t packages :
  forall k tr s,
    progress o0 d t k tr s ->
    fst (pip_install_each env false packages s) = Ok tt ->
    progress o0 d t (k + Z.of_nat (length packages))
             (tr ++ map (fun p => install_event d (pip_extra o0) p 0) packages)%list
             (snd (pip_install_each env false packages s)).
Proof.
  induction packages as [|package rest IH]; intros k tr s Hs Hok.
  - cbn. rewrite app_nil_r, Z.add_0_r. exact Hs.
  - cbn [pip_install_each] in *. rewrite bind_get_obj in *.
    destruct (bind_ok_inv _ _ _ _ Hok) as ([] & H1 & E). rewrite E in *. clear E.
    pose proof Hs as (Hc & Hd & _).
    destruct (configuration_fields _ _ Hc) as (_ & _ & _ & _ & _ & _ & _ & _ & Hx & _).
    rewrite Hd, Hx in *.
    destruct (call_installer_progress env (package_short package)
                (pip_cmd false d (pip_extra o0) package)
                (Some (pip_logfilename d package)) o0 d t k tr s Hs) as [_ Hstep].
    specialize (Hstep H1).
    pose proof (IH _ _ _ Hstep Hok) as H.
    cbn [length map]. rewrite Nat2Z.inj_succ.
    replace (k + Z.succ (Z.of_nat (length rest))) with (k + 1 + Z.of_nat (length rest))
      by lia.
    rewrite <- app_assoc in H. exact H.
Qed.

Lemma progress_set_step_prefix o0 d t k tr p s :
  progress o0 d t k tr s ->
  progress o0 d t k tr (mkState (set_step_prefix p (obj s)) (world s)).
Proof. intros H. exact H. Qed.

Lemma pip_install_packages_progress env o0 d t k tr s :
  progress o0 d t k tr s ->
  fst (pip_install_packages env false s) = Ok tt ->
  progress o0 d t (k + Z.of_nat (length (requirements o0)))
           (tr ++ map (fun p => install_event d (pip_extra o0) p 0) (requirements o0))%list
           (snd (pip_install_packages env false s)).
Proof.
  intros Hs Hok. unfold pip_install_packages in *.
  rewrite bind_with_obj, bind_get_obj in *. cbn [obj requirements set_step_prefix] in *.
  destruct (bind_ok_inv _ _ _ _ Hok) as ([] & H1 & E). rewrite E in *. clear E.
  pose proof Hs as (Hc & _).
  destruct (configuration_fields _ _ Hc) as (_ & Hq & _). rewrite Hq in *.
  pose proof (pip_install_each_progress env o0 d t (requirements o0) k tr _
                (progress_set_step_prefix _ _ _ _ _ "Installing pip package " s Hs) H1)
    as H.
  exact (progress_set_step_prefix _ _ _ _ _ EmptyString _ H).
Qed.

Lemma submodule_update_progress env o0 d t k tr s :
  progress o0 d t k tr s ->
  exists sub,
    progress o0 d t (k + (if truthy (submodule_update_path o0) then 1 else 0))
             (tr ++ sub)%list (snd (submodule_update env s))
    /\ staged_submodule_events o0 d sub.
Proof.
  intros Hs. pose proof Hs as (Hc & Hd & _).
  destruct (configuration_fields _ _ Hc) as (_ & _ & _ & _ & _ & _ & _ & Hp & _).
  unfold submodule_update. rewrite bind_get_obj, Hp, Hd.
  destruct (truthy (submodule_update_path o0)) eqn:Et.
  - fold (submodule_command o0).
    destruct (swallowed
                (call_installer env "Updating submodules" (submodule_command o0)
                   (Some (OsPath.join d "submodules.log"))) s
                (call_installer_never_hangs _ _ _ _ _)) as [_ E2].
    rewrite E2.
    destruct (call_installer_progress env "Updating submodules" (submodule_command o0)
                (Some (OsPath.join d "submodules.log")) o0 d t k tr s Hs)
      as [(sub & H1 & H2) _].
    exists sub. split; [exact H1|].
    destruct H2 as [-> | [st ->]]; [now left | right; split; [exact Et | eauto]].
  - exists []. rewrite app_nil_r, Z.add_0_r. split; [exact Hs | now left].
Qed.

Lemma ok_chain {A B} (m : M A) (f : A -> M B) s b :
  fst ((m ≫= f) s) = Ok b ->
  exists a s1, m s = (Ok a, s1) /\ (m ≫= f) s = f a s1.
Proof.
  rewrite bind_unfold. destruct (m s) as [[a|e|] s1]; cbn [fst snd];
    try discriminate.
  intros _. exists a, s1. split; reflexivity.
Qed.

Lemma call_installer_ok env name cmd log o0 d t k tr s s1 :
  progress o0 d t k tr s ->
  call_installer env name cmd log s = (Ok tt, s1) ->
  progress o0 d t (k + 1) (tr ++ [Run name cmd log 0])%list s1.
Proof.
  intros Hs E.
  destruct (call_installer_progress env name cmd log o0 d t k tr s Hs) as [_ H].
  rewrite E in H. exact (H eq_refl).
Qed.

(** Lines 187-194, when they go through. *)
Lemma build_steps_progress env o0 st t k tr s :
  progress o0 st t k tr s ->
  let steps :=
    (mkdirs env ;; submodule_update env ;; create_virtualenv env ;;
     tag_revision env ;;
     o' ← get_obj;
     open_write (OsPath.join (virtualenv_dir o') "requirements.txt")
       (Str.join (String Str.newline EmptyString) (requirements o')
        +:+ String Str.newline EmptyString) ;;
     pip_install_packages env false ;;
     venv_relocatable env) in
  fst (steps s) = Ok tt ->
  exists sub,
    progress o0 st t
             (k + (if truthy (submodule_update_path o0) then 1 else 0) + 3
              + Z.of_nat (length (requirements o0)))
             (tr ++ sub ++ staged_events o0 st)%list (snd (steps s))
    /\ staged_submodule_events o0 st sub.
Proof.
  intros Hs steps Hok. subst steps.
  (* mkdirs *)
  destruct (ok_chain _ _ _ _ Hok) as ([] & s1 & Em & E). rewrite E in *. clear E.
  pose proof (progress_quiet _ _ _ _ _ _ _ (quiet_mkdirs env) Hs) as H1.
  rewrite Em in H1. cbn [snd] in H1. clear Em.
  (* submodule_update *)
  destruct (ok_chain _ _ _ _ Hok) as ([] & s2 & Em & E). rewrite E in *. clear E.
  destruct (submodule_update_progress env _ _ _ _ _ _ H1) as (sub & H2 & Hsub).
  rewrite Em in H2. cbn [snd] in H2. clear Em.
  exists sub. split; [|exact Hsub].
  (* create_virtualenv *)
  destruct (ok_chain _ _ _ _ Hok) as ([] & s3 & Em & E). rewrite E in *. clear E.
  pose proof H2 as (Hc2 & Hd2 & _).
  destruct (configuration_fields _ _ Hc2) as (_ & _ & _ & Hvc & _).
  unfold create_virtualenv in Em. rewrite bind_get_obj, Hd2, Hvc in Em.
  pose proof (call_installer_ok _ _ _ _ _ _ _ _ _ _ _ H2 Em) as H3. clear Em.
  (* tag_revision *)
  destruct (ok_chain _ _ _ _ Hok) as ([] & s4 & Em & E). rewrite E in *. clear E.
  pose proof H3 as (_ & Hd3 & _).
  unfold tag_revision in Em. rewrite bind_get_obj, Hd3 in Em.
  pose proof (call_installer_ok _ _ _ _ _ _ _ _ _ _ _ H3 Em) as H4. clear Em.
  (* the manifest *)
  rewrite bind_get_obj in *.
  destruct (ok_chain _ _ _ _ Hok) as ([] & s5 & Em & E). rewrite E in *. clear E.
  match type of Em with
  | ?m s4 = _ =>
      pose proof (progress_quiet m _ _ _ _ _ s4 (quiet_open_write _ _) H4) as H5
  end.
  rewrite Em in H5. cbn [snd] in H5. clear Em.
  (* the packages *)
  destruct (ok_chain _ _ _ _ Hok) as ([] & s6 & Em & E). rewrite E in *. clear E.
  assert (Hp : fst (pip_install_packages env false s5) = Ok tt) by now rewrite Em.
  pose proof (pip_install_packages_progress env _ _ _ _ _ _ H5 Hp) as H6.
  rewrite Em in H6. cbn [snd] in H6. clear Em Hp.
  (* venv_relocatable *)
  pose proof H6 as (Hc6 & Hd6 & _).
  destruct (configuration_fields _ _ Hc6) as (_ & _ & _ & Hvc6 & _).
  unfold venv_relocatable in *. rewrite bind_get_obj, Hd6, Hvc6 in *.
  destruct (call_installer env "Making venv relocatable" _ _ s6) as [[[]|e|] s7] eqn:Em;
    cbn [fst snd] in *; try discriminate.
  pose proof (call_installer_ok _ _ _ _ _ _ _ _ _ _ _ H6 Em) as H7.
  unfold staged_events.
  replace (k + (if truthy (submodule_update_path o0) then 1 else 0) + 3
           + Z.of_nat (length (requirements o0)))
    with (k + (if truthy (submodule_update_path o0) then 1 else 0) + 1 + 1
          + Z.of_nat (length (requirements o0)) + 1) by lia.
  rewrite <- !app_assoc in H7. cbn [app] in H7 |- *. exact H7.
Qed.

(** Lines 195-201, when they go through. *)
Lemma publish_staging_progress final o0 st t k tr s s1 :
  progress o0 st t k tr s ->
  publish_staging final s = (Ok tt, s1) ->
  progress o0 final t k tr s1.
Proof.
  intros Hs E. unfold publish_staging in E.
  assert (Hok : fst ((try_except (rmtree final) is_ENOENT (mret tt) ;;
                      o ← get_obj;
                      rename (virtualenv_dir o) final ;;
                      with_obj (set_virtualenv_dir final)) s) = Ok tt)
    by now rewrite E.
  destruct (ok_chain _ _ _ _ Hok) as ([] & s2 & Em & E2). rewrite E2 in *. clear E2.
  match type of Em with
  | ?m s = _ =>
      pose proof (progress_quiet m _ _ _ _ _ s
                    (quiet_try _ _ _ (quiet_rmtree final) (quiet_ret tt)) Hs) as H2
  end.
  rewrite Em in H2. cbn [snd] in H2. clear Em.
  rewrite bind_get_obj in *.
  destruct (ok_chain _ _ _ _ Hok) as ([] & s3 & Em & E2). rewrite E2 in *. clear E2.
  pose proof (progress_quiet _ _ _ _ _ _ s2 (quiet_rename (virtualenv_dir (obj s2)) final)
                H2) as H3.
  rewrite Em in H3. cbn [snd] in H3. clear Em.
  cbn [with_obj] in E. injection E as <-.
  destruct H3 as (G1 & G2 & G3 & G4 & G5). repeat split; assumption.
Qed.

Lemma archive_fields env o o0 :
  configuration o = configuration o0 ->
  virtualenv_dir o = virtualenv_dir o0 ->
  archive_name o = archive_name o0
  /\ archive_tmp_name env o = archive_tmp_name env o0
  /\ archive_cmd env o = archive_cmd env o0
  /\ archive_log o = archive_log o0.
Proof.
  intros Hc Hd.
  destruct (configuration_fields _ _ Hc) as (_ & _ & Hh & _ & _ & Ha & _).
  unfold archive_cmd, archive_log, archive_name, archive_tmp_name.
  rewrite Hh, Ha, Hd. auto.
Qed.

(** Lines 281-299, when they go through. *)
Lemma make_archive_progress env o0 t k tr s s1 :
  progress o0 (virtualenv_dir o0) t k tr s ->
  make_archive env s = (Ok tt, s1) ->
  progress o0 (virtualenv_dir o0) t k (tr ++ [Call "make_archive"])%list s1
  \/ progress o0 (virtualenv_dir o0) t (k + 1)
              (tr ++ [Call "make_archive";
                      Run "Making tar archive" (archive_cmd env o0)
                          (Some (archive_log o0)) 0])%list s1.
Proof.
  intros Hs E. unfold make_archive, make_archive_check in E.
  rewrite bind_unfold, bind_emit, bind_get_obj in E. unfold os_access_w in E.
  rewrite bind_unfold, bind_get_files in E.
  cbn [mret M_ret obj world files record] in E.
  assert (H0 : progress o0 (virtualenv_dir o0) t k (tr ++ [Call "make_archive"])%list
                 (mkState (obj s) (record (Call "make_archive") (world s)))).
  { destruct Hs as (G1 & G2 & G3 & G4 & G5). unfold progress.
    cbn [obj world trace record]. rewrite G5. auto. }
  destruct (path_exists (files (world s)) (archive_dir (obj s)) &&
            writable env (archive_dir (obj s))); cbn [negb] in E.
  2:{ injection E as <-. left. exact H0. }
  rewrite bind_os_path_exists in E. cbn [obj world files record] in E.
  destruct (path_exists (files (world s)) _); cbn [mret M_ret] in E.
  { injection E as <-. left. exact H0. }
  right. unfold make_archive_write in E. rewrite bind_get_obj in E. cbn [obj] in E.
  pose proof Hs as (Hc & Hd & _).
  destruct (archive_fields env _ _ Hc Hd) as (_ & _ & Hcmd & Hlog).
  fold (archive_cmd env (obj s)) in E. fold (archive_log (obj s)) in E.
  rewrite Hcmd, Hlog in E.
  assert (Hok : fst ((call_installer env "Making tar archive" (archive_cmd env o0)
                        (Some (archive_log o0)) ;;
                      chmod (archive_tmp_name env (obj s)) ;;
                      rename (archive_tmp_name env (obj s)) (archive_name (obj s)))
                       (mkState (obj s) (record (Call "make_archive") (world s))))
                = Ok tt) by now rewrite E.
  destruct (ok_chain _ _ _ _ Hok) as ([] & s2 & Em & E2). rewrite E2 in *. clear E2.
  pose proof (call_installer_ok _ _ _ _ _ _ _ _ _ _ _ H0 Em) as H2. clear Em.
  destruct (ok_chain _ _ _ _ Hok) as ([] & s3 & Em & E2). rewrite E2 in *. clear E2.
  pose proof (progress_quiet _ _ _ _ _ _ s2 (quiet_chmod (archive_tmp_name env (obj s)))
                H2) as H3.
  rewrite Em in H3. cbn [snd] in H3. clear Em.
  pose proof (progress_quiet _ _ _ _ _ _ s3
                (quiet_rename (archive_tmp_name env (obj s)) (archive_name (obj s)))
                H3) as H4.
  rewrite E in H4. cbn [snd] in H4.
  rewrite <- app_assoc in H4. exact H4.
Qed.

(** X17. The steps of a build that succeeds. When [update_unsafe]
    returns normally, what it has recorded is, in this order: its own
    call; the submodule update, if one is configured and its command could
    be started (its status does not matter); the creation of the
    environment in the staging directory; the recording of the revision;
    the installation of every declared package, one by one in the order of
    the list; the relocation fix-up; the call of [make_archive] and, when
    the archive was written, the packing command. Every command but the
    submodule update has status 0. The steps counted are the steps
    announced when the archive was written, and one less when it was not;
    the object points where it did and is configured as it was. *)
Theorem successful_build_steps (env : Env) (s : State) :
  let o := obj s in
  let st := virtualenv_dir o +:+ ".build" in
  let r := update_unsafe env s in
  fst r = Ok tt ->
  exists sub,
    staged_submodule_events o st sub
    /\ total_steps (obj (snd r)) = announced_steps o
    /\ virtualenv_dir (obj (snd r)) = virtualenv_dir o
    /\ configuration (obj (snd r)) = configuration o
    /\ (trace (world (snd r))
        = (trace (world s)
             ++ Call "update_unsafe" :: sub ++ staged_events o st
             ++ [Call "make_archive"])%list
        /\ current_step (obj (snd r)) = current_step o + announced_steps o - 1
        \/
        trace (world (snd r))
        = (trace (world s)
             ++ Call "update_unsafe" :: sub ++ staged_events o st
             ++ [Call "make_archive";
                 Run "Making tar archive" (archive_cmd env o) (Some (archive_log o)) 0])%list
        /\ current_step (obj (snd r)) = current_step o + announced_steps o).
Proof.
  intros o st r Hok. subst r. rewrite update_unsafe_unfold in *.
  fold o in Hok |- *.
  (* build_staging *)
  destruct (ok_chain _ _ _ _ Hok) as ([] & s1 & Em & E). rewrite E in *. clear E.
  unfold build_staging in Em. rewrite bind_get_obj, !bind_with_obj in Em.
  cbn [obj entered] in Em. fold o in Em. fold st in Em.
  fold (announced_steps o) in Em.
  set (s0 := mkState _ _) in Em.
  assert (H0 : progress o st (announced_steps o) (current_step o)
                        (trace (world s) ++ [Call "update_unsafe"])%list s0)
    by (repeat split).
  assert (Hb : fst ((mkdirs env ;; submodule_update env ;; create_virtualenv env ;;
                     tag_revision env ;;
                     o' ← get_obj;
                     open_write (OsPath.join (virtualenv_dir o') "requirements.txt")
                       (Str.join (String Str.newline EmptyString) (requirements o')
                        +:+ String Str.newline EmptyString) ;;
                     pip_install_packages env false ;;
                     venv_relocatable env) s0) = Ok tt) by now rewrite Em.
  destruct (build_steps_progress env o st _ _ _ s0 H0 Hb) as (sub & H1 & Hsub).
  rewrite Em in H1. cbn [snd] in H1. clear Em Hb.
  exists sub. split; [exact Hsub|].
  (* publish_staging *)
  destruct (ok_chain _ _ _ _ Hok) as ([] & s2 & Em & E). rewrite E in *. clear E.
  pose proof (publish_staging_progress _ _ _ _ _ _ _ _ H1 Em) as H2. clear Em.
  (* make_archive *)
  destruct (make_archive env s2) as [[[]|e|] s3] eqn:Em; cbn [fst snd] in *;
    try discriminate.
  destruct (make_archive_progress env o _ _ _ s2 s3 H2 Em)
    as [(G1 & G2 & G3 & G4 & G5) | (G1 & G2 & G3 & G4 & G5)].
  - split; [exact G3|]. split; [exact G2|]. split; [exact G1|]. left. split.
    + rewrite G5. rewrite <- !app_assoc. reflexivity.
    + rewrite G4. unfold announced_steps. lia.
  - split; [exact G3|]. split; [exact G2|]. split; [exact G1|]. right. split.
    + rewrite G5. rewrite <- !app_assoc. reflexivity.
    + rewrite G4. unfold announced_steps. lia.
Qed.

Lemma successful_build_witness :
  let env := publisher_env 1 in
  let r := update_unsafe env demo_state in
  fst r = Ok tt
  /\ total_steps (obj (snd r)) = 6
  /\ virtualenv_dir (obj (snd r)) = "/venv/h".
Proof.
  intros env r.
  assert (H : fst (update_unsafe env demo_state) = Ok tt) by (vm_compute; reflexivity).
  destruct (successful_build_steps env demo_state H) as (sub & _ & H1 & H2 & _).
  split; [exact H|]. split; [exact H1 | exact H2].
Defined.
